(** * gh-notify: response cache, paged notification fetch, list navigation

    A shallow embedding of the Go program: the TTL file cache
    ([cachePath], [cacheGet], [cacheSet]), the page fetcher ([getNotifs],
    [getNotifications]), the Bubble Tea model ([Update], [View]) and the
    command's [Run] function, followed by the properties proved of them.

    Conventions.
    - Go [int], [int64] and [time.Duration] values are integers in [Z].
      The sums and differences the program forms are of slice lengths,
      page counters and terminal sizes (16-bit quantities of the
      terminal driver), and [numNotifications -
      fetchedCount] is formed with [fetchedCount] at 0 or between 0 and
      [numNotifications]: none can leave the 64-bit range, and the
      arithmetic is written without wrap-around.  The one saturating
      operation, [time.Time.Sub], is written out, and so is the wrap of
      [time.Unix], whose argument is read from a file.
    - Go strings are byte strings: [len] counts bytes and [s[:n]] cuts
      bytes.  Rocq's [string] is a list of bytes too, and a literal holds
      the UTF-8 bytes of its text.
    - A run-time panic, [os.Exit] and a normal return are the three ways
      a call can end; they are constructors of [outcome].
    - The file system is a finite map from paths to files.  Opening,
      removing and renaming fail on a path that holds no file; creating
      and writing a file in the cache directory succeed.
    - The source tree holds the program at several stages.  The model
      follows the fullest, with the cache and the scrolling view;
      [getNotifs_direct] and [getNotifications_direct] are the fetcher of
      [main.go], which has no cache, and [View_plain] is its view; the
      stage before the Bubble Tea model is there with [checkVersion],
      [abbreviate_early] and [printNotifs]. *)

From Stdlib Require Import ZArith String Ascii List Lia Bool DecimalString DecimalZ.
From stdpp Require Import gmap strings list.

Open Scope Z_scope.

(* ===================================================================== *)
(** * Strings and small helpers *)
(* ===================================================================== *)

(** [len(s)] for a string: the number of bytes. *)
Definition len (s : string) : Z := Z.of_nat (String.length s).

Fixpoint string_take (n : nat) (s : string) : string :=
  match n, s with
  | S n', String c rest => String c (string_take n' rest)
  | _, _ => ""
  end.

Fixpoint string_drop (n : nat) (s : string) : string :=
  match n, s with
  | S n', String _ rest => string_drop n' rest
  | _, _ => s
  end.

(** [s[:n]] once [0 <= n <= len(s)] is known: the first [n] bytes. *)
Definition slice_to (s : string) (n : Z) : string :=
  string_take (Z.to_nat n) s.

(** [strings.Contains(s, substr)]: [substr] occurs in [s] as a run of
    consecutive bytes; the empty string occurs everywhere. *)
Fixpoint strings_Contains (s substr : string) : bool :=
  String.prefix substr s ||
  match s with
  | EmptyString => false
  | String _ rest => strings_Contains rest substr
  end.

(** [s != ""]. *)
Definition nonempty (s : string) : bool := negb (String.eqb s "").

Definition min (a b : Z) : Z := if a <? b then a else b.

Definition max (a b : Z) : Z := if a >? b then a else b.

(** The one-rune string the program appends when it cuts a string:
    U+2026, three bytes in UTF-8. *)
Definition ellipsis : string := "…".

Definition abbreviate (s : string) (max : Z) : string :=
  if (max <=? 1) || (len s <=? max) then s
  else slice_to s (max - 1) +:+ ellipsis.

(** [fmt.Sprintf("%d", n)] and [fmt.Sprintf("%t", b)]. *)
Definition fmt_d (n : Z) : string := NilEmpty.string_of_int (Z.to_int n).

Definition fmt_t (b : bool) : string := if b then "true" else "false".

Definition ghNotifyPerPageLimit : Z := 50.

Definition finalMsg : string := "All caught up!".

(* ===================================================================== *)
(** * Notification records and their JSON form *)
(* ===================================================================== *)

Record Owner := { Login : string }.

Record Repository := {
  FullName : string;
  RepoOwner : Owner;
  Name : string
}.

Record Subject := {
  Type_ : string;
  Title : string;
  URL : string;
  LatestCommentURL : string
}.

Record Notification := {
  ID : string;
  Unread : bool;
  UpdatedAt : string;
  LastReadAt : string;
  Repo : Repository;
  Reason : string;
  Subj : Subject
}.

(** A JSON document as [encoding/json] sees it, after parsing. *)
#[local] Unset Elimination Schemes.
Inductive json : Type :=
| JNull
| JBool (b : bool)
| JNumber (z : Z)
| JString (s : string)
| JArray (items : list json)
| JObject (fields : list (string * json)).
#[local] Set Elimination Schemes.

(** What [encoding/json] does for a Go type: [json.Marshal] may fail,
    [json.Unmarshal] fails on a document of the wrong shape. *)
Class JSON (A : Type) := {
  json_Marshal : A -> option json;
  json_Unmarshal : json -> option A
}.

(** ** Strings on their way out: [json.Marshal]

    The encoder copies a string rune by rune and writes U+FFFD for every
    byte that [utf8.DecodeRuneInString] does not accept as the start of
    a well-formed sequence. *)

Definition byte_at (s : string) (i : nat) : option Z :=
  (fun c => Z.of_nat (nat_of_ascii c)) <$> String.get i s.

Definition byte_within (lo hi : Z) (b : option Z) : bool :=
  match b with
  | Some x => (lo <=? x) && (x <=? hi)
  | None => false
  end.

(** The size [utf8.DecodeRuneInString] reports for the bytes [c] and
    [rest], 0 standing for [RuneError] with size 1: the tables [first]
    and [acceptRanges] of package [utf8], written out. *)
Definition rune_size (c : ascii) (rest : string) : nat :=
  let b0 := Z.of_nat (nat_of_ascii c) in
  let continues i := byte_within 128 191 (byte_at rest i) in
  if b0 <? 128 then 1
  else if (194 <=? b0) && (b0 <=? 223) then
    if continues 0%nat then 2 else 0
  else if b0 =? 224 then
    if byte_within 160 191 (byte_at rest 0) && continues 1%nat then 3 else 0
  else if ((225 <=? b0) && (b0 <=? 236)) || ((238 <=? b0) && (b0 <=? 239)) then
    if continues 0%nat && continues 1%nat then 3 else 0
  else if b0 =? 237 then
    if byte_within 128 159 (byte_at rest 0) && continues 1%nat then 3 else 0
  else if b0 =? 240 then
    if byte_within 144 191 (byte_at rest 0) && continues 1%nat && continues 2%nat
    then 4 else 0
  else if (241 <=? b0) && (b0 <=? 243) then
    if continues 0%nat && continues 1%nat && continues 2%nat then 4 else 0
  else if b0 =? 244 then
    if byte_within 128 143 (byte_at rest 0) && continues 1%nat && continues 2%nat
    then 4 else 0
  else 0.

(** U+FFFD in UTF-8. *)
Definition replacement : string :=
  String (ascii_of_nat 239) (String (ascii_of_nat 191) (String (ascii_of_nat 189) "")).

(** The string the encoder writes for [s], [pending] bytes of an
    accepted sequence being still to copy. *)
Fixpoint utf8_coerce_from (pending : nat) (s : string) : string :=
  match s with
  | EmptyString => EmptyString
  | String c rest =>
      match pending with
      | S p => String c (utf8_coerce_from p rest)
      | O =>
          match rune_size c rest with
          | O => replacement +:+ utf8_coerce_from 0 rest
          | S p => String c (utf8_coerce_from p rest)
          end
      end
  end.

Definition utf8_coerce (s : string) : string := utf8_coerce_from 0 s.

Definition marshal_string (s : string) : json := JString (utf8_coerce s).

Definition marshal_Notification (n : Notification) : json :=
  JObject [
    ("id", marshal_string (ID n));
    ("unread", JBool (Unread n));
    ("updated_at", marshal_string (UpdatedAt n));
    ("last_read_at", marshal_string (LastReadAt n));
    ("repository", JObject [
       ("full_name", marshal_string (FullName (Repo n)));
       ("owner", JObject [("login", marshal_string (Login (RepoOwner (Repo n))))]);
       ("name", marshal_string (Name (Repo n)))]);
    ("reason", marshal_string (Reason n));
    ("subject", JObject [
       ("type", marshal_string (Type_ (Subj n)));
       ("title", marshal_string (Title (Subj n)));
       ("url", marshal_string (URL (Subj n)));
       ("latest_comment_url", marshal_string (LatestCommentURL (Subj n)))])
  ].

(** ** Objects on their way in: [json.Unmarshal]

    The decoder takes the members of an object in the order of the
    document.  A member goes to the struct field whose name it has, the
    case of the letters set aside; a member that names no field is
    skipped.  A later member of the same name is decoded over what an
    earlier one left, and so is an object over the struct already
    there.  [null] leaves the field as it is; a value of another JSON
    type than the field's is an error. *)

Definition upper (c : ascii) : ascii :=
  let n := nat_of_ascii c in
  if (97 <=? n)%nat && (n <=? 122)%nat then ascii_of_nat (n - 32) else c.

Definition is_byte (c : ascii) (n : nat) : bool := Ascii.eqb c (ascii_of_nat n).

(** The folded form of a name: ASCII letters in upper case, and the
    two runes that fold to an ASCII letter, the long s (U+017F) and
    the Kelvin sign (U+212A), as [S] and [K]. *)
Fixpoint fold_name (s : string) : string :=
  match s with
  | EmptyString => EmptyString
  | String c rest =>
      match rest with
      | String d rest1 =>
          if is_byte c 197 && is_byte d 191 then String "S" (fold_name rest1)
          else
            match rest1 with
            | String e rest2 =>
                if is_byte c 226 && is_byte d 132 && is_byte e 170
                then String "K" (fold_name rest2)
                else String (upper c) (fold_name rest)
            | EmptyString => String (upper c) (fold_name rest)
            end
      | EmptyString => String (upper c) EmptyString
      end
  end.

Definition names (key field : string) : bool :=
  String.eqb (fold_name key) (fold_name field).

(** The members of an object decoded one after the other into [t]. *)
Fixpoint decode_members {T} (member : T -> string -> json -> option T)
  (t : T) (members : list (string * json)) : option T :=
  match members with
  | [] => Some t
  | (key, value) :: rest =>
      t' ← member t key value;
      decode_members member t' rest
  end.

Definition decode_string (old : string) (value : json) : option string :=
  match value with
  | JString s => Some s
  | JNull => Some old
  | _ => None
  end.

Definition decode_bool (old : bool) (value : json) : option bool :=
  match value with
  | JBool b => Some b
  | JNull => Some old
  | _ => None
  end.

(** A struct field: the members of an object go into the struct that
    is there. *)
Definition decode_struct {T} (member : T -> string -> json -> option T)
  (old : T) (value : json) : option T :=
  match value with
  | JObject members => decode_members member old members
  | JNull => Some old
  | _ => None
  end.

Definition member_Owner (o : Owner) (key : string) (value : json) : option Owner :=
  if names key "login" then
    login ← decode_string (Login o) value; Some {| Login := login |}
  else Some o.

Definition member_Repository (r : Repository) (key : string) (value : json)
  : option Repository :=
  if names key "full_name" then
    fullName ← decode_string (FullName r) value;
    Some {| FullName := fullName; RepoOwner := RepoOwner r; Name := Name r |}
  else if names key "owner" then
    owner ← decode_struct member_Owner (RepoOwner r) value;
    Some {| FullName := FullName r; RepoOwner := owner; Name := Name r |}
  else if names key "name" then
    name ← decode_string (Name r) value;
    Some {| FullName := FullName r; RepoOwner := RepoOwner r; Name := name |}
  else Some r.

Definition member_Subject (j : Subject) (key : string) (value : json)
  : option Subject :=
  if names key "type" then
    typ ← decode_string (Type_ j) value;
    Some {| Type_ := typ; Title := Title j; URL := URL j;
            LatestCommentURL := LatestCommentURL j |}
  else if names key "title" then
    title ← decode_string (Title j) value;
    Some {| Type_ := Type_ j; Title := title; URL := URL j;
            LatestCommentURL := LatestCommentURL j |}
  else if names key "url" then
    url ← decode_string (URL j) value;
    Some {| Type_ := Type_ j; Title := Title j; URL := url;
            LatestCommentURL := LatestCommentURL j |}
  else if names key "latest_comment_url" then
    latest ← decode_string (LatestCommentURL j) value;
    Some {| Type_ := Type_ j; Title := Title j; URL := URL j;
            LatestCommentURL := latest |}
  else Some j.

Definition member_Notification (n : Notification) (key : string) (value : json)
  : option Notification :=
  if names key "id" then
    id ← decode_string (ID n) value;
    Some {| ID := id; Unread := Unread n; UpdatedAt := UpdatedAt n;
            LastReadAt := LastReadAt n; Repo := Repo n; Reason := Reason n;
            Subj := Subj n |}
  else if names key "unread" then
    unread ← decode_bool (Unread n) value;
    Some {| ID := ID n; Unread := unread; UpdatedAt := UpdatedAt n;
            LastReadAt := LastReadAt n; Repo := Repo n; Reason := Reason n;
            Subj := Subj n |}
  else if names key "updated_at" then
    updated ← decode_string (UpdatedAt n) value;
    Some {| ID := ID n; Unread := Unread n; UpdatedAt := updated;
            LastReadAt := LastReadAt n; Repo := Repo n; Reason := Reason n;
            Subj := Subj n |}
  else if names key "last_read_at" then
    lastRead ← decode_string (LastReadAt n) value;
    Some {| ID := ID n; Unread := Unread n; UpdatedAt := UpdatedAt n;
            LastReadAt := lastRead; Repo := Repo n; Reason := Reason n;
            Subj := Subj n |}
  else if names key "repository" then
    repo ← decode_struct member_Repository (Repo n) value;
    Some {| ID := ID n; Unread := Unread n; UpdatedAt := UpdatedAt n;
            LastReadAt := LastReadAt n; Repo := repo; Reason := Reason n;
            Subj := Subj n |}
  else if names key "reason" then
    reason ← decode_string (Reason n) value;
    Some {| ID := ID n; Unread := Unread n; UpdatedAt := UpdatedAt n;
            LastReadAt := LastReadAt n; Repo := Repo n; Reason := reason;
            Subj := Subj n |}
  else if names key "subject" then
    subj ← decode_struct member_Subject (Subj n) value;
    Some {| ID := ID n; Unread := Unread n; UpdatedAt := UpdatedAt n;
            LastReadAt := LastReadAt n; Repo := Repo n; Reason := Reason n;
            Subj := subj |}
  else Some n.

(** The zero value of [Notification]. *)
Definition zero_Notification : Notification :=
  {| ID := ""; Unread := false; UpdatedAt := ""; LastReadAt := "";
     Repo := {| FullName := ""; RepoOwner := {| Login := "" |}; Name := "" |};
     Reason := "";
     Subj := {| Type_ := ""; Title := ""; URL := ""; LatestCommentURL := "" |} |}.

(** An element of the array, decoded into a new element of the slice. *)
Definition unmarshal_Notification (j : json) : option Notification :=
  decode_struct member_Notification zero_Notification j.

Fixpoint unmarshal_all (items : list json) : option (list Notification) :=
  match items with
  | [] => Some []
  | j :: rest =>
      n ← unmarshal_Notification j;
      ns ← unmarshal_all rest;
      Some (n :: ns)
  end.

(** [[]Notification], as [json.Unmarshal] fills a slice that holds
    nothing: a slice marshals to an array; an array or [null] unmarshals
    to a slice, and [None] stands for the error returned whenever some
    value had the wrong type. *)
#[export] Instance JSON_Notifications : JSON (list Notification) := {
  json_Marshal ns := Some (JArray (map marshal_Notification ns));
  json_Unmarshal j :=
    match j with
    | JArray items => unmarshal_all items
    | JNull => Some []
    | _ => None
    end
}.

(* ===================================================================== *)
(** * The process: configuration, surroundings, state *)
(* ===================================================================== *)

(** The package-level variables [initConfig] and the flag parser fill in
    before [Run] starts; they do not change afterwards. *)
Record Config := {
  cacheEnabled : bool;
  cacheDuration : Z;              (* a time.Duration: nanoseconds *)
  cacheDir : string;
  ghNotifyVerbose : bool;
  ghNotifyViewKey : string;
  ghNotifyTogglePreviewKey : string;
  ghNotifyToggleHelpKey : string
}.

(** A Go [error], by its text. *)
Definition error : Type := string.

(** A Go result pair [(value, err)]. *)
Inductive result (A : Type) : Type :=
| Ok (a : A)
| Err (e : error).
Arguments Ok {A} a.
Arguments Err {A} e.

(** What the program does not own: the wall clock, the [gh] binary, the
    REST client of [go-gh] with the remote API behind it, and the [time]
    package's parser and formatter. *)
Record Env := {
  clock : nat -> Z;               (* n-th reading of time.Now(), Unix ns *)
  gh_on_path : bool;              (* exec.LookPath("gh") finds it *)
  rest_client : option error;     (* api.NewRESTClient's error, if any *)
  remote_Get : Z -> bool -> bool -> result (list Notification);
                                  (* GET notifications?per_page=50&page=..
                                     &participating=..&all=.., decoded *)
  remote_Put : string -> option error;
                                  (* PUT of a path with no body: the error
                                     of client.Put, if any *)
  time_Parse : string -> option Z;     (* time.Parse(time.RFC3339, _) *)
  time_Format : string -> Z -> string  (* t.Format(layout) *)
}.

(** The two fields of the struct a cache file is decoded into:
    [Timestamp], an [int64], and [Data], a [json.RawMessage], absent
    when the file has no such member. *)
Record cacheEntry := {
  Timestamp : Z;
  Data : option json
}.

(** A file, by what [json.NewDecoder(f).Decode(&entry)] makes of its
    bytes: a decoding error, or the entry. *)
Inductive file : Type :=
| Undecodable (bytes : string)
| Encoded (entry : cacheEntry).

(** The diagnostics printed to standard error under [ghNotifyVerbose],
    by the call that prints them and the key or page it names. *)
Inductive diagnostic : Type :=
| LogCacheDisabledSkip (key : string)
| LogCacheMissNotFound (key : string)
| LogCacheMissDecode (key : string)
| LogCacheExpired (key : string)
| LogCacheHit (key : string)
| LogCacheDisabledStore (key : string)
| LogCacheMarshalError (key : string)
| LogCacheCreateError (key : string)
| LogCacheEncodeError (key : string)
| LogCacheStored (key : string)
| LogApiFromCache (pageNum : Z)
| LogApiFetching (pageNum : Z).

Inductive errline : Type :=
| ErrText (line : string)
| ErrDiag (d : diagnostic).

Inductive request : Type :=
| GET (pageNum : Z) (participating all : bool)
| PUT (path : string) (body : option string).

Record State := {
  fs : gmap string file;          (* the files, by path *)
  clock_reads : nat;              (* readings of the clock so far *)
  stdout : list string;
  stderr : list errline;
  requests : list request         (* calls made on the REST client *)
}.

Definition set_fs (f : gmap string file) (s : State) : State :=
  {| fs := f; clock_reads := clock_reads s; stdout := stdout s;
     stderr := stderr s; requests := requests s |}.

(** How a call ends: it returns, the process exits, or it panics.
    [Unfinished] is the fourth case of a loop given too few rounds to
    reach its end; the loops below are shown never to need it. *)
Inductive outcome (A : Type) : Type :=
| Ret (a : A)
| Exited (code : Z)
| Panicked (what : string)
| Unfinished.
Arguments Ret {A} a.
Arguments Exited {A} code.
Arguments Panicked {A} what.
Arguments Unfinished {A}.

#[export] Instance outcome_ret : MRet outcome := fun A a => Ret a.

#[export] Instance outcome_bind : MBind outcome := fun A B k m =>
  match m with
  | Ret a => k a
  | Exited code => Exited code
  | Panicked what => Panicked what
  | Unfinished => Unfinished
  end.

(** A Go function with effects on the process state. *)
Definition Go (A : Type) : Type := State -> outcome A * State.

#[export] Instance Go_ret : MRet Go := fun A a s => (Ret a, s).

#[export] Instance Go_bind : MBind Go := fun A B k m s =>
  match m s with
  | (Ret a, s') => k a s'
  | (Exited code, s') => (Exited code, s')
  | (Panicked what, s') => (Panicked what, s')
  | (Unfinished, s') => (Unfinished, s')
  end.

Definition os_Exit {A} (code : Z) : Go A := fun s => (Exited code, s).

Definition unfinished {A} : Go A := fun s => (Unfinished, s).

(** A pure computation that may panic, run inside a [Go] function. *)
Definition lift {A} (o : outcome A) : Go A := fun s => (o, s).

Definition print_stderr (l : errline) : Go unit := fun s =>
  (Ret tt, {| fs := fs s; clock_reads := clock_reads s; stdout := stdout s;
              stderr := stderr s ++ [l]; requests := requests s |}).

Definition print_stdout (line : string) : Go unit := fun s =>
  (Ret tt, {| fs := fs s; clock_reads := clock_reads s;
              stdout := stdout s ++ [line];
              stderr := stderr s; requests := requests s |}).

Definition record_request (r : request) : Go unit := fun s =>
  (Ret tt, {| fs := fs s; clock_reads := clock_reads s; stdout := stdout s;
              stderr := stderr s; requests := requests s ++ [r] |}).

(** [die]: one line on standard error, then exit status 1. *)
Definition die {A} (msg : string) : Go A :=
  print_stderr (ErrText ("ERROR: " +:+ msg));; os_Exit 1.

(** ** Files *)

(** [os.Open]: the file's content, or nothing when there is no file. *)
Definition os_Open (path : string) : Go (option file) := fun s =>
  (Ret (fs s !! path), s).

(** [os.Remove]: [false] stands for its error, when there is no file. *)
Definition os_Remove (path : string) : Go bool := fun s =>
  match fs s !! path with
  | Some _ => (Ret true, set_fs (delete path (fs s)) s)
  | None => (Ret false, s)
  end.

(** [os.Create]: an empty file at [path], replacing what was there.  The
    cache directory is the one [initConfig] made, so creating a file in
    it and writing to it do not fail. *)
Definition os_Create (path : string) : Go bool := fun s =>
  (Ret true, set_fs (<[path := Undecodable ""]> (fs s)) s).

(** [json.NewEncoder(f).Encode(entry)] on the file created at [path]. *)
Definition encode_to (path : string) (entry : cacheEntry) : Go bool := fun s =>
  (Ret true, set_fs (<[path := Encoded entry]> (fs s)) s).

(** [os.Rename]: the content moves to [newpath], replacing what was
    there, in one step. *)
Definition os_Rename (oldpath newpath : string) : Go bool := fun s =>
  match fs s !! oldpath with
  | Some content =>
      (Ret true, set_fs (<[newpath := content]> (delete oldpath (fs s))) s)
  | None => (Ret false, s)
  end.

(** ** Time *)

Definition second : Z := 1000000000.

Definition maxDuration : Z := 2 ^ 63 - 1.

Definition minDuration : Z := - 2 ^ 63.

(** The seconds from the year 1, where a [Time] counts from, to 1970. *)
Definition unixToInternal : Z := 62135596800.

(** An integer as an [int64] holds it. *)
Definition wrap64 (x : Z) : Z := (x + 2 ^ 63) mod 2 ^ 64 - 2 ^ 63.

(** [time.Unix(sec, 0)] as an instant, and [t.Unix()] of an instant.
    [time.Unix] adds [unixToInternal] to [sec] in an [int64]: a [sec]
    from [2^63 - unixToInternal] on wraps into the distant past. *)
Definition time_Unix (sec : Z) : Z :=
  (wrap64 (sec + unixToInternal) - unixToInternal) * second.

Definition Unix (t : Z) : Z := t / second.

(** [t.Sub(u)]: the difference as a [Duration], which stops at the
    largest and the smallest one. *)
Definition time_Sub (t u : Z) : Z :=
  if t - u >? maxDuration then maxDuration
  else if t - u <? minDuration then minDuration
  else t - u.

Section Program.

Context (cfg : Config) (env : Env).

Definition time_Now : Go Z := fun s =>
  (Ret (clock env (clock_reads s)),
   {| fs := fs s; clock_reads := S (clock_reads s); stdout := stdout s;
      stderr := stderr s; requests := requests s |}).

(** [time.Since(t)] is [time.Now().Sub(t)]. *)
Definition time_Since (t : Z) : Go Z :=
  now ← time_Now; mret (time_Sub now t).

(** [if ghNotifyVerbose { fmt.Fprintf(os.Stderr, ...) }]. *)
Definition verbose (d : diagnostic) : Go unit :=
  if ghNotifyVerbose cfg then print_stderr (ErrDiag d) else mret tt.

(* ===================================================================== *)
(** * The cache store *)
(* ===================================================================== *)

(** [filepath.Join(cacheDir, key+".json")], for a directory path and a
    key that are already clean and hold no separator to resolve. *)
Definition cachePath (key : string) : string :=
  cacheDir cfg +:+ "/" +:+ (key +:+ ".json").

(** [cacheGet(key, v)]: [Some x] when the call returns [true] with [x]
    stored through [v].  [cacheMutex] is held from the test of
    [cacheEnabled] to the return; one thread runs, so it never waits. *)
Definition cacheGet {A} `{JSON A} (key : string) : Go (option A) :=
  if negb (cacheEnabled cfg) then
    verbose (LogCacheDisabledSkip key);;
    mret None
  else
    let path := cachePath key in
    f ← os_Open path;
    match f with
    | None =>
        verbose (LogCacheMissNotFound key);;
        mret None
    | Some (Undecodable _) =>
        verbose (LogCacheMissDecode key);;
        mret None
    | Some (Encoded entry) =>
        age ← time_Since (time_Unix (Timestamp entry));
        if age >? cacheDuration cfg then
          os_Remove path;;
          verbose (LogCacheExpired key);;
          mret None
        else
          verbose (LogCacheHit key);;
          mret (data ← Data entry; json_Unmarshal data)
    end.

(** [cacheSet(key, v)]. *)
Definition cacheSet {A} `{JSON A} (key : string) (v : A) : Go unit :=
  if negb (cacheEnabled cfg) then
    verbose (LogCacheDisabledStore key);;
    mret tt
  else
    let path := cachePath key in
    match json_Marshal v with
    | None =>
        verbose (LogCacheMarshalError key);;
        mret tt
    | Some data =>
        now ← time_Now;
        let entry := {| Timestamp := Unix now; Data := Some data |} in
        let tmpPath := path +:+ ".tmp" in
        created ← os_Create tmpPath;
        if negb created then
          verbose (LogCacheCreateError key);;
          mret tt
        else
          encoded ← encode_to tmpPath entry;
          if negb encoded then
            os_Remove tmpPath;;
            verbose (LogCacheEncodeError key);;
            mret tt
          else
            os_Rename tmpPath path;;
            verbose (LogCacheStored key);;
            mret tt
    end.

(* ===================================================================== *)
(** * The notification fetcher *)
(* ===================================================================== *)

(** [len(l)] for a slice. *)
Definition llen {A} (l : list A) : Z := Z.of_nat (length l).

(** [l[:hi]]: panics unless [0 <= hi <= len(l)].  (Go allows [hi] up to
    the capacity; the program only cuts below the length.) *)
Definition slice_prefix {A} (l : list A) (hi : Z) : outcome (list A) :=
  if (0 <=? hi) && (hi <=? llen l) then Ret (take (Z.to_nat hi) l)
  else Panicked "slice bounds out of range".

(** [l[i]]: panics unless [0 <= i < len(l)]. *)
Definition index {A} (l : list A) (i : Z) : outcome A :=
  if 0 <=? i then
    match l !! Z.to_nat i with
    | Some x => Ret x
    | None => Panicked "index out of range"
    end
  else Panicked "index out of range".

Definition ghRestApiClient : Go unit :=
  match rest_client env with
  | Some err => die ("failed to create REST client: " +:+ err)
  | None => mret tt
  end.

(** [client.Get(endpoint, &notifs)], the endpoint being
    [notifications?per_page=50&page=..&participating=..&all=..]. *)
Definition client_Get (pageNum : Z) (onlyParticipating includeAll : bool)
  : Go (result (list Notification)) :=
  record_request (GET pageNum onlyParticipating includeAll);;
  mret (remote_Get env pageNum onlyParticipating includeAll).

(** [client.Put(path, nil, resp)].  The REST client's [Put] takes the
    path, the body to send and the value to decode the response into:
    the request goes out with no body. *)
Definition client_Put (path : string) : Go (option error) :=
  record_request (PUT path None);;
  mret (remote_Put env path).

(** [fmt.Sprintf("notifs_%d_%t_%t", pageNum, onlyParticipating, includeAll)]. *)
Definition cacheKey (pageNum : Z) (onlyParticipating includeAll : bool) : string :=
  "notifs_" +:+ fmt_d pageNum +:+ "_" +:+ fmt_t onlyParticipating
            +:+ "_" +:+ fmt_t includeAll.

(** [getNotifs] of the program with the cache.  [cacheGet] and
    [client.Get] decode into the one slice [notifs].  The slice holds
    nothing when [client.Get] is reached after a miss on which
    [json.Unmarshal] was not called (the cache off, no file, a file that
    does not decode, an expired entry) or stored nothing, and this is
    the call written here: [remote_Get] is the response decoded into
    an empty slice.  After an [Unmarshal] that fails part-way the
    records it had decoded are still in the slice when the response is
    decoded over them. *)
Definition getNotifs (pageNum : Z) (onlyParticipating includeAll : bool)
  : Go (result (list Notification)) :=
  let cacheKey := cacheKey pageNum onlyParticipating includeAll in
  cached ← cacheGet cacheKey;
  match cached with
  | Some notifs =>
      verbose (LogApiFromCache pageNum);;
      mret (Ok notifs)
  | None =>
      ghRestApiClient;;
      verbose (LogApiFetching pageNum);;
      r ← client_Get pageNum onlyParticipating includeAll;
      match r with
      | Err e => mret (Err e)
      | Ok notifs =>
          cacheSet cacheKey notifs;;
          mret (Ok notifs)
      end
  end.

(** [getNotifs] of [main.go], the program without the cache. *)
Definition getNotifs_direct (pageNum : Z) (onlyParticipating includeAll : bool)
  : Go (result (list Notification)) :=
  ghRestApiClient;;
  client_Get pageNum onlyParticipating includeAll.

(** The [range] loop of [getNotifications] over one page: the records
    that pass both tests are appended to [allNotifs], in order. *)
Fixpoint appendKept (exclusion filter : string)
  (notifs allNotifs : list Notification) : list Notification :=
  match notifs with
  | [] => allNotifs
  | n :: rest =>
      if nonempty exclusion && strings_Contains (Title (Subj n)) exclusion then
        appendKept exclusion filter rest allNotifs
      else if nonempty filter && negb (strings_Contains (Title (Subj n)) filter) then
        appendKept exclusion filter rest allNotifs
      else
        appendKept exclusion filter rest (allNotifs ++ [n])
  end.

(** How one round of the [for] loop ends: with [break], or at
    [pageNum++] with the new [fetchedCount] and [allNotifs]. *)
Inductive round_end : Type :=
| Break (allNotifs : list Notification)
| Next (fetchedCount : Z) (allNotifs : list Notification).

(** One round of the loop, from the page [getNotifs] returned without
    error to the test that ends the round. *)
Definition getNotifications_round (numNotifications : Z) (exclusion filter : string)
  (notifs : list Notification) (fetchedCount : Z) (allNotifs : list Notification)
  : outcome round_end :=
  if llen notifs =? 0 then mret (Break allNotifs)
  else
    let pageSize := min (numNotifications - fetchedCount) ghNotifyPerPageLimit in
    notifs ← (if pageSize <? llen notifs
              then slice_prefix notifs pageSize
              else mret notifs);
    let allNotifs := appendKept exclusion filter notifs allNotifs in
    let fetchedCount := fetchedCount + llen notifs in
    if (fetchedCount =? numNotifications)
       || (llen notifs <? ghNotifyPerPageLimit)
    then mret (Break allNotifs)
    else mret (Next fetchedCount allNotifs).

(** The [for] loop of [getNotifications], entered with the values its
    three variables have, for at most [fuel] rounds.  [fetch] is the
    [getNotifs] the program is built with. *)
Fixpoint getNotifications_loop
  (fetch : Z -> bool -> bool -> Go (result (list Notification)))
  (fuel : nat) (numNotifications : Z) (onlyParticipating includeAll : bool)
  (exclusion filter : string)
  (pageNum fetchedCount : Z) (allNotifs : list Notification)
  : Go (result (list Notification)) :=
  match fuel with
  | O => unfinished
  | S fuel' =>
      r ← fetch pageNum onlyParticipating includeAll;
      match r with
      | Err e => mret (Err e)
      | Ok notifs =>
          e ← lift (getNotifications_round numNotifications exclusion filter
                      notifs fetchedCount allNotifs);
          match e with
          | Break allNotifs => mret (Ok allNotifs)
          | Next fetchedCount allNotifs =>
              getNotifications_loop fetch fuel' numNotifications
                onlyParticipating includeAll exclusion filter
                (pageNum + 1) fetchedCount allNotifs
          end
      end
  end.

(** Rounds that always suffice: every round but the last adds a full
    page of 50 to [fetchedCount], which stays at most [numNotifications]. *)
Definition rounds (numNotifications : Z) : nat :=
  S (Z.to_nat (numNotifications / ghNotifyPerPageLimit)).

Definition getNotifications (numNotifications : Z)
  (onlyParticipating includeAll : bool) (exclusion filter : string)
  : Go (result (list Notification)) :=
  getNotifications_loop getNotifs (rounds numNotifications) numNotifications
    onlyParticipating includeAll exclusion filter 1 0 [].

(** [getNotifications] of [main.go]: the same loop over [getNotifs_direct]. *)
Definition getNotifications_direct (numNotifications : Z)
  (onlyParticipating includeAll : bool) (exclusion filter : string)
  : Go (result (list Notification)) :=
  getNotifications_loop getNotifs_direct (rounds numNotifications) numNotifications
    onlyParticipating includeAll exclusion filter 1 0 [].

(** [markAllRead(isoTime)].  The map it builds from [isoTime] is the
    third argument of [client.Put], where the response is decoded: it
    is not sent. *)
Definition markAllRead (isoTime : string) : Go (option error) :=
  ghRestApiClient;;
  client_Put "notifications".

(** ** Formatting helpers of the static listing *)

Definition RFC3339 : string := "2006-01-02T15:04:05Z07:00".

Definition shortDate (dt : string) : string :=
  match time_Parse env dt with
  | None => "2020"
  | Some t => time_Format env "2006-01" t
  end.

Definition isoTime : Go string :=
  now ← time_Now; mret (time_Format env RFC3339 now).

(** The text after the last ["/"] of [s], all of [s] when it has none:
    the last element of [strings.Split(s, "/")]. *)
Fixpoint last_segment (s acc : string) : string :=
  match s with
  | EmptyString => acc
  | String c rest =>
      if Ascii.eqb c "/" then last_segment rest ""
      else last_segment rest (acc +:+ String c "")
  end.

Definition lastPathComponent (url : string) : string :=
  if String.eqb url "" then "" else last_segment url "".

(* ===================================================================== *)
(** * The list navigation model *)
(* ===================================================================== *)

Record Model := {
  notifications : list Notification;
  cursor : Z;
  width : Z;
  height : Z;
  showPreview : bool;
  showHelp : bool
}.

Definition NewModel (notifs : list Notification) : Model :=
  {| notifications := notifs; cursor := 0; width := 0; height := 0;
     showPreview := false; showHelp := false |}.

(** The messages [Update] tells apart: a window size, a key by the
    text of [msg.String()], anything else. *)
Inductive Msg : Type :=
| WindowSizeMsg (Width Height : Z)
| KeyMsg (key : string)
| OtherMsg.

(** The command returned with the model: [nil] or [tea.Quit]. *)
Inductive Cmd : Type :=
| NoCmd
| Quit.

Definition Init (m : Model) : Cmd := NoCmd.

Definition set_cursor (c : Z) (m : Model) : Model :=
  {| notifications := notifications m; cursor := c; width := width m;
     height := height m; showPreview := showPreview m; showHelp := showHelp m |}.

Definition set_showPreview (b : bool) (m : Model) : Model :=
  {| notifications := notifications m; cursor := cursor m; width := width m;
     height := height m; showPreview := b; showHelp := showHelp m |}.

Definition set_showHelp (b : bool) (m : Model) : Model :=
  {| notifications := notifications m; cursor := cursor m; width := width m;
     height := height m; showPreview := showPreview m; showHelp := b |}.

(** [case k1, k2, ...:] of a switch on a string. *)
Definition is_case (key : string) (labels : list string) : bool :=
  existsb (String.eqb key) labels.

Definition Update (m : Model) (msg : Msg) : Model * Cmd :=
  match msg with
  | WindowSizeMsg w h =>
      ({| notifications := notifications m; cursor := cursor m; width := w;
          height := h; showPreview := showPreview m; showHelp := showHelp m |},
       NoCmd)
  | KeyMsg key =>
      if is_case key ["ctrl+c"; "esc"; "q"] then (m, Quit)
      else if is_case key ["up"; "k"] then
        (if cursor m >? 0 then set_cursor (cursor m - 1) m else m, NoCmd)
      else if is_case key ["down"; "j"] then
        (if cursor m <? llen (notifications m) - 1
         then set_cursor (cursor m + 1) m else m, NoCmd)
      else if is_case key ["tab"] then
        (set_showPreview (negb (showPreview m)) m, NoCmd)
      else if is_case key ["?"] then
        (set_showHelp (negb (showHelp m)) m, NoCmd)
      else if is_case key ["enter"] then
        (set_showPreview true m, NoCmd)
      else (m, NoCmd)
  | OtherMsg => (m, NoCmd)
  end.

(** ** Rendering *)

(** The three styles a row is rendered in. *)
Inductive Style : Type :=
| selectedStyle
| unreadStyle
| readStyle.

(** One row of the list, by the arguments of its [Sprintf]. *)
Record Row := {
  row_marker : string;            (* the cursor arrow or two blanks *)
  row_number : Z;                 (* i+1 *)
  row_repo : string;
  row_type : string;
  row_reason : string;
  row_title : string;
  row_state : string;
  row_style : Style
}.

(** What [View] writes, piece by piece: the column widths of the header
    block, the rows, the preview of the record under the cursor, and,
    with the help shown, the help text and the number of lines the
    frame is cut or padded to before it. *)
Record Frame := {
  frame_idxWidth : Z;
  frame_titleWidth : Z;
  frame_rows : list Row;
  frame_preview : option Notification;
  frame_help : option (string * Z)
}.

Definition repoWidth : Z := 22.
Definition typeWidth : Z := 12.
Definition reasonWidth : Z := 24.
Definition stateWidth : Z := 7.

(** The header block has two lines. *)
Definition headerLines : Z := 2.

(** [start] and [end] of the rows [View] shows. *)
Definition View_window (m : Model) : Z * Z :=
  let entriesHeight := height m - headerLines - 1 in
  let start := 0 in
  let end_ := llen (notifications m) in
  if (entriesHeight >? 0) && (end_ >? entriesHeight) then
    if cursor m <? entriesHeight / 2 then
      (0, entriesHeight)
    else if cursor m >? end_ - entriesHeight / 2 then
      (end_ - entriesHeight, end_)
    else
      let start := cursor m - entriesHeight / 2 in
      (start, start + entriesHeight)
  else (start, end_).

(** The body of the row loop at index [i]. *)
Definition View_row (m : Model) (titleWidth : Z) (i : Z) : outcome Row :=
  n ← index (notifications m) i;
  mret {| row_marker := if cursor m =? i then "▶ " else "  ";
          row_number := i + 1;
          row_repo := abbreviate (FullName (Repo n)) repoWidth;
          row_type := abbreviate (Type_ (Subj n)) typeWidth;
          row_reason := abbreviate (Reason n) reasonWidth;
          row_title := abbreviate (Title (Subj n)) titleWidth;
          row_state := if Unread n then "UNREAD" else "READ";
          row_style := if cursor m =? i then selectedStyle
                       else if Unread n then unreadStyle else readStyle |}.

(** [for i := start; i < end; i++ { ... }]. *)
Fixpoint View_rows (m : Model) (titleWidth : Z) (indices : list Z)
  : outcome (list Row) :=
  match indices with
  | [] => mret []
  | i :: rest =>
      r ← View_row m titleWidth i;
      rs ← View_rows m titleWidth rest;
      mret (r :: rs)
  end.

Definition View (m : Model) : outcome Frame :=
  let maxIdx := llen (notifications m) in
  let idxDigits := len (fmt_d maxIdx) in
  let idxWidth := idxDigits + 2 in
  let titleWidth :=
    max (width m - idxWidth - repoWidth - typeWidth - reasonWidth - stateWidth - 10) 8 in
  let '(start, end_) := View_window m in
  rows ← View_rows m titleWidth (seqZ start (end_ - start));
  preview ← (if showPreview m && (llen (notifications m) >? 0)
             then n ← index (notifications m) (cursor m); mret (Some n)
             else mret None);
  help ← (if showHelp m then
            let help := "↑/↓: Move  " +:+ ghNotifyViewKey cfg +:+ "/"
                        +:+ ghNotifyTogglePreviewKey cfg +:+ ": Preview  "
                        +:+ ghNotifyToggleHelpKey cfg
                        +:+ ": Toggle Help  q/esc: Quit" in
            (* lines[:m.height-1], taken when len(lines) > m.height-1;
               the frame has at least one line *)
            if height m - 1 <? 0 then Panicked "slice bounds out of range"
            else mret (Some (help, height m - 1))
          else mret None);
  mret {| frame_idxWidth := idxWidth; frame_titleWidth := titleWidth;
          frame_rows := rows; frame_preview := preview; frame_help := help |}.

(* ===================================================================== *)
(** * The command *)
(* ===================================================================== *)

Record Flags := {
  exclusion : string;
  filter : string;
  updateSubscriptionURL : string;
  numNotifications : Z;
  onlyParticipating : bool;
  includeAll : bool;
  printStatic : bool;
  markRead : bool
}.

Definition conflictMsg : string :=
  "Can't mark all notifications as read when either the '--exclude' or '--filter' flag was used, as it would also mark notifications as read that are filtered out.".

Definition tab : string := String (ascii_of_nat 9) "".

(** One line of the static listing, without its newline. *)
Definition staticRow (n : Notification) : Go string :=
  now ← isoTime;
  mret (shortDate (UpdatedAt n) +:+ tab +:+ now +:+ tab +:+ ID n +:+ tab
        +:+ (if Unread n then "UNREAD" else "READ") +:+ tab
        +:+ lastPathComponent (LatestCommentURL (Subj n)) +:+ tab
        +:+ FullName (Repo n) +:+ tab
        +:+ (if Unread n then "●" else " ") +:+ tab
        +:+ abbreviate (Login (RepoOwner (Repo n))) 10 +:+ "/"
        +:+ abbreviate (Name (Repo n)) 13 +:+ tab
        +:+ Type_ (Subj n) +:+ tab +:+ URL (Subj n) +:+ tab
        +:+ Reason n +:+ tab +:+ Title (Subj n)).

Fixpoint printRows (notifs : list Notification) : Go unit :=
  match notifs with
  | [] => mret tt
  | n :: rest =>
      row ← staticRow n;
      print_stdout row;;
      printRows rest
  end.

(** The [Run] function of the root command, with the flags parsed.  It
    returns the model the Bubble Tea program is started with; every other
    way out is an exit. *)
Definition Run (flags : Flags) : Go Model :=
  (if negb (gh_on_path env) then die "install 'gh'" else mret tt);;
  (if markRead flags then
     (if nonempty (exclusion flags) || nonempty (filter flags)
      then die conflictMsg else mret tt);;
     now ← isoTime;
     err ← markAllRead now;
     (match err with
      | Some _ => die "Failed to mark notifications as read."
      | None => mret tt
      end);;
     print_stdout "All notifications have been marked as read.";;
     os_Exit 0
   else mret tt);;
  r ← getNotifications (numNotifications flags) (onlyParticipating flags)
        (includeAll flags) (exclusion flags) (filter flags);
  notifs ← (match r with
            | Err e => die e
            | Ok notifs => mret notifs
            end);
  (if llen notifs =? 0 then print_stdout finalMsg;; os_Exit 0 else mret tt);;
  (if printStatic flags then printRows notifs;; os_Exit 0 else mret tt);;
  mret (NewModel notifs).

End Program.

(* ===================================================================== *)
(** * Terms of the specification *)
(* ===================================================================== *)

(** A payload is JSON-serializable when it marshals, and what it
    marshals to unmarshals to it. *)
Definition serializable {A} `{JSON A} (v : A) : Prop :=
  exists data, json_Marshal v = Some data /\ json_Unmarshal data = Some v.

(** Text that is well-formed UTF-8, which the encoder writes as it is:
    the strings of a record that came out of a JSON document are. *)
Definition valid_utf8 (s : string) : Prop := utf8_coerce s = s.

Definition well_formed_text (n : Notification) : Prop :=
  Forall valid_utf8
    [ID n; UpdatedAt n; LastReadAt n;
     FullName (Repo n); Login (RepoOwner (Repo n)); Name (Repo n);
     Reason n;
     Type_ (Subj n); Title (Subj n); URL (Subj n); LatestCommentURL (Subj n)].

(** The cache has nothing to decode for [key]: there is no file, or a
    file that does not decode, or an entry older than the cache
    duration at the next reading of the clock.  On these misses
    [cacheGet] returns before it calls [json.Unmarshal]. *)
Definition no_usable_entry (cfg : Config) (env : Env) (key : string) (s : State)
  : Prop :=
  match fs s !! cachePath cfg key with
  | None | Some (Undecodable _) => True
  | Some (Encoded entry) =>
      time_Sub (clock env (clock_reads s)) (time_Unix (Timestamp entry))
      > cacheDuration cfg
  end.

(** A remote feed served in pages of the per-page limit: page [pageNum]
    (from 1) is the next 50 records of the feed, fewer at its end, none
    beyond it. *)
Definition page_of (feed : list Notification) (pageNum : Z) : list Notification :=
  take (Z.to_nat ghNotifyPerPageLimit)
       (drop (Z.to_nat (ghNotifyPerPageLimit * (pageNum - 1))) feed).

Definition serves (env : Env) (feed : list Notification)
  (onlyParticipating includeAll : bool) : Prop :=
  rest_client env = None /\
  forall pageNum, 1 <= pageNum ->
    remote_Get env pageNum onlyParticipating includeAll = Ok (page_of feed pageNum).

(** No page of the listing can be answered from the cache: the cache is
    off, or holds no file for any page. *)
Definition cache_bypassed (cfg : Config) (s : State)
  (onlyParticipating includeAll : bool) : Prop :=
  cacheEnabled cfg = false \/
  forall pageNum,
    fs s !! cachePath cfg (cacheKey pageNum onlyParticipating includeAll) = None.

(** The number of page requests the specification gives for a feed of
    [total] records and a limit of [maxCount]: the pages that hold the
    records returned, and one more request, answered by an empty page,
    when the feed ends on a page boundary before the limit. *)
Definition probe (maxCount total : Z) : Z :=
  if (total <? maxCount) && (total mod ghNotifyPerPageLimit =? 0) then 1 else 0.

Definition page_requests (maxCount total : Z) : Z :=
  (Z.min maxCount total + (ghNotifyPerPageLimit - 1)) / ghNotifyPerPageLimit
  + probe maxCount total.

(** The filter rule: a record is dropped when the exclude pattern is
    not empty and its title contains it; of the others, a record is
    kept when the include pattern is empty or its title contains it. *)
Definition kept (excludePattern includePattern : string) (n : Notification) : bool :=
  if nonempty excludePattern && strings_Contains (Title (Subj n)) excludePattern
  then false
  else String.eqb includePattern "" || strings_Contains (Title (Subj n)) includePattern.

(** The scroll policy: the first window while the cursor is in its
    first half, the last window when the cursor is within half a window
    of the end, the window around the cursor otherwise. *)
Definition scroll_policy (c L h : Z) : Z * Z :=
  if c <? h / 2 then (0, h)
  else if c >? L - h / 2 then (L - h, L)
  else (c - h / 2, c - h / 2 + h).

(** The viewport height of a model: the terminal height less the two
    header lines and one more. *)
Definition viewportHeight (m : Model) : Z := height m - headerLines - 1.

(** A navigation state: the cursor is an index into the list. *)
Definition navigation_state (m : Model) : Prop :=
  0 <= cursor m < llen (notifications m).

(** The models of a session: [Run] starts the program on a list that is
    not empty, and every message goes through [Update]. *)
Inductive session_model : Model -> Prop :=
| session_start notifs :
    notifs <> [] -> session_model (NewModel notifs)
| session_update m msg :
    session_model m -> session_model (fst (Update m msg)).

(** An outcome other than a panic or a loop cut short. *)
Definition returns_or_exits {A} (o : outcome A) : Prop :=
  match o with
  | Ret _ | Exited _ => True
  | Panicked _ | Unfinished => False
  end.

(** The outcome and result with a function applied to the value. *)
Definition map_result {A B} (f : A -> B) (r : result A) : result B :=
  match r with
  | Ok a => Ok (f a)
  | Err e => Err e
  end.

Definition map_outcome {A B} (f : A -> B) (o : outcome A) : outcome B :=
  match o with
  | Ret a => Ret (f a)
  | Exited code => Exited code
  | Panicked what => Panicked what
  | Unfinished => Unfinished
  end.

(** [round_end] with a function applied to the list. *)
Definition map_round (f : list Notification -> list Notification) (e : round_end)
  : round_end :=
  match e with
  | Break allNotifs => Break (f allNotifs)
  | Next fetchedCount allNotifs => Next fetchedCount (f allNotifs)
  end.

(** ** Sample data *)

Definition sample (id title : string) : Notification :=
  {| ID := id; Unread := true;
     UpdatedAt := "2025-07-01T10:00:00Z"; LastReadAt := "";
     Repo := {| FullName := "octo/repo";
                RepoOwner := {| Login := "octo" |}; Name := "repo" |};
     Reason := "mention";
     Subj := {| Type_ := "Issue"; Title := title;
                URL := "https://api.github.com/repos/octo/repo/issues/1";
                LatestCommentURL := "" |} |}.

Definition sample_titles : list Notification :=
  [sample "1" "Fix bug"; sample "2" "Add feature"; sample "3" "Bugfix release"].

Definition sample_cfg (enabled : bool) : Config :=
  {| cacheEnabled := enabled; cacheDuration := 300 * second;
     cacheDir := "/home/u/.cache/gh-notify"; ghNotifyVerbose := false;
     ghNotifyViewKey := "enter"; ghNotifyTogglePreviewKey := "tab";
     ghNotifyToggleHelpKey := "?" |}.

(** Surroundings with [gh] installed or not, a remote that serves
    [feed], and a clock that starts at second 1000 and advances one
    second a reading. *)
Definition sample_env (gh : bool) (feed : list Notification) : Env :=
  {| clock := fun n => (1000 + Z.of_nat n) * second;
     gh_on_path := gh; rest_client := None;
     remote_Get := fun pageNum _ _ => Ok (page_of feed pageNum);
     remote_Put := fun _ => None;
     time_Parse := fun _ => None;
     time_Format := fun layout _ => layout |}.

(** A remote that answers every page with 30 records while the feed
    lasts, though 50 are asked for. *)
Definition short_pages_env (feed : list Notification) : Env :=
  {| clock := fun n => (1000 + Z.of_nat n) * second;
     gh_on_path := true; rest_client := None;
     remote_Get := fun pageNum _ _ =>
       Ok (take 30 (drop (Z.to_nat (30 * (pageNum - 1))) feed));
     remote_Put := fun _ => None;
     time_Parse := fun _ => None;
     time_Format := fun layout _ => layout |}.

(** A cache that keeps entries for half a second, and a clock that
    starts 0.9 s into second 1000 and advances one microsecond a reading. *)
Definition subsecond_cfg : Config :=
  {| cacheEnabled := true; cacheDuration := 500000000;
     cacheDir := "/home/u/.cache/gh-notify"; ghNotifyVerbose := false;
     ghNotifyViewKey := "enter"; ghNotifyTogglePreviewKey := "tab";
     ghNotifyToggleHelpKey := "?" |}.

Definition microsecond_env : Env :=
  {| clock := fun n => 1000 * second + 900000000 + 1000 * Z.of_nat n;
     gh_on_path := true; rest_client := None;
     remote_Get := fun _ _ _ => Ok [];
     remote_Put := fun _ => None;
     time_Parse := fun _ => None;
     time_Format := fun layout _ => layout |}.

Definition empty_state : State :=
  {| fs := ∅; clock_reads := 0; stdout := []; stderr := []; requests := [] |}.

Definition sample_model (len cursor height : Z) : Model :=
  {| notifications := replicate (Z.to_nat len) (sample "1" "title");
     cursor := cursor; width := 80; height := height;
     showPreview := false; showHelp := false |}.

Definition sample_flags (exclude : string) (mark : bool) : Flags :=
  {| exclusion := exclude; filter := ""; updateSubscriptionURL := "";
     numNotifications := ghNotifyPerPageLimit; onlyParticipating := false;
     includeAll := false; printStatic := false; markRead := mark |}.

(* ===================================================================== *)
(** * The earlier stages of the program *)
(* ===================================================================== *)

(** [strings.Split(s, sep)] for a separator of one byte: the pieces of
    [s] between the separators, [acc] being the piece read so far. *)
Fixpoint split_from (sep : ascii) (s acc : string) : list string :=
  match s with
  | EmptyString => [acc]
  | String c rest =>
      if Ascii.eqb c sep then acc :: split_from sep rest ""
      else split_from sep rest (acc +:+ String c "")
  end.

Definition strings_Split (s : string) (sep : ascii) : list string :=
  split_from sep s "".

(** The value of a decimal digit. *)
Definition digit (c : ascii) : option Z :=
  let n := Z.of_nat (nat_of_ascii c) in
  if (48 <=? n) && (n <=? 57) then Some (n - 48) else None.

Fixpoint digits_value (s : string) (acc : Z) : option Z :=
  match s with
  | EmptyString => Some acc
  | String c rest =>
      match digit c with
      | Some d => digits_value rest (10 * acc + d)
      | None => None
      end
  end.

Definition maxInt : Z := 2 ^ 63 - 1.

Definition minInt : Z := - 2 ^ 63.

(** [strconv.Atoi(s)]: the value and whether the error is [nil].  A
    string that is not an optional sign and digits gives 0 and an error;
    a number out of range gives the nearest [int] and an error. *)
Definition strconv_Atoi (s : string) : Z * bool :=
  let '(negative, body) :=
    match s with
    | String c rest =>
        if Ascii.eqb c "-" then (true, rest)
        else if Ascii.eqb c "+" then (false, rest)
        else (false, s)
    | EmptyString => (false, s)
    end in
  match body with
  | EmptyString => (0, false)
  | _ =>
      match digits_value body 0 with
      | None => (0, false)
      | Some v =>
          let n := if negative : bool then - v else v in
          if n >? maxInt then (maxInt, false)
          else if n <? minInt then (minInt, false)
          else (n, true)
      end
  end.

(** [getOrDefault(parts, idx, def)]. *)
Definition getOrDefault (parts : list string) (idx : Z) (def : string)
  : outcome string :=
  if idx <? llen parts then index parts idx else mret def.

Definition newline : string := String (ascii_of_nat 10) "".

(** [abbreviate] of that stage, which cuts every string longer than
    [max] and does not test the limit: the cut [s[:max-1]] panics when
    [max] is below 1. *)
Definition abbreviate_early (s : string) (max : Z) : outcome string :=
  if len s >? max then
    if 0 <=? max - 1 then Ret (slice_to s (max - 1) +:+ ellipsis)
    else Panicked "slice bounds out of range"
  else Ret s.

Section EarlierProgram.

Context (cfg : Config) (env : Env).

(** Outside the program: what [exec.Command(tool, "--version").Output()]
    returns, and what [re.FindString] finds in it for the pattern of a
    dotted number. *)
Context (command_Output : string -> result string).
Context (version_FindString : string -> string).

(** The [for i := range threshParts] loop of [checkVersion], over the
    indices still to visit. *)
Fixpoint checkVersion_loop (tool threshold userVersion : string)
  (verParts threshParts : list string) (indices : list Z) : Go unit :=
  match indices with
  | [] => mret tt
  | i :: rest =>
      userPart ← lift (getOrDefault verParts i "0");
      threshPart ← lift (getOrDefault threshParts i "0");
      let user := fst (strconv_Atoi userPart) in
      let thresh := fst (strconv_Atoi threshPart) in
      if user <? thresh then
        die ("Your '" +:+ tool +:+ "' version '" +:+ userVersion
             +:+ "' is insufficient. The minimum required version is '"
             +:+ threshold +:+ "'.")
      else if user >? thresh then mret tt
      else checkVersion_loop tool threshold userVersion verParts threshParts rest
  end.

Definition checkVersion (tool threshold : string) : Go unit :=
  match command_Output tool with
  | Err _ =>
      die ("Your '" +:+ tool
           +:+ "' version is insufficient. The minimum required version is '"
           +:+ threshold +:+ "'.")
  | Ok out =>
      let userVersion := version_FindString out in
      let verParts := strings_Split userVersion "." in
      let threshParts := strings_Split threshold "." in
      checkVersion_loop tool threshold userVersion verParts threshParts
        (seqZ 0 (llen threshParts))
  end.

(** The [for] loop of [printNotifs], the fetcher of the stage before
    the Bubble Tea model: the loop of [getNotifications] without the
    tests on the title, over the [getNotifs] that has no cache. *)
Fixpoint printNotifs_loop (fuel : nat) (numNotifications : Z)
  (onlyParticipating includeAll : bool)
  (pageNum fetchedCount : Z) (allNotifs : list Notification)
  : Go (result (list Notification)) :=
  match fuel with
  | O => unfinished
  | S fuel' =>
      r ← getNotifs_direct env pageNum onlyParticipating includeAll;
      match r with
      | Err e => mret (Err e)
      | Ok notifs =>
          if llen notifs =? 0 then mret (Ok allNotifs)
          else
            let pageSize := min (numNotifications - fetchedCount) ghNotifyPerPageLimit in
            notifs ← (if pageSize <? llen notifs
                      then lift (slice_prefix notifs pageSize)
                      else mret notifs);
            let allNotifs := allNotifs ++ notifs in
            let fetchedCount := fetchedCount + llen notifs in
            if (fetchedCount =? numNotifications)
               || (llen notifs <? ghNotifyPerPageLimit)
            then mret (Ok allNotifs)
            else printNotifs_loop fuel' numNotifications onlyParticipating includeAll
                   (pageNum + 1) fetchedCount allNotifs
      end
  end.

(** The line [printNotifs] writes for a record, without its newline. *)
Definition staticRow_early (n : Notification) : Go string :=
  let updatedShort := shortDate env (UpdatedAt n) in
  iso8601 ← isoTime env;
  ownerAbbr ← lift (abbreviate_early (Login (RepoOwner (Repo n))) 10);
  nameAbbr ← lift (abbreviate_early (Name (Repo n)) 13);
  mret (updatedShort +:+ tab +:+ iso8601 +:+ tab +:+ ID n +:+ tab
        +:+ (if Unread n then "UNREAD" else "READ") +:+ tab
        +:+ lastPathComponent (LatestCommentURL (Subj n)) +:+ tab
        +:+ FullName (Repo n) +:+ tab
        +:+ (if Unread n then "●" else " ") +:+ tab
        +:+ ownerAbbr +:+ "/" +:+ nameAbbr +:+ tab
        +:+ Type_ (Subj n) +:+ tab +:+ URL (Subj n) +:+ tab
        +:+ Reason n +:+ tab +:+ Title (Subj n)).

(** The second loop of [printNotifs]: a line in the buffer for every
    record that passes the tests on its title. *)
Fixpoint printNotifs_lines (exclusion filter : string)
  (allNotifs : list Notification) (buf : string) : Go string :=
  match allNotifs with
  | [] => mret buf
  | n :: rest =>
      if nonempty exclusion && strings_Contains (Title (Subj n)) exclusion then
        printNotifs_lines exclusion filter rest buf
      else if nonempty filter && negb (strings_Contains (Title (Subj n)) filter) then
        printNotifs_lines exclusion filter rest buf
      else
        row ← staticRow_early n;
        printNotifs_lines exclusion filter rest (buf +:+ row +:+ newline)
  end.

Definition printNotifs (numNotifications : Z)
  (onlyParticipating includeAll : bool) (exclusion filter : string)
  : Go (result string) :=
  r ← printNotifs_loop (rounds numNotifications) numNotifications
        onlyParticipating includeAll 1 0 [];
  match r with
  | Err e => mret (Err e)
  | Ok allNotifs =>
      buf ← printNotifs_lines exclusion filter allNotifs "";
      mret (Ok buf)
  end.

End EarlierProgram.

(** ** The view of [main.go], which shows every row *)

(** What that [View] writes: the blanks before the last column of the
    header, the width of the title column, the rows, the preview and
    the help text. *)
Record PlainFrame := {
  plain_padding : Z;
  plain_titleWidth : Z;
  plain_rows : list Row;
  plain_preview : option Notification;
  plain_help : option string
}.

(** [for i, n := range m.notifications { ... }], from index [i] on. *)
Fixpoint View_plain_rows (m : Model) (i : Z) (notifs : list Notification)
  : list Row :=
  match notifs with
  | [] => []
  | n :: rest =>
      {| row_marker := if cursor m =? i then "▶ " else "  ";
         row_number := i + 1;
         row_repo := abbreviate (FullName (Repo n)) 22;
         row_type := abbreviate (Type_ (Subj n)) 12;
         row_reason := abbreviate (Reason n) 12;
         row_title := abbreviate (Title (Subj n)) (max (width m - 70) 8);
         row_state := if Unread n then "UNREAD" else "READ";
         row_style := if cursor m =? i then selectedStyle
                      else if Unread n then unreadStyle else readStyle |}
      :: View_plain_rows m (i + 1) rest
  end.

Definition View_plain (m : Model) : outcome PlainFrame :=
  let rows := View_plain_rows m 0 (notifications m) in
  preview ← (if showPreview m && (llen (notifications m) >? 0)
             then n ← index (notifications m) (cursor m); mret (Some n)
             else mret None);
  mret {| plain_padding := max (width m - 70) 0;
          plain_titleWidth := max (width m - 70) 8;
          plain_rows := rows;
          plain_preview := preview;
          plain_help :=
            if showHelp m
            then Some "↑/↓: Move  Enter/Tab: Preview  ?: Toggle Help  q/esc: Quit"
            else None |}.

(** ** Terms of the further properties *)

(** The number a version string has at place [i]: the part there, 0
    where the string has no such part or the part is no number. *)
Definition version_number (parts : list string) (i : Z) : Z :=
  match getOrDefault parts i "0" with
  | Ret part => fst (strconv_Atoi part)
  | _ => 0
  end.

(** [user] is below [thresh] in the order of versions, compared on the
    places [indices]: at the first place where they differ, the number
    of [user] is the smaller. *)
Fixpoint version_below (user thresh : list string) (indices : list Z) : bool :=
  match indices with
  | [] => false
  | i :: rest =>
      if version_number user i <? version_number thresh i then true
      else if version_number user i >? version_number thresh i then false
      else version_below user thresh rest
  end.

(** The row [View] writes for the record [n] at index [i]. *)
Definition row_of (m : Model) (titleWidth : Z) (i : Z) (n : Notification) : Row :=
  {| row_marker := if cursor m =? i then "▶ " else "  ";
     row_number := i + 1;
     row_repo := abbreviate (FullName (Repo n)) repoWidth;
     row_type := abbreviate (Type_ (Subj n)) typeWidth;
     row_reason := abbreviate (Reason n) reasonWidth;
     row_title := abbreviate (Title (Subj n)) titleWidth;
     row_state := if Unread n then "UNREAD" else "READ";
     row_style := if cursor m =? i then selectedStyle
                  else if Unread n then unreadStyle else readStyle |}.

(** The position at which the window of [View] runs past the list. *)
Definition past_the_list (m : Model) : Prop :=
  let h := viewportHeight m in
  let L := llen (notifications m) in
  3 <= h < L /\ h mod 2 = 1 /\ cursor m = L - h / 2.

(** The line of the static listing for the record [n], [iso] being
    the time [isoTime] returns for it. *)
Definition static_line (env : Env) (n : Notification) (iso : string) : string :=
  shortDate env (UpdatedAt n) +:+ tab +:+ iso +:+ tab +:+ ID n +:+ tab
  +:+ (if Unread n then "UNREAD" else "READ") +:+ tab
  +:+ lastPathComponent (LatestCommentURL (Subj n)) +:+ tab
  +:+ FullName (Repo n) +:+ tab
  +:+ (if Unread n then "●" else " ") +:+ tab
  +:+ abbreviate (Login (RepoOwner (Repo n))) 10 +:+ "/"
  +:+ abbreviate (Name (Repo n)) 13 +:+ tab
  +:+ Type_ (Subj n) +:+ tab +:+ URL (Subj n) +:+ tab
  +:+ Reason n +:+ tab +:+ Title (Subj n).

(** The lines for a list of records, the first taking the clock reading
    number [reads], each the reading after that of the one before. *)
Fixpoint static_lines (env : Env) (notifs : list Notification) (reads : nat)
  : list string :=
  match notifs with
  | [] => []
  | n :: rest =>
      static_line env n (time_Format env RFC3339 (clock env reads))
      :: static_lines env rest (S reads)
  end.

(* ===================================================================== *)
(** * Properties: abbreviation *)
(* ===================================================================== *)

Ltac go_unfold :=
  unfold mbind, mret, Go_bind, Go_ret, outcome_bind, outcome_ret, lift in *.

(** Closed comparisons and equations between integers, by evaluation. *)
Ltac evaluate :=
  vm_compute; repeat split; solve [reflexivity | discriminate | intro; discriminate].

Lemma string_take_drop (n : nat) (s : string) :
  string_take n s +:+ string_drop n s = s.
Proof.
  revert s. induction n as [|n IH]; intros [|c rest]; try reflexivity.
  change (String c (string_take n rest +:+ string_drop n rest) = String c rest).
  f_equal. apply IH.
Qed.

Lemma string_take_length (n : nat) (s : string) :
  (n <= String.length s)%nat -> String.length (string_take n s) = n.
Proof.
  revert s. induction n as [|n IH]; intros [|c rest] Hn; cbn in *; try lia.
  rewrite IH; lia.
Qed.

Lemma ellipsis_utf8 :
  ellipsis = String (ascii_of_nat 226) (String (ascii_of_nat 128)
                                          (String (ascii_of_nat 166) "")).
Proof. reflexivity. Qed.

(** The cut [s[:max-1]] is taken only where it is in range. *)
Lemma abbreviate_slice_in_range (s : string) (max : Z) :
  (max <=? 1) || (len s <=? max) = false -> 0 <= max - 1 <= len s.
Proof.
  intros H. apply orb_false_iff in H as [H1 H2].
  apply Z.leb_gt in H1, H2. lia.
Qed.




(* ===================================================================== *)
(** * Properties: the navigation model *)
(* ===================================================================== *)

Lemma llen_nonneg {A} (l : list A) : 0 <= llen l.
Proof. unfold llen. lia. Qed.

Lemma Update_notifications (m : Model) (msg : Msg) :
  notifications (fst (Update m msg)) = notifications m.
Proof.
  unfold Update. destruct msg as [w h|key|]; try reflexivity.
  repeat match goal with
         | |- context [if ?b then _ else _] => destruct b
         end; reflexivity.
Qed.

Lemma Update_navigation_state (m : Model) (msg : Msg) :
  navigation_state m -> navigation_state (fst (Update m msg)).
Proof.
  unfold navigation_state. intros Hm.
  rewrite Update_notifications.
  unfold Update. destruct msg as [w h|key|]; try exact Hm.
  repeat match goal with
         | |- context [if is_case ?k ?l then _ else _] => destruct (is_case k l)
         end; try exact Hm.
  - destruct (Z.gtb_spec (cursor m) 0); cbn; lia.
  - destruct (Z.ltb_spec (cursor m) (llen (notifications m) - 1)); cbn; lia.
Qed.

(** Every model of a session is a navigation state. *)
Lemma session_model_navigation_state (m : Model) :
  session_model m -> navigation_state m.
Proof.
  induction 1 as [notifs Hne | m msg _ IH].
  - unfold navigation_state, llen. cbn. destruct notifs; [congruence | cbn; lia].
  - now apply Update_navigation_state.
Qed.

(** C6: in a navigation state, the keys that move up set the cursor to
    [max(cursor-1, 0)] and the keys that move down set it to
    [min(cursor+1, length-1)]; from 0 of 5, up leaves the cursor at 0,
    and from 4 of 5, down leaves it at 4. *)
Theorem Update_cursor_clamped (m : Model) (key : string) :
  navigation_state m ->
  (key = "up" \/ key = "k" ->
   cursor (fst (Update m (KeyMsg key))) = Z.max (cursor m - 1) 0)
  /\ (key = "down" \/ key = "j" ->
      cursor (fst (Update m (KeyMsg key)))
      = Z.min (cursor m + 1) (llen (notifications m) - 1))
  /\ cursor (fst (Update (sample_model 5 0 24) (KeyMsg "up"))) = 0
  /\ cursor (fst (Update (sample_model 5 4 24) (KeyMsg "down"))) = 4.
Proof.
  unfold navigation_state. intros Hm. repeat split.
  - intros [-> | ->]; cbn;
      destruct (Z.gtb_spec (cursor m) 0); unfold set_cursor; cbn [cursor]; lia.
  - intros [-> | ->]; cbn;
      destruct (Z.ltb_spec (cursor m) (llen (notifications m) - 1));
      unfold set_cursor; cbn [cursor]; lia.
Qed.

(** The two moves in a list of five, from the middle and from the end. *)
Lemma Update_cursor_clamped_witness :
  cursor (fst (Update (sample_model 5 2 24) (KeyMsg "k"))) = Z.max (2 - 1) 0
  /\ cursor (fst (Update (sample_model 5 4 24) (KeyMsg "j"))) = Z.min (4 + 1) (5 - 1).
Proof.
  assert (H2 : navigation_state (sample_model 5 2 24))
    by evaluate.
  assert (H4 : navigation_state (sample_model 5 4 24))
    by evaluate.
  destruct (Update_cursor_clamped (sample_model 5 2 24) "k" H2) as (Hup & _).
  destruct (Update_cursor_clamped (sample_model 5 4 24) "j" H4) as (_ & Hdown & _).
  split.
  - apply Hup. right. reflexivity.
  - apply Hdown. right. reflexivity.
Defined.

(* ===================================================================== *)
(** * Properties: the rows [View] shows *)
(* ===================================================================== *)

(** The window of [View] depends on the cursor, the length of the list
    and the viewport height alone: the whole list unless the viewport has
    a positive height below the length, the scroll policy then.  ([/]
    rounds down where Go's rounds to zero; the two agree on the positive
    heights that reach the division.) *)
Lemma View_window_cases (m : Model) :
  View_window m =
  if (viewportHeight m >? 0) && (llen (notifications m) >? viewportHeight m)
  then scroll_policy (cursor m) (llen (notifications m)) (viewportHeight m)
  else (0, llen (notifications m)).
Proof. reflexivity. Qed.

(** C5, as stated, fails for a viewport height of 0 (a terminal of three
    lines): the list is longer than the viewport, the policy gives the
    empty window at the cursor, and [View] shows the whole list. *)
Lemma View_window_zero_height_counterexample :
  let m := sample_model 2 0 3 in
  navigation_state m
  /\ viewportHeight m = 0
  /\ llen (notifications m) > viewportHeight m
  /\ scroll_policy (cursor m) (llen (notifications m)) (viewportHeight m) = (0, 0)
  /\ View_window m = (0, 2)
  /\ View_window m
     <> scroll_policy (cursor m) (llen (notifications m)) (viewportHeight m).
Proof.
  cbv zeta. unfold navigation_state.
  repeat split; try reflexivity; discriminate.
Qed.

(** C5, amended: in a navigation state with a viewport height [h] such
    that [0 < h < L], and the cursor not at [L - h/2] for an odd [h] (the
    position at which the row loop runs past the list, see
    [View_window_bounds] below), the window of [View] is the scroll
    policy at [(c, L, h)]: [[0, h)] when [c < h/2], [[L-h, L)] when
    [c > L - h/2], [[c - h/2, c - h/2 + h)] otherwise; it lies within the
    list and the cursor lies inside it.  With a height that is not
    positive, or not below the length, the window is the whole list. *)
Theorem View_window_policy (m : Model) :
  navigation_state m ->
  let h := viewportHeight m in
  let L := llen (notifications m) in
  let c := cursor m in
  (0 < h < L ->
   ~ (h mod 2 = 1 /\ c = L - h / 2) ->
   View_window m = scroll_policy c L h
   /\ 0 <= fst (View_window m) <= c
   /\ c < snd (View_window m) <= L)
  /\ (~ 0 < h < L -> View_window m = (0, L)).
Proof.
  intros Hm h L c. unfold navigation_state in Hm. rewrite View_window_cases.
  fold h L c in Hm |- *. split.
  - intros [Hh HL] Hslip.
    destruct (Z.gtb_spec h 0); [| lia].
    destruct (Z.gtb_spec L h); [| lia]. cbn [andb].
    split; [reflexivity |]. unfold scroll_policy.
    pose proof (Z.div_mod h 2 ltac:(lia)) as Hdm.
    pose proof (Z.mod_pos_bound h 2 ltac:(lia)) as Hmod.
    destruct (Z.ltb_spec c (h / 2)); [cbn; lia |].
    destruct (Z.gtb_spec c (L - h / 2)); cbn; lia.
  - intros Hout.
    destruct (Z.gtb_spec h 0); cbn [andb]; [| reflexivity].
    destruct (Z.gtb_spec L h); [lia | reflexivity].
Qed.

(** Ten records in a viewport of four rows, and two records in a
    terminal of three lines. *)
Lemma View_window_policy_witness :
  View_window (sample_model 10 5 7) = scroll_policy 5 10 4
  /\ View_window (sample_model 10 5 7) = (3, 7)
  /\ View_window (sample_model 2 0 3) = (0, 2).
Proof.
  assert (Hnav : navigation_state (sample_model 10 5 7)) by evaluate.
  assert (Hnav' : navigation_state (sample_model 2 0 3)) by evaluate.
  destruct (View_window_policy (sample_model 10 5 7) Hnav) as (Hpol & _).
  destruct (View_window_policy (sample_model 2 0 3) Hnav') as (_ & Hall).
  assert (Hh : 0 < viewportHeight (sample_model 10 5 7)
               < llen (notifications (sample_model 10 5 7))) by evaluate.
  assert (Hslip : ~ (viewportHeight (sample_model 10 5 7) mod 2 = 1
                     /\ cursor (sample_model 10 5 7)
                        = llen (notifications (sample_model 10 5 7))
                          - viewportHeight (sample_model 10 5 7) / 2))
    by (intros [Hodd _]; discriminate Hodd).
  assert (Hzero : ~ 0 < viewportHeight (sample_model 2 0 3)
                    < llen (notifications (sample_model 2 0 3)))
    by (intros [Hpos _]; discriminate Hpos).
  split; [exact (proj1 (Hpol Hh Hslip)) | split; [| exact (Hall Hzero)]].
  rewrite (proj1 (Hpol Hh Hslip)). reflexivity.
Defined.

(** Where the window of a navigation state leaves the list: it never
    starts below 0, and it ends past the last record exactly when the
    viewport height is odd, at least 3, below the length, and the cursor
    is at [L - h/2], the last position that still takes the centred
    window. *)
Lemma View_window_bounds (m : Model) :
  navigation_state m ->
  let h := viewportHeight m in
  let L := llen (notifications m) in
  0 <= fst (View_window m)
  /\ (snd (View_window m) > L
      <-> (3 <= h < L /\ h mod 2 = 1 /\ cursor m = L - h / 2)).
Proof.
  unfold navigation_state. intros Hm. rewrite View_window_cases.
  set (h := viewportHeight m). set (L := llen (notifications m)) in *.
  set (c := cursor m) in *. cbv zeta.
  destruct (Z.gtb_spec h 0); cbn [andb]; [| cbn; lia].
  destruct (Z.gtb_spec L h); [| cbn; lia].
  unfold scroll_policy.
  pose proof (Z.div_mod h 2 ltac:(lia)) as Hdm.
  pose proof (Z.mod_pos_bound h 2 ltac:(lia)) as Hmod.
  destruct (Z.ltb_spec c (h / 2)); [cbn; lia |].
  destruct (Z.gtb_spec c (L - h / 2)); cbn; lia.
Qed.

(** C9 fails on the code.  With four records, the cursor on the last
    one and a terminal of six lines (a viewport of three), a model a
    session reaches by a window size and three moves down, the window is
    [[2, 5)]: the row loop reads index 4 of a list of length 4, and
    [View] panics. *)
Theorem View_reads_past_the_list :
  let m := sample_model 4 3 6 in
  m = foldl (fun m msg => fst (Update m msg))
        (NewModel (replicate 4 (sample "1" "title")))
        [WindowSizeMsg 80 6; KeyMsg "down"; KeyMsg "down"; KeyMsg "down"]
  /\ navigation_state m
  /\ llen (notifications m) = 4
  /\ viewportHeight m = 3
  /\ View_window m = (2, 5)
  /\ index (notifications m) 4 = Panicked "index out of range"
  /\ forall cfg, View cfg m = Panicked "index out of range".
Proof.
  cbv zeta. unfold navigation_state.
  repeat split; try reflexivity; discriminate.
Qed.

(* ===================================================================== *)
(** * Properties: the mark-all-read flag with a pattern *)
(* ===================================================================== *)

Lemma nonempty_true (s : string) : nonempty s = true <-> s <> "".
Proof.
  unfold nonempty. rewrite negb_true_iff. apply String.eqb_neq.
Qed.

(** C8, as stated, fails when [gh] is not installed: with the
    mark-all-read flag and an exclude pattern, the line on standard
    error is the one of the missing dependency, not the conflict
    message. *)
Lemma Run_conflict_without_gh_counterexample :
  let flags := sample_flags "x" true in
  let end_ := Run (sample_cfg true) (sample_env false []) flags empty_state in
  markRead flags = true
  /\ exclusion flags <> ""
  /\ fst end_ = Exited 1
  /\ stderr (snd end_) = [ErrText "ERROR: install 'gh'"]
  /\ stderr (snd end_) <> [ErrText ("ERROR: " +:+ conflictMsg)].
Proof. cbv zeta. repeat split; try reflexivity; discriminate. Qed.

(** C8, amended: with the mark-all-read flag and a non-empty exclude or
    include pattern, [Run] exits with status 1 having written one line to
    standard error and nothing else, and makes no call on the REST
    client, neither the PUT nor a page fetch.  The line is the conflict
    message when [gh] is installed (the missing-dependency message is
    written otherwise). *)
Theorem Run_mark_read_conflict (cfg : Config) (env : Env) (flags : Flags) (s : State) :
  markRead flags = true ->
  exclusion flags <> "" \/ filter flags <> "" ->
  let end_ := Run cfg env flags s in
  fst end_ = Exited 1
  /\ requests (snd end_) = requests s
  /\ stdout (snd end_) = stdout s
  /\ fs (snd end_) = fs s
  /\ (gh_on_path env = true ->
      stderr (snd end_) = stderr s ++ [ErrText ("ERROR: " +:+ conflictMsg)])
  /\ (gh_on_path env = false ->
      stderr (snd end_) = stderr s ++ [ErrText "ERROR: install 'gh'"]).
Proof.
  intros Hmark Hpat.
  assert (Hor : nonempty (exclusion flags) || nonempty (filter flags) = true).
  { apply orb_true_iff. destruct Hpat as [H | H]; [left | right];
      now apply nonempty_true. }
  unfold Run. rewrite Hmark, Hor.
  destruct (gh_on_path env); cbn; repeat split; intros; congruence.
Qed.

(** The flags [--mark-read --exclude Bug] with [gh] installed. *)
Lemma Run_mark_read_conflict_witness :
  let end_ := Run (sample_cfg true) (sample_env true sample_titles)
                  (sample_flags "Bug" true) empty_state in
  fst end_ = Exited 1
  /\ requests (snd end_) = []
  /\ stderr (snd end_) = [ErrText ("ERROR: " +:+ conflictMsg)].
Proof.
  assert (Hmark : markRead (sample_flags "Bug" true) = true) by reflexivity.
  assert (Hpat : exclusion (sample_flags "Bug" true) <> ""
                 \/ filter (sample_flags "Bug" true) <> "")
    by (left; discriminate).
  destruct (Run_mark_read_conflict (sample_cfg true) (sample_env true sample_titles)
              (sample_flags "Bug" true) empty_state Hmark Hpat)
    as (Hexit & Hreq & _ & _ & Hmsg & _).
  split; [exact Hexit | split; [exact Hreq | apply Hmsg; reflexivity]].
Defined.

(* ===================================================================== *)
(** * Properties: the cache store *)
(* ===================================================================== *)

(** A difference that fits a [Duration] is returned as it is. *)
Lemma time_Sub_exact (t u : Z) :
  minDuration <= t - u <= maxDuration -> time_Sub t u = t - u.
Proof.
  intros [Hlo Hhi]. unfold time_Sub.
  destruct (Z.gtb_spec (t - u) maxDuration); [lia |].
  destruct (Z.ltb_spec (t - u) minDuration); [lia | reflexivity].
Qed.

Lemma wrap64_exact (x : Z) : - 2 ^ 63 <= x < 2 ^ 63 -> wrap64 x = x.
Proof.
  intros Hx. unfold wrap64. rewrite Z.mod_small by lia. lia.
Qed.

(** [time.Unix] of seconds that do not wrap. *)
Lemma time_Unix_exact (sec : Z) :
  - 2 ^ 63 <= sec + unixToInternal < 2 ^ 63 -> time_Unix sec = sec * second.
Proof.
  intros Hsec. unfold time_Unix. rewrite wrap64_exact by exact Hsec. lia.
Qed.

(** The second of a clock reading that [UnixNano] can hold does not
    wrap. *)
Lemma time_Unix_of_reading (written : Z) :
  minDuration <= written <= maxDuration ->
  time_Unix (Unix written) = written / second * second.
Proof.
  intros Hrange. apply time_Unix_exact.
  unfold Unix, unixToInternal, minDuration, maxDuration, second in *.
  assert (- 2 ^ 63 <= written / 1000000000)
    by (apply Z.div_le_lower_bound; lia).
  assert (written / 1000000000 <= 2 ^ 63 - 1)
    by (apply Z.div_le_upper_bound; nia).
  assert (written / 1000000000 <= 9223372037)
    by (apply Z.div_le_upper_bound; lia).
  lia.
Qed.

(** The timestamp of an entry is the second of the instant it was
    written at, so the age measured at a later instant is less than
    the time elapsed and a second, and, short of the longest duration,
    not less than the time elapsed. *)
Lemma age_of_written_entry (written now : Z) :
  minDuration <= written <= maxDuration ->
  written <= now ->
  time_Sub now (time_Unix (Unix written)) < now - written + second
  /\ (now - written + second <= maxDuration ->
      now - written <= time_Sub now (time_Unix (Unix written))).
Proof.
  intros Hrange Hle. rewrite (time_Unix_of_reading written Hrange).
  assert (Hsec : 0 < second) by reflexivity.
  pose proof (Z.div_mod written second ltac:(lia)) as Hdm.
  pose proof (Z.mod_pos_bound written second Hsec) as Hmod.
  assert (Hmin : minDuration < 0) by reflexivity.
  assert (Hmax : 0 < maxDuration) by reflexivity.
  split.
  - unfold time_Sub.
    destruct (Z.gtb_spec (now - written / second * second) maxDuration); [lia |].
    destruct (Z.ltb_spec (now - written / second * second) minDuration); lia.
  - intros Hfit. rewrite time_Sub_exact; lia.
Qed.

(** A slice of notifications whose text is well-formed is
    JSON-serializable. *)
Lemma unmarshal_marshal_Notification (n : Notification) :
  well_formed_text n ->
  unmarshal_Notification (marshal_Notification n) = Some n.
Proof.
  destruct n as [id unread updated lastRead [fullName [login] name] reason
                   [typ title url latest]].
  unfold well_formed_text, valid_utf8. cbn [ID UpdatedAt LastReadAt Repo FullName
    RepoOwner Login Name Reason Subj Type_ Title URL LatestCommentURL].
  intros Htext.
  repeat match goal with
         | H : Forall _ (_ :: _) |- _ => apply Forall_cons in H as [? H]
         end.
  unfold marshal_Notification, marshal_string.
  cbn [ID Unread UpdatedAt LastReadAt Repo FullName RepoOwner Login Name Reason
       Subj Type_ Title URL LatestCommentURL].
  repeat match goal with
         | H : utf8_coerce ?x = ?x |- _ => rewrite H; clear H
         end.
  reflexivity.
Qed.

Lemma Notifications_serializable (ns : list Notification) :
  Forall well_formed_text ns -> serializable ns.
Proof.
  intros Htext.
  exists (JArray (map marshal_Notification ns)). split; [reflexivity |].
  cbn. induction Htext as [| n ns Hn _ IH]; [reflexivity |].
  cbn [map unmarshal_all]. rewrite (unmarshal_marshal_Notification n Hn), IH.
  reflexivity.
Qed.

(** The sample records are plain ASCII. *)
Lemma sample_titles_serializable : serializable sample_titles.
Proof. eexists. split; reflexivity. Qed.

Section CacheFacts.

Context (cfg : Config) (env : Env).

(** With the cache off, [cacheGet] misses and touches nothing but the
    diagnostics. *)
Lemma cacheGet_disabled {A} `{JSON A} (key : string) (s : State) :
  cacheEnabled cfg = false ->
  exists s', cacheGet (A := A) cfg env key s = (Ret None, s')
             /\ fs s' = fs s /\ requests s' = requests s
             /\ stdout s' = stdout s /\ clock_reads s' = clock_reads s.
Proof.
  intros Hoff. unfold cacheGet, verbose. rewrite Hoff. cbn [negb].
  destruct (ghNotifyVerbose cfg); eexists; split; try reflexivity; cbn; auto.
Qed.

(** With no file for the key, [cacheGet] misses likewise. *)
Lemma cacheGet_no_file {A} `{JSON A} (key : string) (s : State) :
  fs s !! cachePath cfg key = None ->
  exists s', cacheGet (A := A) cfg env key s = (Ret None, s')
             /\ fs s' = fs s /\ requests s' = requests s
             /\ stdout s' = stdout s /\ clock_reads s' = clock_reads s.
Proof.
  intros Hnone. unfold cacheGet, verbose.
  destruct (cacheEnabled cfg); cbn [negb]; cbv zeta; go_unfold;
    unfold os_Open; try rewrite Hnone;
    destruct (ghNotifyVerbose cfg); eexists; split; try reflexivity; cbn; auto.
Qed.

(** [cacheGet] on a file that holds an entry, with the cache on: the
    age of the entry, as [time.Since] gives it at the next reading of the
    clock, decides. *)
Lemma cacheGet_entry {A} `{JSON A} (key : string) (s : State) (entry : cacheEntry) :
  cacheEnabled cfg = true ->
  fs s !! cachePath cfg key = Some (Encoded entry) ->
  let age := time_Sub (clock env (clock_reads s)) (time_Unix (Timestamp entry)) in
  (age <= cacheDuration cfg ->
   fst (cacheGet (A := A) cfg env key s) = Ret (Data entry ≫= json_Unmarshal)
   /\ fs (snd (cacheGet (A := A) cfg env key s)) = fs s)
  /\ (age > cacheDuration cfg ->
      fst (cacheGet (A := A) cfg env key s) = Ret None
      /\ fs (snd (cacheGet (A := A) cfg env key s))
         = delete (cachePath cfg key) (fs s)).
Proof.
  intros Hon Hfile age.
  unfold cacheGet, verbose. rewrite Hon. cbn [negb]. cbv zeta.
  go_unfold. unfold os_Open, time_Since, time_Now, os_Remove. go_unfold.
  rewrite Hfile. cbn. fold age.
  destruct (Z.gtb_spec age (cacheDuration cfg)) as [Hgt | Hle].
  - cbn. rewrite Hfile.
    destruct (ghNotifyVerbose cfg); cbn; (split; [lia | intros _; split; reflexivity]).
  - destruct (ghNotifyVerbose cfg); cbn; (split; [intros _; split; reflexivity | lia]).
Qed.

(** [cacheSet] with the cache on and a payload that marshals: the file
    of the key holds the payload under the second of the clock reading,
    and the temporary file is gone. *)
Lemma cacheSet_enabled {A} `{JSON A} (key : string) (v : A) (data : json) (s : State) :
  cacheEnabled cfg = true ->
  json_Marshal v = Some data ->
  exists s',
    cacheSet cfg env key v s = (Ret tt, s')
    /\ fs s' = <[cachePath cfg key :=
                   Encoded {| Timestamp := Unix (clock env (clock_reads s));
                              Data := Some data |}]>
                 (delete (cachePath cfg key +:+ ".tmp") (fs s))
    /\ clock_reads s' = S (clock_reads s)
    /\ requests s' = requests s
    /\ stdout s' = stdout s.
Proof.
  intros Hon Hdata. unfold cacheSet, verbose. rewrite Hon, Hdata. cbn [negb].
  cbv zeta. go_unfold.
  unfold time_Now, os_Create, encode_to, os_Rename. cbn.
  rewrite lookup_insert_eq.
  destruct (ghNotifyVerbose cfg); cbn; eexists; (split; [reflexivity |]); cbn;
    rewrite !delete_insert_eq; auto.
Qed.

(** With the cache off, [cacheSet] stores nothing. *)
Lemma cacheSet_disabled {A} `{JSON A} (key : string) (v : A) (s : State) :
  cacheEnabled cfg = false ->
  exists s', cacheSet cfg env key v s = (Ret tt, s')
             /\ fs s' = fs s /\ requests s' = requests s
             /\ stdout s' = stdout s.
Proof.
  intros Hoff. unfold cacheSet, verbose. rewrite Hoff. cbn [negb].
  destruct (ghNotifyVerbose cfg); eexists; split; try reflexivity; cbn; auto.
Qed.

End CacheFacts.

(** C1, as stated, fails with the cache off: the key holds a well-formed
    entry younger than the cache duration, and [cacheGet] reports a
    miss. *)
Lemma cacheGet_disabled_counterexample :
  let cfg := sample_cfg false in
  let env := sample_env true [] in
  let data := JArray (map marshal_Notification sample_titles) in
  let entry := {| Timestamp := 1000; Data := Some data |} in
  let s := set_fs {[ cachePath cfg "notifs_1_false_false" := Encoded entry ]}
                  empty_state in
  fs s !! cachePath cfg "notifs_1_false_false" = Some (Encoded entry)
  /\ json_Unmarshal data = Some sample_titles
  /\ time_Sub (clock env (clock_reads s)) (time_Unix 1000) <= cacheDuration cfg
  /\ fst (cacheGet (A := list Notification) cfg env "notifs_1_false_false" s)
     = Ret None
  /\ fst (cacheGet (A := list Notification) cfg env "notifs_1_false_false" s)
     <> Ret (Some sample_titles).
Proof.
  cbv zeta. split; [| split; [| split; [| split]]].
  - vm_compute. reflexivity.
  - reflexivity.
  - evaluate.
  - reflexivity.
  - discriminate.
Qed.

(** Seconds that [time.Unix] wraps: the instant lies 2^64 seconds
    earlier. *)
Lemma time_Unix_wraps (sec : Z) :
  2 ^ 63 - unixToInternal <= sec < 2 ^ 63 ->
  time_Unix sec = (sec - 2 ^ 64) * second.
Proof.
  intros Hsec. unfold time_Unix, wrap64.
  assert (Hmod : (sec + unixToInternal + 2 ^ 63) mod 2 ^ 64
                 = sec + unixToInternal + 2 ^ 63 - 2 ^ 64).
  { symmetry. apply (Z.mod_unique _ _ 1); unfold unixToInternal in *; lia. }
  rewrite Hmod. lia.
Qed.

(** An entry stamped with such a second is as old as a duration can
    say, and expired for every shorter cache duration: [cacheGet]
    misses and removes it. *)
Lemma cacheGet_wrapped_stamp (cfg : Config) (env : Env) (key : string) (s : State)
  (sec : Z) (data : option json) :
  cacheEnabled cfg = true ->
  fs s !! cachePath cfg key = Some (Encoded {| Timestamp := sec; Data := data |}) ->
  2 ^ 63 - unixToInternal <= sec < 2 ^ 63 ->
  minDuration <= clock env (clock_reads s) ->
  cacheDuration cfg < maxDuration ->
  let got := cacheGet (A := list Notification) cfg env key s in
  fst got = Ret None /\ fs (snd got) = delete (cachePath cfg key) (fs s).
Proof.
  intros Hon Hfile Hsec Hnow Hshort.
  destruct (cacheGet_entry cfg env (A := list Notification) key s _ Hon Hfile)
    as [_ Hexpired].
  apply Hexpired. cbn [Timestamp]. rewrite (time_Unix_wraps sec Hsec).
  unfold time_Sub, minDuration, maxDuration, second, unixToInternal in *.
  destruct (Z.gtb_spec (clock env (clock_reads s) - (sec - 2 ^ 64) * 1000000000)
              (2 ^ 63 - 1)); lia.
Qed.

(** C1, amended: with the cache enabled, for a key whose file holds a
    well-formed entry stored at [storedAt] (its data unmarshal to [v]),
    where [age] is the time since [storedAt] as [time.Since] measures it:
    [cacheGet] returns [v] iff [age <= cacheDuration], leaving the file in
    place; when [age > cacheDuration] it returns a miss and the file of
    the key is removed. *)
Theorem cacheGet_ttl {A} `{JSON A} (cfg : Config) (env : Env)
  (key : string) (s : State) (storedAt : Z) (data : json) (v : A) :
  cacheEnabled cfg = true ->
  fs s !! cachePath cfg key
  = Some (Encoded {| Timestamp := storedAt; Data := Some data |}) ->
  json_Unmarshal data = Some v ->
  let age := time_Sub (clock env (clock_reads s)) (time_Unix storedAt) in
  let got := cacheGet (A := A) cfg env key s in
  (fst got = Ret (Some v) <-> age <= cacheDuration cfg)
  /\ (age <= cacheDuration cfg -> fs (snd got) = fs s)
  /\ (age > cacheDuration cfg ->
      fst got = Ret None
      /\ fs (snd got) = delete (cachePath cfg key) (fs s)
      /\ fs (snd got) !! cachePath cfg key = None).
Proof.
  intros Hon Hfile Hdata age got.
  destruct (cacheGet_entry (A := A) cfg env key s _ Hon Hfile) as [Hhit Hmiss].
  cbn [Timestamp Data] in Hhit, Hmiss. fold age in Hhit, Hmiss.
  fold got in Hhit, Hmiss.
  split; [split |split].
  - intros Hgot. destruct (Z.le_gt_cases age (cacheDuration cfg)) as [Hle | Hgt];
      [exact Hle |].
    destruct Hmiss as [Hnone _]; [lia |]. congruence.
  - intros Hle. destruct (Hhit Hle) as [Hgot _]. rewrite Hgot. cbn.
    now rewrite Hdata.
  - intros Hle. now destruct (Hhit Hle).
  - intros Hgt. destruct (Hmiss Hgt) as [Hnone Hfs].
    repeat split; [exact Hnone | exact Hfs |].
    rewrite Hfs. apply lookup_delete_eq.
Qed.

(** An entry stored at the second of the read, and one stored 400
    seconds before it, under a cache duration of 300 seconds. *)
Lemma cacheGet_ttl_witness :
  let cfg := sample_cfg true in
  let env := sample_env true [] in
  let key := "notifs_1_false_false" in
  let data := JArray (map marshal_Notification sample_titles) in
  let fresh := set_fs {[ cachePath cfg key :=
                           Encoded {| Timestamp := 1000; Data := Some data |} ]}
                      empty_state in
  let stale := set_fs {[ cachePath cfg key :=
                           Encoded {| Timestamp := 600; Data := Some data |} ]}
                      empty_state in
  fst (cacheGet (A := list Notification) cfg env key fresh) = Ret (Some sample_titles)
  /\ fst (cacheGet (A := list Notification) cfg env key stale) = Ret None
  /\ fs (snd (cacheGet (A := list Notification) cfg env key stale))
     !! cachePath cfg key = None.
Proof.
  intros cfg env key data fresh stale.
  assert (Hon : cacheEnabled cfg = true) by reflexivity.
  assert (Hdata : json_Unmarshal data = Some sample_titles) by reflexivity.
  assert (Hfresh : fs fresh !! cachePath cfg key
                   = Some (Encoded {| Timestamp := 1000; Data := Some data |}))
    by (vm_compute; reflexivity).
  assert (Hstale : fs stale !! cachePath cfg key
                   = Some (Encoded {| Timestamp := 600; Data := Some data |}))
    by (vm_compute; reflexivity).
  destruct (cacheGet_ttl cfg env key fresh 1000 data sample_titles Hon Hfresh Hdata)
    as (Hhit & _ & _).
  destruct (cacheGet_ttl cfg env key stale 600 data sample_titles Hon Hstale Hdata)
    as (_ & _ & Hmiss).
  split; [| split].
  - apply Hhit. evaluate.
  - apply Hmiss. evaluate.
  - apply Hmiss. evaluate.
Defined.

(** C4, as stated, fails when the cache duration is under a second:
    the entry is stamped with the whole second of the write, so a read
    one microsecond after a write made 0.9 s into a second finds an
    entry 0.900001 s old, past a duration of half a second, and
    misses. *)
Lemma cacheSet_cacheGet_subsecond_counterexample :
  let cfg := subsecond_cfg in
  let env := microsecond_env in
  let key := "notifs_1_false_false" in
  let s' := snd (cacheSet cfg env key sample_titles empty_state) in
  serializable sample_titles
  /\ cacheEnabled cfg = true
  /\ clock env (clock_reads s') - clock env (clock_reads empty_state) = 1000
  /\ clock env (clock_reads s') - clock env (clock_reads empty_state)
     <= cacheDuration cfg
  /\ fst (cacheGet (A := list Notification) cfg env key s') = Ret None
  /\ fst (cacheGet (A := list Notification) cfg env key s')
     <> Ret (Some sample_titles).
Proof.
  cbv zeta. split; [apply sample_titles_serializable |].
  split; [reflexivity |]. split; [reflexivity |]. split; [evaluate |].
  split; [reflexivity | discriminate].
Qed.

(** C4, amended: with the cache enabled and a JSON-serializable payload
    [v], [cacheSet key v] followed by [cacheGet key] returns [v] exactly
    when the age of the entry at the read is within the cache duration,
    and otherwise misses and removes the file.  The age is measured, as
    [time.Since] measures it, from the whole second of the clock
    reading [cacheSet] takes to the next reading, which the read
    takes: it is less than the time elapsed between the two and a
    second, and not less than the time elapsed; so the payload comes
    back whenever the time elapsed and one second are within the
    duration. *)
Theorem cacheSet_cacheGet_round_trip {A} `{JSON A} (cfg : Config) (env : Env)
  (key : string) (v : A) (s : State) :
  cacheEnabled cfg = true ->
  serializable v ->
  let written := clock env (clock_reads s) in
  let s' := snd (cacheSet cfg env key v s) in
  let now := clock env (clock_reads s') in
  let age := time_Sub now (time_Unix (Unix written)) in
  let got := cacheGet (A := A) cfg env key s' in
  fst (cacheSet cfg env key v s) = Ret tt
  /\ (fst got = Ret (Some v) <-> age <= cacheDuration cfg)
  /\ (age > cacheDuration cfg ->
      fst got = Ret None /\ fs (snd got) !! cachePath cfg key = None)
  /\ (minDuration <= written <= maxDuration ->
      written <= now ->
      age < now - written + second
      /\ (now - written + second <= maxDuration -> now - written <= age)
      /\ (now - written + second <= cacheDuration cfg -> fst got = Ret (Some v))).
Proof.
  intros Hon (data & Hmarshal & Hunmarshal) written. cbv zeta.
  destruct (cacheSet_enabled cfg env key v data s Hon Hmarshal)
    as (s1 & Hset & Hfs & Hclock & _).
  rewrite Hset. cbn [fst snd].
  set (age := time_Sub (clock env (clock_reads s1)) (time_Unix (Unix written))).
  assert (Hfile : fs s1 !! cachePath cfg key
                  = Some (Encoded {| Timestamp := Unix written; Data := Some data |}))
    by (rewrite Hfs; apply lookup_insert_eq).
  destruct (cacheGet_entry (A := A) cfg env key s1 _ Hon Hfile) as [Hhit Hmiss].
  cbn [Timestamp Data] in Hhit, Hmiss. fold age in Hhit, Hmiss.
  assert (Hfresh : age <= cacheDuration cfg ->
                   fst (cacheGet (A := A) cfg env key s1) = Ret (Some v)).
  { intros Hage. destruct (Hhit Hage) as [Hgot _]. rewrite Hgot. cbn.
    now rewrite Hunmarshal. }
  split; [reflexivity |]. split; [split |]; [| exact Hfresh | split].
  - intros Hgot. destruct (Z.le_gt_cases age (cacheDuration cfg)) as [Hle | Hgt];
      [exact Hle |].
    destruct (Hmiss ltac:(lia)) as [Hnone _]. congruence.
  - intros Hgt. destruct (Hmiss Hgt) as [Hnone Hgone].
    split; [exact Hnone |]. rewrite Hgone. apply lookup_delete_eq.
  - intros Hrange Hle.
    destruct (age_of_written_entry written (clock env (clock_reads s1)) Hrange Hle)
      as [Hbelow Habove].
    fold age in Hbelow, Habove.
    split; [exact Hbelow |]. split; [exact Habove |].
    intros Hwithin. apply Hfresh. lia.
Qed.

(** Three notifications written and read back in the next second, with
    entries kept for five minutes. *)
Lemma cacheSet_cacheGet_round_trip_witness :
  let cfg := sample_cfg true in
  let env := sample_env true [] in
  let key := "notifs_1_false_false" in
  fst (cacheGet (A := list Notification) cfg env key
         (snd (cacheSet cfg env key sample_titles empty_state)))
  = Ret (Some sample_titles).
Proof.
  intros cfg env key.
  assert (Hon : cacheEnabled cfg = true) by reflexivity.
  destruct (cacheSet_cacheGet_round_trip cfg env key sample_titles empty_state
              Hon sample_titles_serializable) as (_ & _ & _ & Helapsed).
  destruct Helapsed as (_ & _ & Hback); [evaluate | evaluate |].
  apply Hback. evaluate.
Defined.

(* ===================================================================== *)
(** * Properties: the fetch loop *)
(* ===================================================================== *)

Lemma llen_take {A} (n : nat) (l : list A) :
  llen (take n l) = Z.min (Z.of_nat n) (llen l).
Proof. unfold llen. rewrite length_take. lia. Qed.

Lemma llen_app {A} (l k : list A) : llen (l ++ k) = llen l + llen k.
Proof. unfold llen. rewrite length_app. lia. Qed.

Lemma kept_no_pattern (n : Notification) : kept "" "" n = true.
Proof. reflexivity. Qed.

Lemma filter_kept_no_pattern (l : list Notification) :
  List.filter (kept "" "") l = l.
Proof. induction l as [|n l IH]; [reflexivity |]. cbn. now rewrite IH. Qed.

(** The [range] loop keeps, in order, the records the filter rule keeps. *)
Lemma appendKept_spec (exclusion filter : string) (notifs allNotifs : list Notification) :
  appendKept exclusion filter notifs allNotifs
  = allNotifs ++ List.filter (kept exclusion filter) notifs.
Proof.
  revert allNotifs. induction notifs as [|n notifs IH]; intros allNotifs.
  - cbn. now rewrite app_nil_r.
  - cbn [appendKept List.filter]. unfold kept at 1. unfold nonempty at 2.
    destruct (nonempty exclusion && strings_Contains (Title (Subj n)) exclusion).
    + apply IH.
    + destruct (String.eqb filter ""), (strings_Contains (Title (Subj n)) filter);
        cbn; rewrite IH; try reflexivity; now rewrite <- app_assoc.
Qed.

(** The patterns change what a round collects, not how it ends. *)
Lemma getNotifications_round_filter (numNotifications : Z) (exclusion filter : string)
  (notifs : list Notification) (fetchedCount : Z) (allNotifs : list Notification) :
  getNotifications_round numNotifications exclusion filter notifs fetchedCount
    (List.filter (kept exclusion filter) allNotifs)
  = map_outcome (map_round (List.filter (kept exclusion filter)))
      (getNotifications_round numNotifications "" "" notifs fetchedCount allNotifs).
Proof.
  unfold getNotifications_round.
  destruct (llen notifs =? 0); [reflexivity |]. cbv zeta.
  destruct (if min (numNotifications - fetchedCount) ghNotifyPerPageLimit <? llen notifs
            then slice_prefix notifs (min (numNotifications - fetchedCount) ghNotifyPerPageLimit)
            else mret notifs) as [cut | | |]; try reflexivity.
  go_unfold. rewrite !appendKept_spec, filter_kept_no_pattern.
  destruct ((fetchedCount + llen cut =? numNotifications)
            || (llen cut <? ghNotifyPerPageLimit)); cbn;
    now rewrite List.filter_app.
Qed.

(** A round that goes on has taken a full page and left
    [fetchedCount] below the limit. *)
Lemma getNotifications_round_next (numNotifications : Z) (exclusion filter : string)
  (notifs : list Notification) (fetchedCount fetchedCount' : Z)
  (allNotifs allNotifs' : list Notification) :
  getNotifications_round numNotifications exclusion filter notifs fetchedCount allNotifs
  = Ret (Next fetchedCount' allNotifs') ->
  fetchedCount' = fetchedCount + ghNotifyPerPageLimit
  /\ fetchedCount' < numNotifications.
Proof.
  unfold getNotifications_round, min, ghNotifyPerPageLimit, slice_prefix.
  destruct (Z.eqb_spec (llen notifs) 0); [discriminate |]. cbv zeta.
  pose proof (llen_nonneg notifs) as Hlen.
  set (pageSize := if numNotifications - fetchedCount <? 50
                   then numNotifications - fetchedCount else 50).
  assert (Hps : pageSize <= 50 /\ pageSize <= numNotifications - fetchedCount).
  { subst pageSize. destruct (Z.ltb_spec (numNotifications - fetchedCount) 50); lia. }
  destruct (Z.ltb_spec pageSize (llen notifs)) as [Hcut | Hall].
  - destruct (Z.leb_spec 0 pageSize) as [Hpos | Hneg]; cbn [andb];
      [| discriminate].
    destruct (Z.leb_spec pageSize (llen notifs)); [| lia].
    go_unfold.
    assert (Hl : llen (take (Z.to_nat pageSize) notifs) = pageSize)
      by (rewrite llen_take; lia).
    rewrite Hl.
    destruct (Z.eqb_spec (fetchedCount + pageSize) numNotifications); cbn [orb];
      [discriminate |].
    destruct (Z.ltb_spec pageSize 50); [discriminate |].
    intros [= <- _]. lia.
  - go_unfold.
    destruct (Z.eqb_spec (fetchedCount + llen notifs) numNotifications); cbn [orb];
      [discriminate |].
    destruct (Z.ltb_spec (llen notifs) 50); [discriminate |].
    intros [= <- _]. lia.
Qed.

(** With [0 <= fetchedCount <= numNotifications] at its start, a round
    computes a page size that is not negative, cuts within bounds, and
    does not panic. *)
Lemma getNotifications_round_in_bounds (numNotifications : Z) (exclusion filter : string)
  (notifs : list Notification) (fetchedCount : Z) (allNotifs : list Notification) :
  0 <= fetchedCount <= numNotifications ->
  let pageSize := min (numNotifications - fetchedCount) ghNotifyPerPageLimit in
  0 <= pageSize
  /\ (pageSize < llen notifs ->
      slice_prefix notifs pageSize = Ret (take (Z.to_nat pageSize) notifs))
  /\ exists e,
      getNotifications_round numNotifications exclusion filter notifs
        fetchedCount allNotifs = Ret e.
Proof.
  intros Hinv pageSize.
  assert (Hps : 0 <= pageSize).
  { subst pageSize. unfold min, ghNotifyPerPageLimit.
    destruct (Z.ltb_spec (numNotifications - fetchedCount) 50); lia. }
  assert (Hslice : pageSize < llen notifs ->
                   slice_prefix notifs pageSize = Ret (take (Z.to_nat pageSize) notifs)).
  { intros Hlt. unfold slice_prefix.
    destruct (Z.leb_spec 0 pageSize); [| lia].
    destruct (Z.leb_spec pageSize (llen notifs)); [reflexivity | lia]. }
  split; [exact Hps | split; [exact Hslice |]].
  unfold getNotifications_round.
  destruct (llen notifs =? 0); [eexists; reflexivity |]. cbv zeta.
  fold pageSize.
  destruct (Z.ltb_spec pageSize (llen notifs)) as [Hcut | Hall].
  - rewrite (Hslice Hcut). go_unfold.
    match goal with |- context [if ?b then _ else _] => destruct b end;
      eexists; reflexivity.
  - go_unfold.
    match goal with |- context [if ?b then _ else _] => destruct b end;
      eexists; reflexivity.
Qed.

(** A round is not a loop: it ends. *)
Lemma getNotifications_round_finishes (numNotifications : Z) (exclusion filter : string)
  (notifs : list Notification) (fetchedCount : Z) (allNotifs : list Notification) :
  getNotifications_round numNotifications exclusion filter notifs fetchedCount allNotifs
  <> Unfinished.
Proof.
  unfold getNotifications_round, slice_prefix. go_unfold.
  repeat match goal with
         | |- context [if ?b then _ else _] => destruct b
         end; discriminate.
Qed.

Section LoopFacts.

Context (fetch : Z -> bool -> bool -> Go (result (list Notification))).
Context (numNotifications : Z) (onlyParticipating includeAll : bool).

#[local] Abbreviation loop fuel exclusion filter :=
  (getNotifications_loop fetch fuel numNotifications onlyParticipating includeAll
     exclusion filter).

(** The loop with patterns is the loop without them, its list filtered
    by the rule; the state it leaves is the same. *)
Lemma getNotifications_loop_filter (exclusion filter : string) (fuel : nat)
  (pageNum fetchedCount : Z) (allNotifs : list Notification) (s : State) :
  loop fuel exclusion filter pageNum fetchedCount
    (List.filter (kept exclusion filter) allNotifs) s
  = (map_outcome (map_result (List.filter (kept exclusion filter)))
       (fst (loop fuel "" "" pageNum fetchedCount allNotifs s)),
     snd (loop fuel "" "" pageNum fetchedCount allNotifs s)).
Proof.
  revert pageNum fetchedCount allNotifs s.
  induction fuel as [|fuel IH]; intros pageNum fetchedCount allNotifs s;
    [reflexivity |].
  cbn [getNotifications_loop]. go_unfold.
  destruct (fetch pageNum onlyParticipating includeAll s) as [[[notifs | e] | | |] s1];
    try reflexivity.
  rewrite getNotifications_round_filter.
  destruct (getNotifications_round numNotifications "" "" notifs fetchedCount allNotifs)
    as [[l | fetchedCount' l] | | |]; try reflexivity.
  cbn [map_outcome map_round]. apply IH.
Qed.

(** More rounds than the loop needs change nothing. *)
Lemma getNotifications_loop_more_fuel (exclusion filter : string) (fuel extra : nat)
  (pageNum fetchedCount : Z) (allNotifs : list Notification) (s : State) :
  fst (loop fuel exclusion filter pageNum fetchedCount allNotifs s) <> Unfinished ->
  loop (fuel + extra) exclusion filter pageNum fetchedCount allNotifs s
  = loop fuel exclusion filter pageNum fetchedCount allNotifs s.
Proof.
  revert pageNum fetchedCount allNotifs s.
  induction fuel as [|fuel IH]; intros pageNum fetchedCount allNotifs s.
  - cbn. congruence.
  - cbn [getNotifications_loop Nat.add]. go_unfold.
    destruct (fetch pageNum onlyParticipating includeAll s) as [[[notifs | e] | | |] s1];
      try reflexivity.
    destruct (getNotifications_round numNotifications exclusion filter notifs
                fetchedCount allNotifs) as [[l | fetchedCount' l] | | |];
      try reflexivity.
    apply IH.
Qed.

(** Enough rounds: the loop ends.  With [fetchedCount] within the limit
    at its start, it ends without a panic wherever [fetch] does. *)
Lemma getNotifications_loop_ends (exclusion filter : string) (fuel : nat)
  (pageNum fetchedCount : Z) (allNotifs : list Notification) (s : State) :
  (forall p s, fst (fetch p onlyParticipating includeAll s) <> Unfinished) ->
  (1 <= fuel)%nat ->
  numNotifications - fetchedCount < ghNotifyPerPageLimit * Z.of_nat fuel ->
  fst (loop fuel exclusion filter pageNum fetchedCount allNotifs s) <> Unfinished.
Proof.
  intros Hfetch. revert pageNum fetchedCount allNotifs s.
  induction fuel as [|fuel IH]; intros pageNum fetchedCount allNotifs s Hfuel Hrounds;
    [lia |].
  cbn [getNotifications_loop]. go_unfold.
  pose proof (Hfetch pageNum s) as Hp.
  destruct (fetch pageNum onlyParticipating includeAll s) as [[[notifs | e] | | |] s1];
    cbn in Hp |- *; try discriminate; try congruence.
  destruct (getNotifications_round numNotifications exclusion filter notifs
              fetchedCount allNotifs) as [[l | fetchedCount' l] | | |] eqn:Hround;
    cbn; try discriminate.
  2: { now apply getNotifications_round_finishes in Hround. }
  apply getNotifications_round_next in Hround as [-> Hlt].
  unfold ghNotifyPerPageLimit in *. apply IH; lia.
Qed.

Lemma getNotifications_loop_no_panic (exclusion filter : string) (fuel : nat)
  (pageNum fetchedCount : Z) (allNotifs : list Notification) (s : State) :
  (forall p s, returns_or_exits (fst (fetch p onlyParticipating includeAll s))) ->
  0 <= fetchedCount <= numNotifications ->
  (1 <= fuel)%nat ->
  numNotifications - fetchedCount < ghNotifyPerPageLimit * Z.of_nat fuel ->
  returns_or_exits (fst (loop fuel exclusion filter pageNum fetchedCount allNotifs s)).
Proof.
  intros Hfetch. revert pageNum fetchedCount allNotifs s.
  induction fuel as [|fuel IH];
    intros pageNum fetchedCount allNotifs s Hinv Hfuel Hrounds; [lia |].
  cbn [getNotifications_loop]. go_unfold.
  pose proof (Hfetch pageNum s) as Hp.
  destruct (fetch pageNum onlyParticipating includeAll s) as [[[notifs | e] | | |] s1];
    cbn in Hp |- *; try exact I; try contradiction.
  destruct (getNotifications_round_in_bounds numNotifications exclusion filter
              notifs fetchedCount allNotifs Hinv) as (_ & _ & e & Hround).
  rewrite Hround. destruct e as [l | fetchedCount' l]; cbn; [exact I |].
  apply getNotifications_round_next in Hround as [-> Hlt].
  unfold ghNotifyPerPageLimit in *. apply IH; lia.
Qed.

End LoopFacts.

(** ** What [getNotifs] does *)

Lemma string_length_append (x y : string) :
  String.length (x +:+ y) = (String.length x + String.length y)%nat.
Proof.
  induction x as [|c x IH]; [reflexivity |].
  change (S (String.length (x +:+ y)) = S (String.length x + String.length y)).
  now rewrite IH.
Qed.

Lemma string_append_inj_r (x y r : string) : x +:+ r = y +:+ r -> x = y.
Proof.
  intros Heq.
  assert (Hlen : String.length x = String.length y).
  { apply (f_equal String.length) in Heq. rewrite !string_length_append in Heq. lia. }
  revert y Heq Hlen. induction x as [|c x IH]; intros [|d y] Heq Hlen;
    try discriminate; [reflexivity |].
  change (String c (x +:+ r) = String d (y +:+ r)) in Heq.
  injection Heq as -> Heq. f_equal. apply IH; [exact Heq | now injection Hlen].
Qed.

Lemma fmt_d_inj (p q : Z) : fmt_d p = fmt_d q -> p = q.
Proof.
  unfold fmt_d. intros Heq.
  apply (f_equal NilEmpty.int_of_string) in Heq. rewrite !NilEmpty.isi in Heq.
  injection Heq as Heq. apply (f_equal Z.of_int) in Heq.
  now rewrite !DecimalZ.of_to in Heq.
Qed.

(** Two pages of one listing have two cache files. *)
Lemma cachePath_cacheKey_inj (cfg : Config) (p q : Z) (participating all : bool) :
  cachePath cfg (cacheKey p participating all)
  = cachePath cfg (cacheKey q participating all) ->
  p = q.
Proof.
  unfold cachePath, cacheKey. intros Heq.
  do 2 apply String.app_inj in Heq. apply string_append_inj_r in Heq.
  apply String.app_inj in Heq. apply string_append_inj_r in Heq.
  now apply fmt_d_inj.
Qed.

Section FetchFacts.

Context (cfg : Config) (env : Env).

Lemma verbose_returns (d : diagnostic) (s : State) :
  exists s', verbose cfg d s = (Ret tt, s')
             /\ fs s' = fs s /\ requests s' = requests s /\ stdout s' = stdout s.
Proof.
  unfold verbose. destruct (ghNotifyVerbose cfg); eexists; split; try reflexivity;
    cbn; auto.
Qed.

(** [cacheGet] and [cacheSet] return, and make no request. *)
Lemma cacheGet_returns {A} `{JSON A} (key : string) (s : State) :
  exists r s', cacheGet (A := A) cfg env key s = (Ret r, s')
               /\ requests s' = requests s.
Proof.
  unfold cacheGet, verbose. cbv zeta. go_unfold.
  unfold os_Open, time_Since, time_Now, os_Remove. go_unfold.
  destruct (cacheEnabled cfg); cbn [negb].
  - destruct (fs s !! cachePath cfg key) as [[bytes | entry] |] eqn:Hfile; cbn.
    + destruct (ghNotifyVerbose cfg); do 2 eexists; split; reflexivity.
    + destruct (_ >? _); cbn; [rewrite Hfile |];
        destruct (ghNotifyVerbose cfg); do 2 eexists; split; reflexivity.
    + destruct (ghNotifyVerbose cfg); do 2 eexists; split; reflexivity.
  - destruct (ghNotifyVerbose cfg); do 2 eexists; split; reflexivity.
Qed.

Lemma cacheSet_returns {A} `{JSON A} (key : string) (v : A) (s : State) :
  exists s', cacheSet cfg env key v s = (Ret tt, s')
             /\ requests s' = requests s.
Proof.
  destruct (cacheEnabled cfg) eqn:Hon.
  - destruct (json_Marshal v) as [data |] eqn:Hdata.
    + destruct (cacheSet_enabled cfg env key v data s Hon Hdata)
        as (s' & Hset & _ & _ & Hreq & _).
      now exists s'.
    + unfold cacheSet, verbose. rewrite Hon, Hdata. cbn [negb].
      destruct (ghNotifyVerbose cfg); eexists; split; reflexivity.
  - destruct (cacheSet_disabled cfg env key v s Hon) as (s' & Hset & _ & Hreq & _).
    now exists s'.
Qed.

(** [getNotifs] returns or exits (when the REST client cannot be made). *)
Lemma getNotifs_returns_or_exits (pageNum : Z) (participating all : bool) (s : State) :
  returns_or_exits (fst (getNotifs cfg env pageNum participating all s)).
Proof.
  unfold getNotifs. cbv zeta. go_unfold.
  destruct (cacheGet_returns (A := list Notification)
              (cacheKey pageNum participating all) s) as (r & s1 & -> & _).
  destruct r as [notifs |].
  - destruct (verbose_returns (LogApiFromCache pageNum) s1) as (s2 & -> & _).
    exact I.
  - unfold ghRestApiClient, die, client_Get. go_unfold.
    destruct (rest_client env); cbn; [exact I |].
    destruct (verbose_returns (LogApiFetching pageNum) s1) as (s2 & -> & _).
    cbn. destruct (remote_Get env pageNum participating all) as [notifs | e];
      [| exact I].
    match goal with
    | |- context [cacheSet cfg env ?k ?v ?st] =>
        destruct (cacheSet_returns k v st) as (s3 & -> & _)
    end.
    exact I.
Qed.

Lemma getNotifs_direct_returns_or_exits (pageNum : Z) (participating all : bool)
  (s : State) :
  returns_or_exits (fst (getNotifs_direct env pageNum participating all s)).
Proof.
  unfold getNotifs_direct, ghRestApiClient, die, client_Get. go_unfold.
  destruct (rest_client env); exact I.
Qed.

(** With the cache off and no diagnostics, [getNotifs] is the
    [getNotifs] of [main.go]. *)
Lemma getNotifs_cache_off (pageNum : Z) (participating all : bool) (s : State) :
  cacheEnabled cfg = false ->
  ghNotifyVerbose cfg = false ->
  getNotifs cfg env pageNum participating all s
  = getNotifs_direct env pageNum participating all s.
Proof.
  intros Hoff Hquiet.
  unfold getNotifs, getNotifs_direct, cacheGet, cacheSet, verbose,
    ghRestApiClient, die, client_Get.
  rewrite Hoff, Hquiet. cbn [negb]. go_unfold.
  destruct (rest_client env); cbn; [reflexivity |].
  destruct (remote_Get env pageNum participating all); reflexivity.
Qed.

(** A page the cache cannot answer is fetched: one request, and no file
    appears but the one of the page. *)
Lemma getNotifs_fetches (pageNum : Z) (participating all : bool) (s : State)
  (notifs : list Notification) :
  rest_client env = None ->
  remote_Get env pageNum participating all = Ok notifs ->
  cacheEnabled cfg = false
  \/ fs s !! cachePath cfg (cacheKey pageNum participating all) = None ->
  exists s',
    getNotifs cfg env pageNum participating all s = (Ret (Ok notifs), s')
    /\ requests s' = requests s ++ [GET pageNum participating all]
    /\ stdout s' = stdout s
    /\ forall path,
        path <> cachePath cfg (cacheKey pageNum participating all) ->
        fs s !! path = None -> fs s' !! path = None.
Proof.
  intros Hclient Hremote Hmiss.
  unfold getNotifs. cbv zeta. go_unfold.
  assert (Hget : exists s1,
             cacheGet (A := list Notification) cfg env
               (cacheKey pageNum participating all) s = (Ret None, s1)
             /\ fs s1 = fs s /\ requests s1 = requests s /\ stdout s1 = stdout s).
  { destruct Hmiss as [Hoff | Hnone].
    - destruct (cacheGet_disabled (A := list Notification) cfg env
                  (cacheKey pageNum participating all) s Hoff)
        as (s1 & ? & ? & ? & ? & _); eauto.
    - destruct (cacheGet_no_file (A := list Notification) cfg env
                  (cacheKey pageNum participating all) s Hnone)
        as (s1 & ? & ? & ? & ? & _); eauto. }
  destruct Hget as (s1 & -> & Hfs1 & Hreq1 & Hout1).
  unfold ghRestApiClient, client_Get, record_request. rewrite Hclient. go_unfold.
  destruct (verbose_returns (LogApiFetching pageNum) s1)
    as (s2 & -> & Hfs2 & Hreq2 & Hout2).
  cbn. rewrite Hremote.
  match goal with
  | |- context [cacheSet cfg env ?k ?v ?st] => set (s3 := st)
  end.
  destruct (cacheEnabled cfg) eqn:Hon.
  - destruct (@cacheSet_enabled cfg env _ JSON_Notifications
                (cacheKey pageNum participating all)
                notifs (JArray (map marshal_Notification notifs)) s3 Hon eq_refl)
      as (s4 & -> & Hfs4 & _ & Hreq4 & Hout4).
    eexists; split; [reflexivity |]. subst s3. cbn in *.
    split; [congruence | split; [congruence |]].
    intros path Hne Hnone. rewrite Hfs4, lookup_insert_ne by congruence.
    rewrite lookup_delete. case_decide; [reflexivity | congruence].
  - destruct (cacheSet_disabled cfg env (cacheKey pageNum participating all)
                notifs s3 Hon) as (s4 & -> & Hfs4 & Hreq4 & Hout4).
    eexists; split; [reflexivity |]. subst s3. cbn in *.
    split; [congruence | split; [congruence |]].
    intros path Hne Hnone. congruence.
Qed.

Lemma getNotifs_direct_fetches (pageNum : Z) (participating all : bool) (s : State)
  (notifs : list Notification) :
  rest_client env = None ->
  remote_Get env pageNum participating all = Ok notifs ->
  exists s',
    getNotifs_direct env pageNum participating all s = (Ret (Ok notifs), s')
    /\ requests s' = requests s ++ [GET pageNum participating all]
    /\ stdout s' = stdout s.
Proof.
  intros Hclient Hremote.
  unfold getNotifs_direct, ghRestApiClient, client_Get, record_request.
  rewrite Hclient. go_unfold. rewrite Hremote.
  eexists; split; [reflexivity |]. cbn. auto.
Qed.

End FetchFacts.

(** ** The loop against a feed served in pages *)

Lemma take_eq_min {A} (a b : nat) (l : list A) :
  Nat.min a (length l) = Nat.min b (length l) -> take a l = take b l.
Proof.
  intros Heq.
  destruct (Nat.le_gt_cases a (length l)), (Nat.le_gt_cases b (length l)).
  - f_equal. lia.
  - rewrite (take_ge l b) by lia. rewrite take_ge by lia. reflexivity.
  - rewrite (take_ge l a) by lia. rewrite take_ge by lia. reflexivity.
  - rewrite !take_ge by lia. reflexivity.
Qed.

Lemma llen_page_of (feed : list Notification) (pageNum : Z) :
  1 <= pageNum ->
  llen (page_of feed pageNum)
  = Z.max 0 (Z.min ghNotifyPerPageLimit
                   (llen feed - ghNotifyPerPageLimit * (pageNum - 1))).
Proof.
  intros Hp. unfold page_of, llen, ghNotifyPerPageLimit.
  rewrite length_take, length_drop. lia.
Qed.

(** The requests of the specification, at the round that ends the loop
    and at a round that goes on. *)
Lemma page_requests_at_break (maxCount total pageNum : Z) :
  1 <= pageNum ->
  ghNotifyPerPageLimit * (pageNum - 1) < maxCount ->
  ghNotifyPerPageLimit * (pageNum - 1) <= total ->
  ~ (ghNotifyPerPageLimit * pageNum < maxCount
     /\ ghNotifyPerPageLimit * pageNum <= total) ->
  page_requests maxCount total = pageNum.
Proof.
  unfold page_requests, probe, ghNotifyPerPageLimit. intros Hp Hn Ht Hstop.
  destruct (Z.ltb_spec total maxCount); destruct (Z.eqb_spec (total mod 50) 0);
    cbn [andb]; Z.div_mod_to_equations; lia.
Qed.

Lemma page_requests_at_next (maxCount total pageNum : Z) :
  1 <= pageNum ->
  ghNotifyPerPageLimit * pageNum < maxCount ->
  ghNotifyPerPageLimit * pageNum <= total ->
  pageNum + 1 <= page_requests maxCount total.
Proof.
  unfold page_requests, probe, ghNotifyPerPageLimit. intros Hp Hn Ht.
  destruct (Z.ltb_spec total maxCount); destruct (Z.eqb_spec (total mod 50) 0);
    cbn [andb]; Z.div_mod_to_equations; lia.
Qed.

(** One round on page [pageNum] of a served feed, entered as the loop
    enters it: it goes on when a whole page more is both wanted and
    there, and otherwise ends with the first [min(maxCount, total)]
    records. *)
Lemma getNotifications_round_served (numNotifications : Z)
  (feed : list Notification) (pageNum : Z) :
  1 <= pageNum ->
  let fetchedCount := ghNotifyPerPageLimit * (pageNum - 1) in
  fetchedCount < numNotifications ->
  fetchedCount <= llen feed ->
  getNotifications_round numNotifications "" "" (page_of feed pageNum)
    fetchedCount (take (Z.to_nat fetchedCount) feed)
  = Ret (if (ghNotifyPerPageLimit * pageNum <? numNotifications)
            && (ghNotifyPerPageLimit * pageNum <=? llen feed)
         then Next (ghNotifyPerPageLimit * pageNum)
                   (take (Z.to_nat (ghNotifyPerPageLimit * pageNum)) feed)
         else Break (take (Z.to_nat (Z.min numNotifications (llen feed))) feed)).
Proof.
  intros Hp fetchedCount Hn Ht.
  pose proof (llen_page_of feed pageNum Hp) as Hlen. fold fetchedCount in Hlen.
  unfold getNotifications_round. cbv zeta.
  set (page := page_of feed pageNum) in *.
  assert (Hpage : page = take 50 (drop (Z.to_nat fetchedCount) feed)) by reflexivity.
  unfold min, ghNotifyPerPageLimit in *.
  set (T := llen feed) in *.
  assert (HT : Z.of_nat (length feed) = T) by reflexivity.
  destruct (Z.eqb_spec (llen page) 0) as [Hempty | Hsome].
  - (* the feed ended on the page boundary *)
    destruct (Z.ltb_spec (50 * pageNum) numNotifications);
      destruct (Z.leb_spec (50 * pageNum) T); cbn [andb]; try lia;
      go_unfold; do 2 f_equal; apply take_eq_min; lia.
  - set (pageSize := if numNotifications - fetchedCount <? 50
                     then numNotifications - fetchedCount else 50).
    assert (Hps : pageSize = Z.min (numNotifications - fetchedCount) 50).
    { subst pageSize. destruct (Z.ltb_spec (numNotifications - fetchedCount) 50); lia. }
    destruct (Z.ltb_spec pageSize (llen page)) as [Hcut | Hall].
    + (* the page is cut to what is still wanted *)
      unfold slice_prefix.
      destruct (Z.leb_spec 0 pageSize); [| lia].
      destruct (Z.leb_spec pageSize (llen page)); [| lia]. cbn [andb].
      go_unfold. rewrite appendKept_spec, filter_kept_no_pattern.
      assert (Hl : llen (take (Z.to_nat pageSize) page) = pageSize)
        by (rewrite llen_take; lia).
      rewrite Hl.
      destruct (Z.eqb_spec (fetchedCount + pageSize) numNotifications); [| lia].
      cbn [orb].
      destruct (Z.ltb_spec (50 * pageNum) numNotifications); [lia |]. cbn [andb].
      do 2 f_equal. rewrite Hpage, take_take, take_take_drop.
      apply take_eq_min. lia.
    + (* the page is taken whole *)
      go_unfold. rewrite appendKept_spec, filter_kept_no_pattern.
      replace (take (Z.to_nat fetchedCount) feed ++ page)
        with (take (Z.to_nat fetchedCount + 50) feed)
        by (rewrite Hpage; symmetry; apply take_take_drop).
      destruct (Z.eqb_spec (fetchedCount + llen page) numNotifications);
        destruct (Z.ltb_spec (llen page) 50);
        destruct (Z.ltb_spec (50 * pageNum) numNotifications);
        destruct (Z.leb_spec (50 * pageNum) T);
        cbn [orb andb]; try lia; do 2 f_equal;
        try (apply take_eq_min; lia); try lia.
Qed.

Section ServedLoop.

Context (fetch : Z -> bool -> bool -> Go (result (list Notification))).
Context (feed : list Notification) (onlyParticipating includeAll : bool).

(** [ready pageNum s]: in state [s], [fetch] answers the pages from
    [pageNum] on with the pages of the feed, one request each. *)
Context (ready : Z -> State -> Prop).

Hypothesis fetch_page : forall pageNum s,
  1 <= pageNum -> ready pageNum s ->
  exists s',
    fetch pageNum onlyParticipating includeAll s = (Ret (Ok (page_of feed pageNum)), s')
    /\ requests s' = requests s ++ [GET pageNum onlyParticipating includeAll]
    /\ stdout s' = stdout s
    /\ ready (pageNum + 1) s'.

Lemma getNotifications_loop_served (numNotifications : Z) (fuel : nat)
  (pageNum : Z) (s : State) :
  1 <= pageNum ->
  ghNotifyPerPageLimit * (pageNum - 1) < numNotifications ->
  ghNotifyPerPageLimit * (pageNum - 1) <= llen feed ->
  ready pageNum s ->
  numNotifications - ghNotifyPerPageLimit * (pageNum - 1)
  <= ghNotifyPerPageLimit * Z.of_nat fuel ->
  exists s',
    getNotifications_loop fetch fuel numNotifications onlyParticipating includeAll
      "" "" pageNum (ghNotifyPerPageLimit * (pageNum - 1))
      (take (Z.to_nat (ghNotifyPerPageLimit * (pageNum - 1))) feed) s
    = (Ret (Ok (take (Z.to_nat (Z.min numNotifications (llen feed))) feed)), s')
    /\ requests s'
       = requests s
         ++ map (fun p => GET p onlyParticipating includeAll)
              (seqZ pageNum (page_requests numNotifications (llen feed) - pageNum + 1))
    /\ stdout s' = stdout s.
Proof.
  revert pageNum s. induction fuel as [|fuel IH];
    intros pageNum s Hp Hn Ht Hready Hfuel.
  { unfold ghNotifyPerPageLimit in *. lia. }
  cbn [getNotifications_loop]. go_unfold.
  destruct (fetch_page pageNum s Hp Hready) as (s1 & -> & Hreq & Hout & Hready1).
  rewrite (getNotifications_round_served numNotifications feed pageNum Hp Hn Ht).
  destruct (Z.ltb_spec (ghNotifyPerPageLimit * pageNum) numNotifications) as [Hn1 | Hn1];
    [destruct (Z.leb_spec (ghNotifyPerPageLimit * pageNum) (llen feed)) as [Ht1 | Ht1] |];
    cbn [andb].
  - (* on to the next page *)
    pose proof (page_requests_at_next numNotifications (llen feed) pageNum Hp Hn1 Ht1)
      as Hmore.
    replace (ghNotifyPerPageLimit * pageNum)
      with (ghNotifyPerPageLimit * (pageNum + 1 - 1)) by lia.
    destruct (IH (pageNum + 1) s1) as (s' & -> & Hreq' & Hout');
      try exact Hready1; try (unfold ghNotifyPerPageLimit in *; lia).
    exists s'. split; [reflexivity |]. split; [| congruence].
    rewrite Hreq', Hreq, <- app_assoc. f_equal.
    rewrite (seqZ_cons pageNum) by lia. cbn [map app].
    f_equal. f_equal. f_equal; lia.
  - (* the feed ends here *)
    rewrite (page_requests_at_break numNotifications (llen feed) pageNum) by
      (try assumption; lia).
    exists s1. split; [reflexivity |]. split; [| exact Hout].
    rewrite Hreq. replace (pageNum - pageNum + 1) with 1 by lia. reflexivity.
  - (* the limit is reached here *)
    rewrite (page_requests_at_break numNotifications (llen feed) pageNum) by
      (try assumption; lia).
    exists s1. split; [reflexivity |]. split; [| exact Hout].
    rewrite Hreq. replace (pageNum - pageNum + 1) with 1 by lia. reflexivity.
Qed.

End ServedLoop.

(** ** Substring containment *)

Lemma prefix_spec (p s : string) :
  String.prefix p s = true <-> exists post, s = p +:+ post.
Proof.
  revert s. induction p as [|c p IH]; intros s.
  - split; [intros _; exists s; reflexivity | intros _; destruct s; reflexivity].
  - destruct s as [|d s]; cbn [String.prefix].
    + split; [discriminate | intros [post Hpost]; discriminate].
    + destruct (Ascii.ascii_dec c d) as [-> | Hne].
      * rewrite IH. split; intros [post Hpost]; exists post.
        -- change (String d s = String d (p +:+ post)). now rewrite Hpost.
        -- change (String d s = String d (p +:+ post)) in Hpost. congruence.
      * split; [discriminate |]. intros [post Hpost].
        change (String d s = String c (p +:+ post)) in Hpost. congruence.
Qed.

(** [strings.Contains] is containment as a substring. *)
Lemma strings_Contains_spec (s substr : string) :
  strings_Contains s substr = true
  <-> exists pre post, s = pre +:+ substr +:+ post.
Proof.
  induction s as [|c s IH]; cbn [strings_Contains]; rewrite orb_true_iff, prefix_spec.
  - split.
    + intros [[post Hpost] | Hf]; [| discriminate]. exists "", post. exact Hpost.
    + intros ([|d pre] & post & Heq); [left; exists post; exact Heq |].
      discriminate.
  - rewrite IH. split.
    + intros [[post Hpost] | (pre & post & Hs)].
      * exists "", post. exact Hpost.
      * exists (String c pre), post.
        change (String c s = String c (pre +:+ substr +:+ post)). now rewrite Hs.
    + intros ([|d pre] & post & Heq).
      * left. exists post. exact Heq.
      * right. exists pre, post.
        change (String c s = String d (pre +:+ substr +:+ post)) in Heq. congruence.
Qed.

(** The rule [kept], in the words of the specification. *)
Lemma kept_spec (excludePattern includePattern : string) (n : Notification) :
  kept excludePattern includePattern n = true
  <-> ~ (excludePattern <> ""
         /\ strings_Contains (Title (Subj n)) excludePattern = true)
      /\ (includePattern = ""
          \/ strings_Contains (Title (Subj n)) includePattern = true).
Proof.
  unfold kept.
  destruct (nonempty excludePattern && strings_Contains (Title (Subj n)) excludePattern)
    eqn:Hex.
  - apply andb_true_iff in Hex as [Hne Hc]. apply nonempty_true in Hne.
    split; [discriminate | intros [Hno _]; destruct Hno; auto].
  - rewrite orb_true_iff, String.eqb_eq. split.
    + intros Hin. split; [| exact Hin]. intros [Hne Hc].
      apply nonempty_true in Hne. rewrite Hne, Hc in Hex. discriminate.
    + intros [_ Hin]. exact Hin.
Qed.

(* ===================================================================== *)
(** * Properties: [getNotifications] *)
(* ===================================================================== *)

Lemma rounds_enough (numNotifications : Z) :
  (1 <= rounds numNotifications)%nat
  /\ numNotifications < ghNotifyPerPageLimit * Z.of_nat (rounds numNotifications).
Proof.
  unfold rounds, ghNotifyPerPageLimit. split; [lia |].
  destruct (Z.le_gt_cases 0 numNotifications).
  - rewrite Nat2Z.inj_succ, Z2Nat.id by (apply Z.div_pos; lia).
    Z.div_mod_to_equations. lia.
  - lia.
Qed.

(** [getNotifications] ends: the rounds it is given are enough, whatever
    the limit, the remote and the cache. *)
Lemma getNotifications_ends (cfg : Config) (env : Env) (numNotifications : Z)
  (participating all : bool) (exclusion filter : string) (s : State) :
  fst (getNotifications cfg env numNotifications participating all exclusion filter s)
  <> Unfinished.
Proof.
  destruct (rounds_enough numNotifications) as [Hone Hfuel].
  apply getNotifications_loop_ends; [| exact Hone | lia].
  intros p s0. pose proof (getNotifs_returns_or_exits cfg env p participating all s0) as H.
  destruct (fst _); try contradiction; discriminate.
Qed.

(** The rounds [getNotifications] is given are no limit: with any more
    the loop does the same. *)
Lemma getNotifications_fuel_independent (cfg : Config) (env : Env)
  (numNotifications : Z) (participating all : bool) (exclusion filter : string)
  (extra : nat) (s : State) :
  getNotifications_loop (getNotifs cfg env) (rounds numNotifications + extra)
    numNotifications participating all exclusion filter 1 0 [] s
  = getNotifications cfg env numNotifications participating all exclusion filter s.
Proof.
  apply getNotifications_loop_more_fuel, getNotifications_ends.
Qed.

(** C10: with [numNotifications >= 0], [fetchedCount <= numNotifications]
    holds when the loop is entered (at 0) and after every round that goes
    on; under it the page size [min(numNotifications - fetchedCount, 50)]
    is not negative and the cut [notifs[:pageSize]] is within bounds for
    any page, so that [getNotifications] never panics, whatever the cache
    and the remote return.  The precondition is needed: with the limit -1
    the cut of a page that is not empty panics. *)
Theorem getNotifications_truncation_in_bounds :
  (forall numNotifications exclusion filter notifs fetchedCount allNotifs,
      0 <= numNotifications ->
      0 <= fetchedCount <= numNotifications ->
      let pageSize := min (numNotifications - fetchedCount) ghNotifyPerPageLimit in
      0 <= pageSize
      /\ (pageSize < llen notifs ->
          slice_prefix notifs pageSize = Ret (take (Z.to_nat pageSize) notifs))
      /\ exists e,
          getNotifications_round numNotifications exclusion filter notifs
            fetchedCount allNotifs = Ret e
          /\ forall fetchedCount' allNotifs',
              e = Next fetchedCount' allNotifs' ->
              0 <= fetchedCount' <= numNotifications)
  /\ (forall cfg env numNotifications participating all exclusion filter s,
         0 <= numNotifications ->
         returns_or_exits
           (fst (getNotifications cfg env numNotifications participating all
                   exclusion filter s))
         /\ returns_or_exits
              (fst (getNotifications_direct env numNotifications participating all
                      exclusion filter s)))
  /\ getNotifications_round (-1) "" "" sample_titles 0 []
     = Panicked "slice bounds out of range"
  /\ fst (getNotifications (sample_cfg true) (sample_env true sample_titles)
            (-1) false false "" "" empty_state)
     = Panicked "slice bounds out of range".
Proof.
  split; [| split; [| split; reflexivity]].
  - intros N exclusion filter notifs fetchedCount allNotifs HN Hinv pageSize.
    destruct (getNotifications_round_in_bounds N exclusion filter notifs
                fetchedCount allNotifs Hinv) as (Hps & Hslice & e & Hround).
    split; [exact Hps | split; [exact Hslice |]].
    exists e. split; [exact Hround |].
    intros fetchedCount' allNotifs' ->.
    apply getNotifications_round_next in Hround as [-> Hlt].
    unfold ghNotifyPerPageLimit in *. lia.
  - intros cfg env N participating all exclusion filter s HN.
    destruct (rounds_enough N) as [Hone Hfuel].
    split; apply getNotifications_loop_no_panic; try lia; try exact Hone; intros p s0.
    + apply getNotifs_returns_or_exits.
    + apply getNotifs_direct_returns_or_exits.
Qed.

(** A round entered at 100 of 120, and a run with the limit 2 over a feed
    of three. *)
Lemma getNotifications_truncation_in_bounds_witness :
  0 <= min (120 - 100) ghNotifyPerPageLimit
  /\ slice_prefix sample_titles (min (2 - 0) ghNotifyPerPageLimit)
     = Ret (take 2 sample_titles)
  /\ returns_or_exits
       (fst (getNotifications (sample_cfg true) (sample_env true sample_titles)
               2 false false "" "" empty_state)).
Proof.
  destruct getNotifications_truncation_in_bounds as (Hround & Hrun & _).
  assert (H120 : 0 <= 120) by lia.
  assert (H100 : 0 <= 100 <= 120) by lia.
  assert (H2 : 0 <= 2) by lia.
  assert (H0 : 0 <= 0 <= 2) by lia.
  destruct (Hround 120 "" "" sample_titles 100 [] H120 H100) as (Hps & _).
  destruct (Hround 2 "" "" sample_titles 0 [] H2 H0) as (_ & Hcut & _).
  destruct (Hrun (sample_cfg true) (sample_env true sample_titles) 2 false false
              "" "" empty_state H2) as (Hok & _).
  split; [exact Hps | split; [| exact Hok]].
  apply Hcut. evaluate.
Defined.

(** C3, as stated, fails on its example: matching is by bytes, ["Fix
    bug"] does not contain ["Bug"], and with the exclude pattern ["Bug"]
    the records kept are ["Fix bug"] and ["Add feature"]. *)
Lemma filter_example_counterexample :
  strings_Contains "Fix bug" "Bug" = false
  /\ map (fun n => Title (Subj n)) (appendKept "Bug" "" sample_titles [])
     = ["Fix bug"; "Add feature"]
  /\ fst (getNotifications (sample_cfg true) (sample_env true sample_titles)
            50 false false "Bug" "" empty_state)
     = Ret (Ok [sample "1" "Fix bug"; sample "2" "Add feature"])
  /\ map (fun n => Title (Subj n)) (appendKept "Bug" "" sample_titles [])
     <> ["Add feature"].
Proof. repeat split; try reflexivity. discriminate. Qed.

(** C3, amended: a record is kept iff it is not the case that the
    exclude pattern is non-empty and contained in its title, and the
    include pattern is empty or contained in its title, containment being
    that of a substring; the records [getNotifications] returns are the
    records it fetches (those it returns without patterns) that the rule
    keeps, in their order.  For the titles ["Fix bug"], ["Add feature"],
    ["Bugfix release"] and the exclude pattern ["Bug"], the records kept
    are ["Fix bug"] and ["Add feature"]. *)
Theorem getNotifications_filter_rule (cfg : Config) (env : Env)
  (numNotifications : Z) (participating all : bool)
  (exclusion filter : string) (s : State) :
  (forall n,
      kept exclusion filter n = true
      <-> ~ (exclusion <> "" /\ strings_Contains (Title (Subj n)) exclusion = true)
          /\ (filter = "" \/ strings_Contains (Title (Subj n)) filter = true))
  /\ (forall title pattern,
         strings_Contains title pattern = true
         <-> exists pre post, title = pre +:+ pattern +:+ post)
  /\ (forall notifs allNotifs,
         appendKept exclusion filter notifs allNotifs
         = allNotifs ++ List.filter (kept exclusion filter) notifs)
  /\ getNotifications cfg env numNotifications participating all exclusion filter s
     = (map_outcome (map_result (List.filter (kept exclusion filter)))
          (fst (getNotifications cfg env numNotifications participating all "" "" s)),
        snd (getNotifications cfg env numNotifications participating all "" "" s))
  /\ getNotifications_direct env numNotifications participating all exclusion filter s
     = (map_outcome (map_result (List.filter (kept exclusion filter)))
          (fst (getNotifications_direct env numNotifications participating all "" "" s)),
        snd (getNotifications_direct env numNotifications participating all "" "" s))
  /\ map (fun n => Title (Subj n)) (List.filter (kept "Bug" "") sample_titles)
     = ["Fix bug"; "Add feature"].
Proof.
  split; [| split; [| split; [| split; [| split]]]].
  - intros n. apply kept_spec.
  - intros title pattern. apply strings_Contains_spec.
  - intros notifs allNotifs. apply appendKept_spec.
  - apply (getNotifications_loop_filter (getNotifs cfg env) numNotifications
             participating all exclusion filter (rounds numNotifications) 1 0 []).
  - apply (getNotifications_loop_filter (getNotifs_direct env) numNotifications
             participating all exclusion filter (rounds numNotifications) 1 0 []).
  - reflexivity.
Qed.

Lemma probe_page_empty (feed : list Notification) (maxCount : Z) :
  probe maxCount (llen feed) = 1 ->
  page_of feed (page_requests maxCount (llen feed)) = [].
Proof.
  unfold page_requests, probe, page_of, ghNotifyPerPageLimit.
  destruct (Z.ltb_spec (llen feed) maxCount); cbn [andb]; [| discriminate].
  destruct (Z.eqb_spec (llen feed mod 50) 0); [| discriminate].
  intros _. rewrite drop_ge; [apply take_nil |].
  pose proof (llen_nonneg feed). unfold llen in *.
  Z.div_mod_to_equations. lia.
Qed.

Lemma sample_env_serves (gh : bool) (feed : list Notification) (participating all : bool) :
  serves (sample_env gh feed) feed participating all.
Proof. split; [reflexivity | intros p _; reflexivity]. Qed.

(** The loop of [main.go], which has no cache, against a served feed. *)
Lemma getNotifications_direct_pagination (env : Env) (numNotifications : Z)
  (feed : list Notification) (participating all : bool) (s : State) :
  1 <= numNotifications ->
  serves env feed participating all ->
  let got := getNotifications_direct env numNotifications participating all "" "" s in
  fst got = Ret (Ok (take (Z.to_nat (Z.min numNotifications (llen feed))) feed))
  /\ requests (snd got)
     = requests s ++ map (fun p => GET p participating all)
                       (seqZ 1 (page_requests numNotifications (llen feed))).
Proof.
  intros HN [Hclient Hremote] got.
  destruct (rounds_enough numNotifications) as [_ Hfuel].
  destruct (getNotifications_loop_served (getNotifs_direct env) feed participating all
              (fun _ _ => True)) with (numNotifications := numNotifications)
    (fuel := rounds numNotifications) (pageNum := 1) (s := s)
    as (s' & Hrun & Hreq & _);
    try (unfold ghNotifyPerPageLimit in *; pose proof (llen_nonneg feed); lia);
    try exact I.
  { intros p s0 Hp _.
    destruct (getNotifs_direct_fetches env p participating all s0 _ Hclient
                (Hremote p Hp)) as (s1 & ? & ? & ?).
    exists s1. auto. }
  change (got = (Ret (Ok (take (Z.to_nat (Z.min numNotifications (llen feed))) feed)), s'))
    in Hrun.
  rewrite Hrun. cbn [fst snd]. split; [reflexivity |].
  rewrite Hreq. do 3 f_equal. lia.
Qed.

(** A page shorter than 50 ends the loop, as the end of the feed: of a
    feed of 60 records handed out 30 a page, the first 30 are returned,
    after one request. *)
Lemma getNotifications_short_page_ends (participating all : bool) :
  let feed := replicate 60 (sample "1" "Fix bug") in
  let got := getNotifications_direct (short_pages_env feed) 100 participating all
               "" "" empty_state in
  fst got = Ret (Ok (take 30 feed))
  /\ requests (snd got) = [GET 1 participating all].
Proof. split; reflexivity. Qed.




(* ===================================================================== *)
(** * Further properties: strings *)
(* ===================================================================== *)

Lemma string_append_assoc (x y z : string) : (x +:+ y) +:+ z = x +:+ (y +:+ z).
Proof.
  induction x as [|c x IH]; [reflexivity |].
  change (String c ((x +:+ y) +:+ z) = String c (x +:+ (y +:+ z))).
  now rewrite IH.
Qed.

Lemma string_append_nil_r (x : string) : x +:+ "" = x.
Proof.
  induction x as [|c x IH]; [reflexivity |].
  change (String c (x +:+ "") = String c x). now rewrite IH.
Qed.

Lemma string_take_append (x y : string) :
  string_take (String.length x) (x +:+ y) = x.
Proof.
  induction x as [|c x IH]; [destruct y; reflexivity |].
  change (String c (string_take (String.length x) (x +:+ y)) = String c x).
  now rewrite IH.
Qed.

(** X1: [abbreviate] is idempotent: what it returns it returns unchanged,
    although a string it has cut takes [max+2] bytes, two more than the
    limit, since the ellipsis takes three. *)
Theorem abbreviate_idempotent (s : string) (max : Z) :
  abbreviate (abbreviate s max) max = abbreviate s max
  /\ (1 < max -> max < len s -> len (abbreviate s max) = max + 2).
Proof.
  unfold abbreviate.
  destruct ((max <=? 1) || (len s <=? max)) eqn:Hkeep.
  - rewrite Hkeep. split; [reflexivity |].
    intros H1 H2. apply orb_true_iff in Hkeep as [H | H]; apply Z.leb_le in H; lia.
  - pose proof (abbreviate_slice_in_range s max Hkeep) as Hrange.
    apply orb_false_iff in Hkeep as [H1 H2]. apply Z.leb_gt in H1, H2.
    assert (Hcut : String.length (slice_to s (max - 1)) = Z.to_nat (max - 1)).
    { unfold slice_to, len in *. apply string_take_length. lia. }
    assert (Hlen : len (slice_to s (max - 1) +:+ ellipsis) = max + 2).
    { unfold len. rewrite string_length_append, Hcut.
      change (String.length ellipsis) with 3%nat. lia. }
    split; [| intros _ _; exact Hlen].
    rewrite Hlen.
    destruct (Z.leb_spec max 1); [lia |].
    destruct (Z.leb_spec (max + 2) max); [lia |]. cbn [orb].
    f_equal. unfold slice_to at 1. rewrite <- Hcut. apply string_take_append.
Qed.

(** Cutting two bytes more than the limit, at "hello world" and 5. *)
Lemma abbreviate_idempotent_witness :
  len (abbreviate "hello world" 5) = 5 + 2.
Proof.
  destruct (abbreviate_idempotent "hello world" 5) as (_ & Hlen).
  apply Hlen; evaluate.
Defined.

(** ** The last path component *)

Lemma last_segment_split (s acc : string) :
  last (split_from "/" s acc) = Some (last_segment s acc).
Proof.
  revert acc. induction s as [|c s IH]; intros acc; [reflexivity |].
  cbn [split_from last_segment]. destruct (Ascii.eqb c "/").
  - rewrite last_cons, IH. reflexivity.
  - apply IH.
Qed.

Lemma contains_slash_cons (c : ascii) (s : string) :
  strings_Contains (String c s) "/"
  = Ascii.eqb c "/" || strings_Contains s "/".
Proof.
  cbn [strings_Contains String.prefix].
  destruct (Ascii.ascii_dec "/" c) as [<- | Hne].
  - destruct s; reflexivity.
  - destruct (Ascii.eqb_spec c "/"); [congruence | reflexivity].
Qed.

Lemma contains_slash_append (x y : string) :
  strings_Contains (x +:+ y) "/"
  = strings_Contains x "/" || strings_Contains y "/".
Proof.
  induction x as [|c x IH]; [reflexivity |].
  change (String c x +:+ y) with (String c (x +:+ y)).
  rewrite !contains_slash_cons, IH. now rewrite orb_assoc.
Qed.

Lemma last_segment_no_slash (s acc : string) :
  strings_Contains acc "/" = false ->
  strings_Contains (last_segment s acc) "/" = false.
Proof.
  revert acc. induction s as [|c s IH]; intros acc Hacc; [exact Hacc |].
  cbn [last_segment]. destruct (Ascii.eqb c "/") eqn:Hc.
  - apply IH. reflexivity.
  - apply IH. rewrite contains_slash_append, Hacc, contains_slash_cons, Hc.
    reflexivity.
Qed.

Lemma last_segment_cut (s acc : string) :
  exists dir,
    acc +:+ s = dir +:+ last_segment s acc
    /\ (dir = "" \/ exists d, dir = d +:+ "/").
Proof.
  revert acc. induction s as [|c s IH]; intros acc.
  - exists "". split; [apply string_append_nil_r | left; reflexivity].
  - cbn [last_segment]. destruct (Ascii.eqb_spec c "/") as [-> | Hne].
    + destruct (IH "") as (dir & Hcut & Hdir).
      change ("" +:+ s) with s in Hcut.
      exists (acc +:+ "/" +:+ dir). split.
      * rewrite !string_append_assoc. rewrite <- Hcut. reflexivity.
      * right. destruct Hdir as [-> | [d ->]].
        -- exists acc. now rewrite string_append_nil_r.
        -- exists (acc +:+ "/" +:+ d). now rewrite !string_append_assoc.
    + destruct (IH (acc +:+ String c "")) as (dir & Hcut & Hdir).
      exists dir. split; [| exact Hdir].
      rewrite <- Hcut, string_append_assoc. reflexivity.
Qed.

Lemma last_segment_whole (s acc : string) :
  strings_Contains s "/" = false -> last_segment s acc = acc +:+ s.
Proof.
  revert acc. induction s as [|c s IH]; intros acc Hs.
  - symmetry. apply string_append_nil_r.
  - rewrite contains_slash_cons in Hs. apply orb_false_iff in Hs as [Hc Hs].
    cbn [last_segment]. rewrite Hc, IH by exact Hs.
    now rewrite string_append_assoc.
Qed.

Lemma last_segment_after_slash (x y acc : string) :
  last_segment (x +:+ "/" +:+ y) acc = last_segment y "".
Proof.
  revert acc. induction x as [|c x IH]; intros acc; [reflexivity |].
  change (String c x +:+ "/" +:+ y) with (String c (x +:+ "/" +:+ y)).
  cbn [last_segment]. destruct (Ascii.eqb c "/"); apply IH.
Qed.

(** X2: [lastPathComponent url] is the last piece of [url] split at the
    slashes.  It holds no slash; [url] is it, or a prefix that ends with
    a slash followed by it; and it is [seg] for every [dir/seg] whose
    [seg] holds no slash. *)
Theorem lastPathComponent_spec (url : string) :
  last (strings_Split url "/") = Some (lastPathComponent url)
  /\ strings_Contains (lastPathComponent url) "/" = false
  /\ (exists dir,
        url = dir +:+ lastPathComponent url
        /\ (dir = "" \/ exists d, dir = d +:+ "/"))
  /\ (forall dir seg,
        url = dir +:+ "/" +:+ seg ->
        strings_Contains seg "/" = false ->
        lastPathComponent url = seg).
Proof.
  assert (Hdef : lastPathComponent url = last_segment url "").
  { unfold lastPathComponent. destruct url; reflexivity. }
  rewrite Hdef. split; [apply last_segment_split |].
  split; [apply last_segment_no_slash; reflexivity |].
  split; [apply (last_segment_cut url "") |].
  intros dir seg -> Hseg.
  rewrite last_segment_after_slash. apply last_segment_whole. exact Hseg.
Qed.

(** The number at the end of a comment URL. *)
Lemma lastPathComponent_spec_witness :
  lastPathComponent "https://api.github.com/repos/o/r/issues/comments/42" = "42".
Proof.
  destruct (lastPathComponent_spec
              "https://api.github.com/repos/o/r/issues/comments/42")
    as (_ & _ & _ & Hseg).
  apply (Hseg "https://api.github.com/repos/o/r/issues/comments" "42");
    reflexivity.
Defined.

(* ===================================================================== *)
(** * Further properties: the navigation model *)
(* ===================================================================== *)

Lemma is_case_spec (key : string) (labels : list string) :
  is_case key labels = true <-> In key labels.
Proof.
  unfold is_case. rewrite existsb_exists. split.
  - intros (l & Hin & Heq). apply String.eqb_eq in Heq. now subst.
  - intros Hin. exists key. split; [exact Hin | apply String.eqb_refl].
Qed.

(** X3: What a message can do.  [Update] never changes the list and moves
    the cursor by one at most; it returns [tea.Quit] for the keys
    [ctrl+c], [esc] and [q] and for nothing else, leaving the model as it
    is; a window size sets the width and the height and nothing else, and
    no other message changes them. *)
Theorem Update_effects (m : Model) (msg : Msg) :
  let m' := fst (Update m msg) in
  notifications m' = notifications m
  /\ cursor m - 1 <= cursor m' <= cursor m + 1
  /\ (snd (Update m msg) = Quit
      <-> exists key, msg = KeyMsg key /\ In key ["ctrl+c"; "esc"; "q"])
  /\ (snd (Update m msg) = Quit -> m' = m)
  /\ (forall w h, msg = WindowSizeMsg w h ->
        width m' = w /\ height m' = h /\ cursor m' = cursor m
        /\ showPreview m' = showPreview m /\ showHelp m' = showHelp m)
  /\ ((forall w h, msg <> WindowSizeMsg w h) ->
      width m' = width m /\ height m' = height m).
Proof.
  cbv zeta. split; [apply Update_notifications |].
  assert (Hgoal : forall p : Model * Cmd,
             snd p = NoCmd ->
             (forall key, msg = KeyMsg key -> ~ In key ["ctrl+c"; "esc"; "q"]) ->
             cursor m - 1 <= cursor (fst p) <= cursor m + 1 ->
             (forall w h, msg = WindowSizeMsg w h ->
                width (fst p) = w /\ height (fst p) = h
                /\ cursor (fst p) = cursor m
                /\ showPreview (fst p) = showPreview m
                /\ showHelp (fst p) = showHelp m) ->
             ((forall w h, msg <> WindowSizeMsg w h) ->
              width (fst p) = width m /\ height (fst p) = height m) ->
             cursor m - 1 <= cursor (fst p) <= cursor m + 1
             /\ (snd p = Quit
                 <-> exists key, msg = KeyMsg key /\ In key ["ctrl+c"; "esc"; "q"])
             /\ (snd p = Quit -> fst p = m)
             /\ (forall w h, msg = WindowSizeMsg w h ->
                   width (fst p) = w /\ height (fst p) = h
                   /\ cursor (fst p) = cursor m
                   /\ showPreview (fst p) = showPreview m
                   /\ showHelp (fst p) = showHelp m)
             /\ ((forall w h, msg <> WindowSizeMsg w h) ->
                 width (fst p) = width m /\ height (fst p) = height m)).
  { intros p Hcmd Hkeys Hcur Hsize Hother.
    split; [exact Hcur |]. split; [| split; [| split; [exact Hsize | exact Hother]]].
    - rewrite Hcmd. split; [discriminate |].
      intros (key & Hmsg & Hin). exfalso. now apply (Hkeys key Hmsg).
    - rewrite Hcmd. discriminate. }
  destruct msg as [w h | key |]; unfold Update.
  - apply Hgoal; cbn [fst snd cursor width height showPreview showHelp];
      try reflexivity; try lia; try discriminate.
    + intros w' h' [= <- <-]. auto.
    + intros Hno. now destruct (Hno w h).
  - destruct (is_case key ["ctrl+c"; "esc"; "q"]) eqn:Hquit.
    { apply is_case_spec in Hquit. cbn [fst snd].
      split; [lia |]. split; [| split; [reflexivity | split]].
      - split; [eauto | reflexivity].
      - discriminate.
      - auto. }
    assert (Hnot : forall key0, KeyMsg key = KeyMsg key0 ->
                     ~ In key0 ["ctrl+c"; "esc"; "q"]).
    { intros key0 [= <-] Hin. apply is_case_spec in Hin. congruence. }
    repeat match goal with
           | |- context [if is_case ?k ?l then _ else _] => destruct (is_case k l)
           end;
      apply Hgoal; cbn [fst snd]; try exact Hnot; try reflexivity;
      try discriminate;
      try (intros _; repeat match goal with
                            | |- context [if ?b then _ else _] => destruct b
                            end; split; reflexivity);
      repeat match goal with
             | |- context [if ?b then _ else _] => destruct b
             end; cbn; lia.
  - apply Hgoal; cbn [fst snd]; try reflexivity; try lia; try discriminate; auto.
Qed.

(** A window size on the second of five rows. *)
Lemma Update_effects_witness :
  let m' := fst (Update (sample_model 5 2 24) (WindowSizeMsg 120 40)) in
  width m' = 120 /\ height m' = 40 /\ cursor m' = 2.
Proof.
  destruct (Update_effects (sample_model 5 2 24) (WindowSizeMsg 120 40))
    as (_ & _ & _ & _ & Hsize & _).
  destruct (Hsize 120 40 eq_refl) as (Hwidth & Hheight & Hcursor & _).
  split; [exact Hwidth |]. split; [exact Hheight | exact Hcursor].
Defined.

(** X4: The keys that show and hide: [tab] twice and [?] twice bring the
    model back, [enter] shows the preview whatever it was and a second
    [enter] changes nothing more, and a key that is none of the ten
    the switch names leaves the model as it is. *)
Theorem Update_toggles (m : Model) :
  let press := fun m key => fst (Update m (KeyMsg key)) in
  press (press m "tab") "tab" = m
  /\ press (press m "?") "?" = m
  /\ showPreview (press m "tab") = negb (showPreview m)
  /\ showHelp (press m "?") = negb (showHelp m)
  /\ showPreview (press m "enter") = true
  /\ press (press m "enter") "enter" = press m "enter"
  /\ (forall key,
        ~ In key ["ctrl+c"; "esc"; "q"; "up"; "k"; "down"; "j"; "tab"; "?"; "enter"] ->
        Update m (KeyMsg key) = (m, NoCmd)).
Proof.
  cbv zeta. destruct m as [ns c w h p hp].
  repeat split; try (cbn; now rewrite ?negb_involutive).
  intros key Hkey. unfold Update.
  repeat match goal with
         | |- context [if is_case key ?l then _ else _] =>
             let H := fresh in
             destruct (is_case key l) eqn:H;
             [apply is_case_spec in H; exfalso; apply Hkey; cbn in *; tauto |]
         end.
  reflexivity.
Qed.

(** An unknown key. *)
Lemma Update_toggles_witness :
  Update (sample_model 5 2 24) (KeyMsg "x") = (sample_model 5 2 24, NoCmd).
Proof.
  destruct (Update_toggles (sample_model 5 2 24)) as (_ & _ & _ & _ & _ & _ & Hkey).
  apply Hkey. cbn. intros H.
  repeat (destruct H as [H | H]; [discriminate H |]). exact H.
Defined.

(* ===================================================================== *)
(** * Further properties: rendering *)
(* ===================================================================== *)

Lemma index_in_bounds {A} (l : list A) (i : Z) :
  0 <= i < llen l ->
  exists x, index l i = Ret x /\ l !! Z.to_nat i = Some x.
Proof.
  intros [Hlo Hhi]. unfold index, llen in *.
  destruct (Z.leb_spec 0 i); [| lia].
  destruct (l !! Z.to_nat i) as [x |] eqn:Hx; [eauto |].
  apply lookup_ge_None in Hx. lia.
Qed.

Lemma index_out_of_bounds {A} (l : list A) (i : Z) :
  ~ 0 <= i < llen l -> index l i = Panicked "index out of range".
Proof.
  intros Hout. unfold index, llen in *.
  destruct (Z.leb_spec 0 i); [| reflexivity].
  destruct (l !! Z.to_nat i) as [x |] eqn:Hx; [| reflexivity].
  apply lookup_lt_Some in Hx. lia.
Qed.

(** The row loop over indices of the list: the rows of the records
    there. *)
Lemma View_rows_in_bounds (m : Model) (titleWidth : Z) (indices : list Z) :
  Forall (fun i => 0 <= i < llen (notifications m)) indices ->
  exists rows,
    View_rows m titleWidth indices = Ret rows
    /\ Forall2 (fun i r => exists n, notifications m !! Z.to_nat i = Some n
                                     /\ r = row_of m titleWidth i n)
         indices rows.
Proof.
  induction 1 as [| i indices Hi _ IH].
  - exists []. split; [reflexivity | constructor].
  - destruct IH as (rows & Hrows & Hall).
    destruct (index_in_bounds _ i Hi) as (n & Hn & Hlook).
    exists (row_of m titleWidth i n :: rows).
    cbn [View_rows]. unfold View_row. go_unfold. rewrite Hn, Hrows.
    split; [reflexivity |]. constructor; [eauto | exact Hall].
Qed.

(** The row loop panics at the first index off the list. *)
Lemma View_rows_out_of_bounds (m : Model) (titleWidth : Z)
  (before after : list Z) (i : Z) :
  Forall (fun i => 0 <= i < llen (notifications m)) before ->
  ~ 0 <= i < llen (notifications m) ->
  View_rows m titleWidth (before ++ i :: after) = Panicked "index out of range".
Proof.
  intros Hbefore Hout. induction Hbefore as [| j before Hj _ IH].
  - cbn [app View_rows]. unfold View_row. go_unfold.
    now rewrite (index_out_of_bounds _ i Hout).
  - destruct (index_in_bounds _ j Hj) as (n & Hn & _).
    cbn [app View_rows]. unfold View_row at 1. go_unfold. rewrite Hn.
    change (View_rows m titleWidth (before ++ i :: after)) with
      (View_rows m titleWidth (before ++ i :: after)).
    now rewrite IH.
Qed.

Lemma View_window_holds_cursor (m : Model) :
  navigation_state m ->
  fst (View_window m) <= cursor m < snd (View_window m).
Proof.
  unfold navigation_state. intros Hm. rewrite View_window_cases.
  set (h := viewportHeight m). set (L := llen (notifications m)) in *.
  set (c := cursor m) in *.
  destruct (Z.gtb_spec h 0); cbn [andb]; [| cbn; lia].
  destruct (Z.gtb_spec L h); [| cbn; lia].
  unfold scroll_policy.
  pose proof (Z.div_mod h 2 ltac:(lia)) as Hdm.
  pose proof (Z.mod_pos_bound h 2 ltac:(lia)) as Hmod.
  destruct (Z.ltb_spec c (h / 2)); [cbn; lia |].
  destruct (Z.gtb_spec c (L - h / 2)); cbn; lia.
Qed.

(** X6: When [View] returns and what it shows, in a navigation state.  It
    panics on an index at the position where the window runs past the
    list, and on a slice bound when the help is shown in a terminal
    without a line; everywhere else it returns a frame whose rows are
    the rows of the records of the window, in order, the row of the
    cursor among them and in the selected style, with the record under
    the cursor as the preview when the preview is shown. *)
Theorem View_outcome_cases (cfg : Config) (m : Model) :
  navigation_state m ->
  let start := fst (View_window m) in
  let end_ := snd (View_window m) in
  (past_the_list m -> View cfg m = Panicked "index out of range")
  /\ (~ past_the_list m -> showHelp m = true -> height m < 1 ->
      View cfg m = Panicked "slice bounds out of range")
  /\ (~ past_the_list m -> (showHelp m = true -> 1 <= height m) ->
      exists frame,
        View cfg m = Ret frame
        /\ Forall2 (fun i r =>
                      exists n, notifications m !! Z.to_nat i = Some n
                                /\ r = row_of m (frame_titleWidth frame) i n)
             (seqZ start (end_ - start)) (frame_rows frame)
        /\ llen (frame_rows frame) = end_ - start
        /\ Exists (fun r => row_number r = cursor m + 1
                            /\ row_style r = selectedStyle) (frame_rows frame)
        /\ frame_preview frame
           = (if showPreview m then notifications m !! Z.to_nat (cursor m) else None)
        /\ (frame_help frame = None <-> showHelp m = false)).
Proof.
  intros Hnav start end_.
  pose proof (View_window_bounds m Hnav) as [Hstart Hpast]. cbv zeta in Hpast.
  pose proof (View_window_holds_cursor m Hnav) as Hcur.
  fold start end_ in Hstart, Hpast, Hcur.
  assert (Hpast' : end_ > llen (notifications m) <-> past_the_list m) by exact Hpast.
  clear Hpast.
  destruct (index_in_bounds _ _ Hnav) as (under & Hunder & Hlook).
  assert (Hwin : View_window m = (start, end_)) by (subst start end_; now destruct (View_window m)).
  unfold View. rewrite Hwin. cbv zeta.
  set (titleWidth := max (width m - (len (fmt_d (llen (notifications m))) + 2)
                          - repoWidth - typeWidth - reasonWidth - stateWidth - 10) 8).
  go_unfold.
  split; [| split].
  - (* past the list *)
    intros Hp. apply Hpast' in Hp.
    assert (Hsplit : seqZ start (end_ - start)
                     = seqZ start (llen (notifications m) - start)
                       ++ llen (notifications m)
                          :: seqZ (llen (notifications m) + 1)
                               (end_ - llen (notifications m) - 1)).
    { unfold navigation_state in Hnav.
      replace (end_ - start)
        with ((llen (notifications m) - start) + (end_ - llen (notifications m)))
        by lia.
      rewrite seqZ_app by lia. f_equal.
      rewrite seqZ_cons by lia. f_equal; [lia |]. f_equal; lia. }
    rewrite Hsplit, View_rows_out_of_bounds; [reflexivity | | lia].
    apply Forall_forall. intros i Hi. apply elem_of_seqZ in Hi. lia.
  - (* help without a line *)
    intros Hp Hhelp Hheight.
    destruct (View_rows_in_bounds m titleWidth (seqZ start (end_ - start)))
      as (rows & -> & _).
    { apply Forall_forall. intros i Hi. apply elem_of_seqZ in Hi.
      assert (~ end_ > llen (notifications m)) by (rewrite Hpast'; exact Hp). lia. }
    rewrite Hhelp.
    destruct (showPreview m && (llen (notifications m) >? 0)); rewrite ?Hunder;
      destruct (Z.ltb_spec (height m - 1) 0); try lia; reflexivity.
  - (* a frame *)
    intros Hp Hhelp.
    destruct (View_rows_in_bounds m titleWidth (seqZ start (end_ - start)))
      as (rows & -> & Hrows).
    { apply Forall_forall. intros i Hi. apply elem_of_seqZ in Hi.
      assert (~ end_ > llen (notifications m)) by (rewrite Hpast'; exact Hp). lia. }
    assert (Hlen : llen rows = end_ - start).
    { unfold llen. rewrite <- (Forall2_length _ _ _ Hrows), length_seqZ. lia. }
    assert (Hsel : Exists (fun r => row_number r = cursor m + 1
                                    /\ row_style r = selectedStyle) rows).
    { assert (Hi : seqZ start (end_ - start) !! Z.to_nat (cursor m - start)
                   = Some (cursor m)).
      { rewrite lookup_seqZ. split; lia. }
      destruct (Forall2_lookup_l _ _ _ _ _ Hrows Hi) as (r & Hr & n & _ & ->).
      apply Exists_exists. exists (row_of m titleWidth (cursor m) n).
      split; [eapply list_elem_of_lookup_2; exact Hr |].
      unfold row_of. cbn. rewrite Z.eqb_refl. split; reflexivity. }
    assert (Hpreview :
              (if showPreview m && (llen (notifications m) >? 0)
               then match index (notifications m) (cursor m) with
                    | Ret a => Ret (Some a)
                    | Exited code => Exited code
                    | Panicked what => Panicked what
                    | Unfinished => Unfinished
                    end
               else Ret None)
              = Ret (if showPreview m
                     then notifications m !! Z.to_nat (cursor m) else None)).
    { unfold navigation_state in Hnav.
      destruct (showPreview m); cbn [andb]; [| reflexivity].
      destruct (Z.gtb_spec (llen (notifications m)) 0); [| lia].
      now rewrite Hunder, Hlook. }
    rewrite Hpreview.
    destruct (showHelp m) eqn:Hshow.
    + destruct (Z.ltb_spec (height m - 1) 0); [specialize (Hhelp eq_refl); lia |].
      eexists. split; [reflexivity |]. cbn.
      repeat split; try assumption; discriminate.
    + eexists. split; [reflexivity |]. cbn.
      repeat split; try assumption; reflexivity.
Qed.

(** A scrolled window away from the end: rows 3 to 7 of ten. *)
Lemma View_outcome_cases_witness :
  exists frame,
    View (sample_cfg true) (sample_model 10 5 8) = Ret frame
    /\ llen (frame_rows frame) = 5
    /\ Exists (fun r => row_number r = 6 /\ row_style r = selectedStyle)
         (frame_rows frame).
Proof.
  destruct (View_outcome_cases (sample_cfg true) (sample_model 10 5 8))
    as (_ & _ & Hframe).
  - evaluate.
  - destruct Hframe as (frame & Hview & _ & Hlen & Hsel & _).
    + intros (_ & _ & H). vm_compute in H. discriminate H.
    + intros H. discriminate H.
    + exists frame. split; [exact Hview |]. split; [exact Hlen | exact Hsel].
Defined.

Lemma View_plain_rows_lookup (m : Model) (notifs : list Notification) (i : Z) (k : nat) :
  View_plain_rows m i notifs !! k
  = (fun n => {| row_marker := if cursor m =? i + Z.of_nat k then "▶ " else "  ";
                 row_number := i + Z.of_nat k + 1;
                 row_repo := abbreviate (FullName (Repo n)) 22;
                 row_type := abbreviate (Type_ (Subj n)) 12;
                 row_reason := abbreviate (Reason n) 12;
                 row_title := abbreviate (Title (Subj n)) (max (width m - 70) 8);
                 row_state := if Unread n then "UNREAD" else "READ";
                 row_style := if cursor m =? i + Z.of_nat k then selectedStyle
                              else if Unread n then unreadStyle else readStyle |})
    <$> notifs !! k.
Proof.
  revert i k. induction notifs as [| n rest IH]; intros i k; [reflexivity |].
  destruct k as [| k]; cbn [View_plain_rows lookup].
  - cbn. now rewrite Z.add_0_r.
  - cbn. rewrite IH.
    replace (i + 1 + Z.of_nat k) with (i + Z.pos (Pos.of_succ_nat k)) by lia.
    reflexivity.
Qed.

Lemma View_plain_rows_length (m : Model) (notifs : list Notification) (i : Z) :
  length (View_plain_rows m i notifs) = length notifs.
Proof.
  revert i. induction notifs as [| n rest IH]; intros i; [reflexivity |].
  cbn [View_plain_rows length]. now rewrite IH.
Qed.

(** In a navigation state the view of [main.go] returns. *)
Lemma View_plain_returns (m : Model) :
  navigation_state m ->
  View_plain m
  = Ret {| plain_padding := max (width m - 70) 0;
           plain_titleWidth := max (width m - 70) 8;
           plain_rows := View_plain_rows m 0 (notifications m);
           plain_preview :=
             if showPreview m then notifications m !! Z.to_nat (cursor m) else None;
           plain_help :=
             if showHelp m
             then Some "↑/↓: Move  Enter/Tab: Preview  ?: Toggle Help  q/esc: Quit"
             else None |}.
Proof.
  intros Hnav.
  destruct (index_in_bounds _ _ Hnav) as (under & Hunder & Hlook).
  unfold View_plain. go_unfold. unfold navigation_state in Hnav.
  destruct (showPreview m); cbn [andb]; [| reflexivity].
  destruct (Z.gtb_spec (llen (notifications m)) 0); [| lia].
  now rewrite Hunder, Hlook.
Qed.

(** X7: The view of [main.go] in a navigation state: it returns a frame
    with one row for every record, in the order of the list and
    numbered from 1, the row of the cursor, and no other, in the
    selected style; the preview, when shown, is the record under the
    cursor.  Unlike the scrolling view it has no position where it
    panics. *)
Theorem View_plain_shows_every_row (m : Model) :
  navigation_state m ->
  exists frame,
    View_plain m = Ret frame
    /\ length (plain_rows frame) = length (notifications m)
    /\ (forall k r, plain_rows frame !! k = Some r ->
          row_number r = Z.of_nat k + 1
          /\ (row_style r = selectedStyle <-> Z.of_nat k = cursor m)
          /\ exists n, notifications m !! k = Some n
                       /\ row_title r = abbreviate (Title (Subj n)) (plain_titleWidth frame)
                       /\ row_state r = (if Unread n then "UNREAD" else "READ"))
    /\ plain_preview frame
       = (if showPreview m then notifications m !! Z.to_nat (cursor m) else None)
    /\ 8 <= plain_titleWidth frame.
Proof.
  intros Hnav. eexists. split; [apply (View_plain_returns m Hnav) |]. cbn.
  split; [apply View_plain_rows_length |]. split; [| split].
  - intros k r Hr. rewrite View_plain_rows_lookup in Hr.
    destruct (notifications m !! k) as [n |] eqn:Hn; [| discriminate Hr].
    cbn in Hr. injection Hr as <-. cbn. rewrite !Z.add_0_l.
    split; [reflexivity |]. split.
    + destruct (Z.eqb_spec (cursor m) (Z.of_nat k)) as [-> | Hne].
      * split; reflexivity.
      * split; [destruct (Unread n); discriminate | intros H; now symmetry in H].
    + exists n. repeat split.
  - reflexivity.
  - unfold max. destruct (Z.gtb_spec (width m - 70) 8); lia.
Qed.

(** Three records with the cursor on the second. *)
Lemma View_plain_shows_every_row_witness :
  exists frame,
    View_plain (sample_model 3 1 24) = Ret frame
    /\ length (plain_rows frame) = 3%nat.
Proof.
  destruct (View_plain_shows_every_row (sample_model 3 1 24))
    as (frame & Hview & Hlen & _).
  - evaluate.
  - exists frame. split; [exact Hview | exact Hlen].
Defined.

(** X8: The interactive program of [main.go] cannot be made to panic.
    From the model [Run] starts with, on a list that is not empty,
    after any keys, window sizes and other messages, the list is the
    one fetched, the cursor is on one of its rows, and the view returns
    a frame with a row for every record. *)
Theorem session_view_plain_returns (notifs : list Notification) (msgs : list Msg) :
  notifs <> [] ->
  let m := foldl (fun m msg => fst (Update m msg)) (NewModel notifs) msgs in
  notifications m = notifs
  /\ 0 <= cursor m < llen notifs
  /\ exists frame,
       View_plain m = Ret frame
       /\ length (plain_rows frame) = length notifs.
Proof.
  intros Hne. cbv zeta.
  assert (Hstart : notifications (NewModel notifs) = notifs
                   /\ session_model (NewModel notifs))
    by (split; [reflexivity | now constructor]).
  revert Hstart. generalize (NewModel notifs) as m.
  induction msgs as [|msg msgs IH]; intros m [Hlist Hsession]; cbn [foldl].
  - pose proof (session_model_navigation_state m Hsession) as Hnav.
    split; [exact Hlist |]. split; [unfold navigation_state in Hnav; now rewrite <- Hlist |].
    eexists. split; [apply (View_plain_returns m Hnav) |].
    cbn. now rewrite View_plain_rows_length, Hlist.
  - apply IH. split; [now rewrite Update_notifications | now constructor].
Qed.

(** Ten presses of [down] in a list of three, the preview shown. *)
Lemma session_view_plain_returns_witness :
  let m := foldl (fun m msg => fst (Update m msg)) (NewModel sample_titles)
             (KeyMsg "tab" :: replicate 10 (KeyMsg "down")) in
  notifications m = sample_titles
  /\ exists frame, View_plain m = Ret frame /\ length (plain_rows frame) = 3%nat.
Proof.
  assert (Hne : sample_titles <> []) by discriminate.
  destruct (session_view_plain_returns sample_titles
              (KeyMsg "tab" :: replicate 10 (KeyMsg "down")) Hne)
    as (Hlist & _ & Hview).
  split; [exact Hlist | exact Hview].
Defined.

(* ===================================================================== *)
(** * Further properties: the cache store *)
(* ===================================================================== *)

Lemma string_append_last (s t : string) (a b : ascii) :
  s +:+ String a "" = t +:+ String b "" -> s = t /\ a = b.
Proof.
  revert t. induction s as [| c s IH]; intros [| d t] Heq.
  - injection Heq as ->. split; reflexivity.
  - change (String a "" = String d (t +:+ String b "")) in Heq.
    injection Heq as _ Heq. destruct t; discriminate Heq.
  - change (String c (s +:+ String a "") = String b "") in Heq.
    injection Heq as _ Heq. destruct s; discriminate Heq.
  - change (String c (s +:+ String a "") = String d (t +:+ String b "")) in Heq.
    injection Heq as -> Heq. destruct (IH t Heq) as [-> ->]. split; reflexivity.
Qed.

Lemma fmt_t_inj_append (x y : string) (a b : bool) :
  x +:+ "_" +:+ fmt_t a = y +:+ "_" +:+ fmt_t b -> x = y /\ a = b.
Proof.
  intros Heq. destruct a, b; cbn [fmt_t] in Heq.
  - split; [| reflexivity]. now apply string_append_inj_r in Heq.
  - exfalso.
    change (x +:+ ("_tru" +:+ "e") = y +:+ ("_fals" +:+ "e")) in Heq.
    rewrite <- !string_append_assoc in Heq.
    apply string_append_last in Heq as [Heq _].
    change (x +:+ ("_tr" +:+ "u") = y +:+ ("_fal" +:+ "s")) in Heq.
    rewrite <- !string_append_assoc in Heq.
    apply string_append_last in Heq as [_ Heq]. discriminate Heq.
  - exfalso.
    change (x +:+ ("_fals" +:+ "e") = y +:+ ("_tru" +:+ "e")) in Heq.
    rewrite <- !string_append_assoc in Heq.
    apply string_append_last in Heq as [Heq _].
    change (x +:+ ("_fal" +:+ "s") = y +:+ ("_tr" +:+ "u")) in Heq.
    rewrite <- !string_append_assoc in Heq.
    apply string_append_last in Heq as [_ Heq]. discriminate Heq.
  - split; [| reflexivity]. now apply string_append_inj_r in Heq.
Qed.

Lemma cachePath_inj (cfg : Config) (key key' : string) :
  cachePath cfg key = cachePath cfg key' -> key = key'.
Proof.
  unfold cachePath. intros Heq. do 2 apply String.app_inj in Heq.
  now apply string_append_inj_r in Heq.
Qed.

Lemma cachePath_not_tmp (cfg : Config) (key key' : string) :
  cachePath cfg key' <> cachePath cfg key +:+ ".tmp".
Proof.
  unfold cachePath. intros Heq.
  rewrite !string_append_assoc in Heq.
  do 2 apply String.app_inj in Heq.
  change (key' +:+ (".jso" +:+ "n") = key +:+ (".json.tm" +:+ "p")) in Heq.
  rewrite <- !string_append_assoc in Heq.
  apply string_append_last in Heq as [_ Heq]. discriminate Heq.
Qed.

Lemma cacheKey_inj (p q : Z) (a b a' b' : bool) :
  cacheKey p a b = cacheKey q a' b' -> p = q /\ a = a' /\ b = b'.
Proof.
  unfold cacheKey. intros Heq. apply String.app_inj in Heq.
  rewrite <- (string_append_assoc "_" (fmt_t a)) in Heq.
  rewrite <- (string_append_assoc "_" (fmt_t a')) in Heq.
  rewrite <- (string_append_assoc (fmt_d p)) in Heq.
  rewrite <- (string_append_assoc (fmt_d q)) in Heq.
  apply fmt_t_inj_append in Heq as [Heq ->].
  apply fmt_t_inj_append in Heq as [Heq ->].
  apply fmt_d_inj in Heq. auto.
Qed.

(** X9: The files of the cache are told apart by what they cache: two
    listings that differ in the page or in one of the two flags have
    two cache files, neither of which is the temporary file of a store
    under any key. *)
Theorem cache_files_distinct (cfg : Config) (p q : Z) (a b a' b' : bool) :
  (cachePath cfg (cacheKey p a b) = cachePath cfg (cacheKey q a' b')
   <-> p = q /\ a = a' /\ b = b')
  /\ (forall key, cachePath cfg (cacheKey p a b) <> cachePath cfg key +:+ ".tmp").
Proof.
  split; [split |].
  - intros Heq. apply cachePath_inj in Heq. now apply cacheKey_inj.
  - intros (-> & -> & ->). reflexivity.
  - intros key. apply cachePath_not_tmp.
Qed.

(** X10: A lookup in the cache only reads: it returns, makes no request and
    prints nothing on standard output; it writes no file, and the one
    file it may remove is the file of its key, which it removes only on
    a miss; a hit leaves every file as it was. *)
Theorem cacheGet_only_reads {A} `{JSON A} (cfg : Config) (env : Env)
  (key : string) (s : State) :
  let got := cacheGet (A := A) cfg env key s in
  (exists r, fst got = Ret r)
  /\ requests (snd got) = requests s
  /\ stdout (snd got) = stdout s
  /\ (fs (snd got) = fs s
      \/ fst got = Ret None /\ fs (snd got) = delete (cachePath cfg key) (fs s))
  /\ (forall v, fst got = Ret (Some v) -> fs (snd got) = fs s)
  /\ (forall path, path <> cachePath cfg key -> fs (snd got) !! path = fs s !! path).
Proof.
  cbv zeta. unfold cacheGet, verbose. cbv zeta. go_unfold.
  unfold os_Open, time_Since, time_Now, os_Remove. go_unfold.
  destruct (cacheEnabled cfg); cbn [negb].
  - destruct (fs s !! cachePath cfg key) as [[bytes | entry] |] eqn:Hfile; cbn.
    + destruct (ghNotifyVerbose cfg); cbn; eauto 10.
    + destruct (_ >? _); cbn; [rewrite Hfile |];
        destruct (ghNotifyVerbose cfg); cbn;
        (split; [eauto |]); (split; [reflexivity |]); (split; [reflexivity |]);
        (split; [eauto |]); (split; [try discriminate; eauto |]);
        intros path Hne; try reflexivity; now rewrite lookup_delete_ne.
    + destruct (ghNotifyVerbose cfg); cbn; eauto 10.
  - destruct (ghNotifyVerbose cfg); cbn; eauto 10.
Qed.

(** X11: A store in the cache returns, makes no request and prints nothing
    on standard output; the entry of no other key is touched; with the
    cache on and a payload that marshals, the file of the key holds the
    payload under the second of the clock reading and no temporary file
    is left; with the cache off, or a payload that does not marshal, no
    file changes. *)
Theorem cacheSet_footprint {A} `{JSON A} (cfg : Config) (env : Env)
  (key : string) (v : A) (s : State) :
  let s' := snd (cacheSet cfg env key v s) in
  fst (cacheSet cfg env key v s) = Ret tt
  /\ requests s' = requests s
  /\ stdout s' = stdout s
  /\ (forall key', key' <> key ->
        fs s' !! cachePath cfg key' = fs s !! cachePath cfg key')
  /\ (forall data, cacheEnabled cfg = true -> json_Marshal v = Some data ->
        fs s' !! cachePath cfg key
        = Some (Encoded {| Timestamp := Unix (clock env (clock_reads s));
                           Data := Some data |})
        /\ fs s' !! (cachePath cfg key +:+ ".tmp") = None)
  /\ (cacheEnabled cfg = false \/ json_Marshal v = None -> fs s' = fs s).
Proof.
  cbv zeta.
  destruct (cacheEnabled cfg) eqn:Hon.
  - destruct (json_Marshal v) as [data |] eqn:Hdata.
    + destruct (cacheSet_enabled cfg env key v data s Hon Hdata)
        as (s' & -> & Hfs & _ & Hreq & Hout).
      cbn [fst snd]. split; [reflexivity |]. split; [exact Hreq |].
      split; [exact Hout |]. rewrite Hfs. split; [| split].
      * intros key' Hne.
        rewrite lookup_insert_ne by (intros Heq; apply cachePath_inj in Heq; congruence).
        apply lookup_delete_ne. intros Heq. symmetry in Heq.
        now apply cachePath_not_tmp in Heq.
      * intros data' _ [= <-]. split; [apply lookup_insert_eq |].
        rewrite lookup_insert_ne.
        -- apply lookup_delete_eq.
        -- intros Heq. apply (f_equal String.length) in Heq.
           rewrite string_length_append in Heq. cbn in Heq. lia.
      * intros [Hoff | Hnone]; discriminate.
    + unfold cacheSet, verbose. rewrite Hon, Hdata. cbn [negb].
      destruct (ghNotifyVerbose cfg); cbn; repeat split; auto; intros; discriminate.
  - destruct (cacheSet_disabled cfg env key v s Hon) as (s' & -> & Hfs & Hreq & Hout).
    cbn [fst snd]. rewrite Hfs. repeat split; auto; intros; discriminate.
Qed.

(** The entry of another key, through a lookup that removes its own. *)
Lemma cacheGet_only_reads_witness :
  let cfg := sample_cfg true in
  let env := sample_env true [] in
  let entry := Encoded {| Timestamp := 600; Data := None |} in
  let s := set_fs (<[cachePath cfg "other" := entry]>
                     {[ cachePath cfg "notifs_1_false_false" := entry ]})
                  empty_state in
  fs (snd (cacheGet (A := list Notification) cfg env "notifs_1_false_false" s))
    !! cachePath cfg "other"
  = Some entry.
Proof.
  cbv zeta.
  match goal with
  | |- fs (snd (cacheGet ?cfg ?env ?key ?s)) !! _ = _ =>
      destruct (cacheGet_only_reads (A := list Notification) cfg env key s)
        as (_ & _ & _ & _ & _ & Hother)
  end.
  rewrite Hother; [reflexivity | discriminate].
Defined.

(** A store under one key beside the entry of another. *)
Lemma cacheSet_footprint_witness :
  let cfg := sample_cfg true in
  let env := sample_env true [] in
  let s' := snd (cacheSet cfg env "notifs_1_false_false" sample_titles empty_state) in
  fs s' !! cachePath cfg "notifs_1_false_false"
  = Some (Encoded {| Timestamp := 1000;
                     Data := Some (JArray (map marshal_Notification sample_titles)) |})
  /\ fs s' !! (cachePath cfg "notifs_1_false_false" +:+ ".tmp") = None.
Proof.
  cbv zeta.
  destruct (cacheSet_footprint (sample_cfg true) (sample_env true [])
              "notifs_1_false_false" sample_titles empty_state)
    as (_ & _ & _ & _ & Hstored & _).
  apply (Hstored (JArray (map marshal_Notification sample_titles)));
    reflexivity.
Defined.

(* ===================================================================== *)
(** * Further properties: one page *)
(* ===================================================================== *)

Lemma verbose_state (cfg : Config) (d : diagnostic) (s : State) :
  exists s', verbose cfg d s = (Ret tt, s')
             /\ fs s' = fs s /\ requests s' = requests s
             /\ stdout s' = stdout s /\ clock_reads s' = clock_reads s.
Proof.
  unfold verbose. destruct (ghNotifyVerbose cfg); eexists; split; try reflexivity;
    cbn; auto.
Qed.

Section PageFacts.

Context (cfg : Config) (env : Env).

(** What a lookup leaves of the state, with the clock. *)
Lemma cacheGet_state {A} `{JSON A} (key : string) (s : State) :
  exists r s', cacheGet (A := A) cfg env key s = (Ret r, s')
               /\ requests s' = requests s /\ stdout s' = stdout s
               /\ (clock_reads s <= clock_reads s')%nat.
Proof.
  unfold cacheGet, verbose. cbv zeta. go_unfold.
  unfold os_Open, time_Since, time_Now, os_Remove. go_unfold.
  destruct (cacheEnabled cfg); cbn [negb].
  - destruct (fs s !! cachePath cfg key) as [[bytes | entry] |] eqn:Hfile; cbn.
    + destruct (ghNotifyVerbose cfg); do 2 eexists; (split; [reflexivity |]); cbn; auto.
    + destruct (_ >? _); cbn; [rewrite Hfile |];
        destruct (ghNotifyVerbose cfg); do 2 eexists;
        (split; [reflexivity |]); cbn; auto.
    + destruct (ghNotifyVerbose cfg); do 2 eexists; (split; [reflexivity |]); cbn; auto.
  - destruct (ghNotifyVerbose cfg); do 2 eexists; (split; [reflexivity |]); cbn; auto.
Qed.

Lemma cacheSet_state {A} `{JSON A} (key : string) (v : A) (s : State) :
  exists s', cacheSet cfg env key v s = (Ret tt, s')
             /\ requests s' = requests s /\ stdout s' = stdout s.
Proof.
  destruct (cacheEnabled cfg) eqn:Hon.
  - destruct (json_Marshal v) as [data |] eqn:Hdata.
    + destruct (cacheSet_enabled cfg env key v data s Hon Hdata)
        as (s' & Hset & _ & _ & Hreq & Hout).
      now exists s'.
    + unfold cacheSet, verbose. rewrite Hon, Hdata. cbn [negb].
      destruct (ghNotifyVerbose cfg); eexists; split; try reflexivity; cbn; auto.
  - destruct (cacheSet_disabled cfg env key v s Hon) as (s' & Hset & _ & Hreq & Hout).
    now exists s'.
Qed.

(** [getNotifs] makes at most one request, the GET of its page. *)
Lemma getNotifs_requests (pageNum : Z) (participating all : bool) (s : State) :
  let got := getNotifs cfg env pageNum participating all s in
  returns_or_exits (fst got)
  /\ stdout (snd got) = stdout s
  /\ (requests (snd got) = requests s
      \/ requests (snd got) = requests s ++ [GET pageNum participating all]).
Proof.
  cbv zeta. unfold getNotifs. cbv zeta. go_unfold.
  destruct (cacheGet_state (A := list Notification)
              (cacheKey pageNum participating all) s)
    as (r & s1 & -> & Hreq1 & Hout1 & _).
  destruct r as [notifs |].
  - destruct (verbose_returns cfg (LogApiFromCache pageNum) s1)
      as (s2 & -> & _ & Hreq2 & Hout2).
    cbn. split; [exact I |]. split; [congruence | left; congruence].
  - unfold ghRestApiClient, die, client_Get, record_request, print_stderr, os_Exit.
    go_unfold.
    destruct (rest_client env); cbn; [split; [exact I |]; split; auto |].
    destruct (verbose_returns cfg (LogApiFetching pageNum) s1)
      as (s2 & -> & _ & Hreq2 & Hout2).
    cbn. destruct (remote_Get env pageNum participating all) as [notifs | e].
    + match goal with
      | |- context [cacheSet cfg env ?k ?v ?st] =>
          destruct (cacheSet_state k v st) as (s3 & -> & Hreq3 & Hout3)
      end.
      cbn in *. split; [exact I |]. split; [congruence | right; congruence].
    + cbn. split; [exact I |]. split; [congruence | right; congruence].
Qed.

End PageFacts.

(** A miss on which nothing is decoded. *)
Lemma cacheGet_no_usable_entry (cfg : Config) (env : Env) (key : string) (s : State) :
  cacheEnabled cfg = true ->
  no_usable_entry cfg env key s ->
  fst (cacheGet (A := list Notification) cfg env key s) = Ret None.
Proof.
  intros Hon Hnone. unfold no_usable_entry in Hnone.
  destruct (fs s !! cachePath cfg key) as [[bytes | entry] |] eqn:Hfile.
  - unfold cacheGet, verbose. rewrite Hon. cbn [negb]. cbv zeta. go_unfold.
    unfold os_Open. rewrite Hfile. destruct (ghNotifyVerbose cfg); reflexivity.
  - destruct (cacheGet_entry cfg env (A := list Notification) key s entry Hon Hfile)
      as [_ Hexpired].
    now destruct (Hexpired Hnone).
  - destruct (cacheGet_no_file cfg env (A := list Notification) key s Hfile)
      as (s' & -> & _).
    reflexivity.
Qed.

(** X12: A page fetched once is served from the cache afterwards.  With the
    cache on and nothing in it to decode for the page (no file, a file
    that does not decode, or an expired entry), a call of [getNotifs]
    that gets the page from the remote, as records of well-formed text,
    makes the one request of the page; any later call for that page on
    the files the first one left, while the entry is not older than the
    cache duration, returns the same records without a request,
    whatever the remote would answer by then, and leaves the files as
    they are. *)
Theorem getNotifs_second_call_from_cache (cfg : Config) (env env' : Env)
  (pageNum : Z) (participating all : bool) (notifs : list Notification) (s : State) :
  cacheEnabled cfg = true ->
  rest_client env = None ->
  remote_Get env pageNum participating all = Ok notifs ->
  Forall well_formed_text notifs ->
  let key := cacheKey pageNum participating all in
  no_usable_entry cfg env key s ->
  let looked := cacheGet (A := list Notification) cfg env key s in
  let first := getNotifs cfg env pageNum participating all s in
  let storedAt := Unix (clock env (clock_reads (snd looked))) in
  fst first = Ret (Ok notifs)
  /\ requests (snd first) = requests s ++ [GET pageNum participating all]
  /\ forall s2,
      fs s2 = fs (snd first) ->
      time_Sub (clock env' (clock_reads s2)) (time_Unix storedAt) <= cacheDuration cfg ->
      let second := getNotifs cfg env' pageNum participating all s2 in
      fst second = Ret (Ok notifs)
      /\ requests (snd second) = requests s2
      /\ fs (snd second) = fs s2.
Proof.
  intros Hon Hclient Hremote Htext key Hnone looked first storedAt.
  pose proof (cacheGet_no_usable_entry cfg env key s Hon Hnone) as Hmiss.
  destruct (Notifications_serializable notifs Htext) as (data & [= <-] & Hback).
  subst first storedAt looked. unfold getNotifs at 1 2 3. cbv zeta. go_unfold.
  fold key in Hmiss |- *.
  destruct (cacheGet_state cfg env (A := list Notification) key s)
    as (r & s1 & Hget & Hreq1 & _).
  rewrite Hget in Hmiss |- *. cbn [fst snd] in Hmiss |- *.
  injection Hmiss as ->.
  unfold ghRestApiClient, client_Get, record_request. rewrite Hclient. go_unfold.
  destruct (verbose_state cfg (LogApiFetching pageNum) s1)
    as (s2 & -> & Hfs2 & Hreq2 & _ & Hreads2).
  cbn. rewrite Hremote.
  match goal with
  | |- context [cacheSet cfg env ?k ?v ?st] => set (s3 := st)
  end.
  destruct (@cacheSet_enabled cfg env _ JSON_Notifications key
              notifs (JArray (map marshal_Notification notifs)) s3 Hon eq_refl)
    as (s4 & -> & Hfs4 & _ & Hreq4 & _).
  cbn [fst snd]. split; [reflexivity |].
  split; [subst s3; cbn in *; congruence |].
  intros s5 Hfs5 Hfresh.
  assert (Hfile : fs s5 !! cachePath cfg key
                  = Some (Encoded {| Timestamp := Unix (clock env (clock_reads s3));
                                     Data := Some (JArray (map marshal_Notification
                                                             notifs)) |})).
  { rewrite Hfs5, Hfs4. apply lookup_insert_eq. }
  assert (Hreads : clock_reads s3 = clock_reads s1).
  { subst s3. cbn. exact Hreads2. }
  rewrite Hreads in Hfile.
  destruct (cacheGet_entry cfg env' (A := list Notification) key s5 _ Hon Hfile)
    as [Hhit _].
  specialize (Hhit Hfresh). destruct Hhit as [Hval Hkeep].
  cbn [Data mbind option_bind] in Hval.
  unfold getNotifs. cbv zeta. go_unfold. fold key.
  destruct (cacheGet_state cfg env' (A := list Notification) key s5)
    as (r & s6 & Hget5 & Hreq6 & _).
  rewrite Hget5 in Hval, Hkeep |- *. cbn [fst snd] in Hval, Hkeep |- *.
  assert (Hr : r = Some notifs).
  { injection Hval as ->. cbn [mbind option_bind]. exact Hback. }
  subst r.
  destruct (verbose_returns cfg (LogApiFromCache pageNum) s6)
    as (s7 & -> & Hfs7 & Hreq7 & _).
  cbn. split; [reflexivity |]. split; congruence.
Qed.

(** The first page fetched and stored over an entry that has expired,
    then asked for again when the remote has nothing left to serve. *)
Lemma getNotifs_second_call_from_cache_witness :
  let cfg := sample_cfg true in
  let stale := set_fs {[ cachePath cfg (cacheKey 1 false false) :=
                           Encoded {| Timestamp := 600; Data := Some JNull |} ]}
                      empty_state in
  let first := getNotifs cfg (sample_env true sample_titles) 1 false false stale in
  let second := getNotifs cfg (sample_env true []) 1 false false (snd first) in
  fst second = Ret (Ok (page_of sample_titles 1))
  /\ requests (snd second) = requests (snd first).
Proof.
  cbv zeta.
  match goal with
  | |- fst (getNotifs _ _ _ _ _ (snd (getNotifs ?cfg ?env _ _ _ ?stale))) = _ /\ _ =>
      destruct (getNotifs_second_call_from_cache cfg env (sample_env true [])
                  1 false false (page_of sample_titles 1) stale
                  eq_refl eq_refl eq_refl) as (_ & _ & Hsecond);
      [ repeat constructor | evaluate | ];
      destruct (Hsecond (snd (getNotifs cfg env 1 false false stale)) eq_refl)
        as (Hval & Hreq & _); [evaluate |]
  end.
  split; [exact Hval | exact Hreq].
Defined.

(** X13: When the cache has no answer and the remote cannot give one:
    without a REST client the process exits with status 1 after the
    line that says so, and no request is made; when the request fails,
    [getNotifs] returns its error after that one request, and stores
    nothing. *)
Theorem getNotifs_failure (cfg : Config) (env : Env)
  (pageNum : Z) (participating all : bool) (s : State) :
  let key := cacheKey pageNum participating all in
  let looked := cacheGet (A := list Notification) cfg env key s in
  fst looked = Ret None ->
  let got := getNotifs cfg env pageNum participating all s in
  (forall err, rest_client env = Some err ->
     fst got = Exited 1
     /\ requests (snd got) = requests s
     /\ last (stderr (snd got))
        = Some (ErrText ("ERROR: failed to create REST client: " +:+ err))
     /\ fs (snd got) = fs (snd looked))
  /\ (forall e, rest_client env = None ->
        remote_Get env pageNum participating all = Err e ->
        fst got = Ret (Err e)
        /\ requests (snd got) = requests s ++ [GET pageNum participating all]
        /\ fs (snd got) = fs (snd looked)).
Proof.
  intros key looked Hmiss got. subst got looked.
  unfold getNotifs. cbv zeta. go_unfold. fold key in Hmiss |- *.
  destruct (cacheGet_state cfg env (A := list Notification) key s)
    as (r & s1 & Hget & Hreq1 & _).
  rewrite Hget in Hmiss |- *. cbn [fst snd] in Hmiss |- *. injection Hmiss as ->.
  unfold ghRestApiClient, die, client_Get, record_request, print_stderr, os_Exit.
  go_unfold. split.
  - intros err ->. cbn. repeat split; auto. apply last_snoc.
  - intros e -> Hremote.
    destruct (verbose_state cfg (LogApiFetching pageNum) s1)
      as (s2 & -> & Hfs2 & Hreq2 & _).
    cbn. rewrite Hremote. cbn. repeat split; congruence.
Qed.

(** A remote that answers every request with an error. *)
Lemma getNotifs_failure_witness :
  let env := {| clock := fun n => (1000 + Z.of_nat n) * second;
                gh_on_path := true; rest_client := None;
                remote_Get := fun _ _ _ => Err "HTTP 502";
                remote_Put := fun _ => None;
                time_Parse := fun _ => None;
                time_Format := fun layout _ => layout |} in
  let got := getNotifs (sample_cfg true) env 1 false false empty_state in
  fst got = Ret (Err "HTTP 502")
  /\ requests (snd got) = [GET 1 false false]
  /\ fs (snd got) = ∅.
Proof.
  cbv zeta.
  match goal with
  | |- fst (getNotifs ?cfg ?env _ _ _ _) = _ /\ _ =>
      destruct (getNotifs_failure cfg env 1 false false empty_state eq_refl)
        as (_ & Herr)
  end.
  apply (Herr "HTTP 502"); reflexivity.
Defined.

(* ===================================================================== *)
(** * Further properties: the fetch loop *)
(* ===================================================================== *)

Lemma Forall_filter_kept (exclusion filter : string) (l : list Notification) :
  Forall (fun n => kept exclusion filter n = true) (List.filter (kept exclusion filter) l).
Proof.
  apply Forall_forall. intros n Hn. apply list_elem_of_In in Hn.
  apply List.filter_In in Hn. tauto.
Qed.

Lemma llen_filter_le (keep : Notification -> bool) (l : list Notification) :
  llen (List.filter keep l) <= llen l.
Proof.
  unfold llen. pose proof (List.filter_length_le keep l). lia.
Qed.

(** One round keeps the count of fetched records within the limit, and
    the list no longer than the count. *)
Lemma getNotifications_round_counts (numNotifications : Z) (exclusion filter : string)
  (notifs : list Notification) (fetchedCount : Z) (allNotifs : list Notification)
  (e : round_end) :
  0 <= fetchedCount <= numNotifications ->
  llen allNotifs <= fetchedCount ->
  getNotifications_round numNotifications exclusion filter notifs fetchedCount allNotifs
  = Ret e ->
  match e with
  | Break allNotifs' => llen allNotifs' <= numNotifications
  | Next fetchedCount' allNotifs' =>
      0 <= fetchedCount' <= numNotifications /\ llen allNotifs' <= fetchedCount'
  end.
Proof.
  intros Hcount Hlen. unfold getNotifications_round. go_unfold.
  destruct (Z.eqb_spec (llen notifs) 0) as [Hempty | Hsome].
  { intros [= <-]. lia. }
  set (pageSize := min (numNotifications - fetchedCount) ghNotifyPerPageLimit).
  assert (Hsize : 0 <= pageSize <= numNotifications - fetchedCount).
  { unfold pageSize, min, ghNotifyPerPageLimit.
    destruct (Z.ltb_spec (numNotifications - fetchedCount) 50); lia. }
  assert (Hcut : exists cut,
             (if pageSize <? llen notifs then slice_prefix notifs pageSize
              else Ret notifs) = Ret cut
             /\ llen cut <= pageSize).
  { destruct (Z.ltb_spec pageSize (llen notifs)) as [Hlt | Hge].
    - unfold slice_prefix.
      destruct (Z.leb_spec 0 pageSize); [| lia].
      destruct (Z.leb_spec pageSize (llen notifs)); [| lia]. cbn [andb].
      eexists. split; [reflexivity |]. rewrite llen_take. lia.
    - eexists. split; [reflexivity | lia]. }
  destruct Hcut as (cut & -> & Hcutlen).
  rewrite appendKept_spec.
  pose proof (llen_filter_le (kept exclusion filter) cut) as Hkept.
  pose proof (llen_nonneg cut) as Hnonneg.
  destruct (_ || _); intros [= <-]; rewrite llen_app; lia.
Qed.

Section LoopBounds.

Context (fetch : Z -> bool -> bool -> Go (result (list Notification))).
Context (numNotifications : Z) (onlyParticipating includeAll : bool).
Context (exclusion filter : string).

#[local] Abbreviation bounded_loop fuel :=
  (getNotifications_loop fetch fuel numNotifications onlyParticipating includeAll
     exclusion filter).

Lemma getNotifications_loop_length (fuel : nat) (pageNum fetchedCount : Z)
  (allNotifs result : list Notification) (s : State) :
  0 <= fetchedCount <= numNotifications ->
  llen allNotifs <= fetchedCount ->
  fst (bounded_loop fuel pageNum fetchedCount allNotifs s) = Ret (Ok result) ->
  llen result <= numNotifications.
Proof.
  revert pageNum fetchedCount allNotifs s.
  induction fuel as [| fuel IH]; intros pageNum fetchedCount allNotifs s Hcount Hlen;
    [discriminate |].
  cbn [getNotifications_loop]. go_unfold.
  destruct (fetch pageNum onlyParticipating includeAll s) as [[[notifs | e] | | |] s1];
    try discriminate.
  destruct (getNotifications_round numNotifications exclusion filter notifs
              fetchedCount allNotifs) as [[broke | count next] | | |] eqn:Hround;
    try discriminate.
  - apply (getNotifications_round_counts _ _ _ _ _ _ _ Hcount Hlen) in Hround.
    cbn. intros [= <-]. exact Hround.
  - apply (getNotifications_round_counts _ _ _ _ _ _ _ Hcount Hlen) in Hround.
    destruct Hround as [Hcount' Hlen']. now apply IH.
Qed.

(** The pages asked for are pages of the listing, each at most once,
    in ascending order, from the page the loop is entered with. *)
Lemma getNotifications_loop_requests (fuel : nat) (pageNum fetchedCount : Z)
  (allNotifs : list Notification) (s : State) :
  (forall p s,
      stdout (snd (fetch p onlyParticipating includeAll s)) = stdout s
      /\ (requests (snd (fetch p onlyParticipating includeAll s)) = requests s
          \/ requests (snd (fetch p onlyParticipating includeAll s))
             = requests s ++ [GET p onlyParticipating includeAll])) ->
  exists pages,
    requests (snd (bounded_loop fuel pageNum fetchedCount allNotifs s))
    = requests s ++ map (fun p => GET p onlyParticipating includeAll) pages
    /\ sublist pages (seqZ pageNum (Z.of_nat fuel))
    /\ stdout (snd (bounded_loop fuel pageNum fetchedCount allNotifs s)) = stdout s.
Proof.
  intros Hfetch. revert pageNum fetchedCount allNotifs s.
  induction fuel as [| fuel IH]; intros pageNum fetchedCount allNotifs s.
  { exists []. cbn. rewrite app_nil_r. repeat split. constructor. }
  assert (Hseq : seqZ pageNum (Z.of_nat (S fuel))
                 = pageNum :: seqZ (pageNum + 1) (Z.of_nat fuel)).
  { rewrite seqZ_cons by lia. f_equal. f_equal; lia. }
  rewrite Hseq.
  assert (Hone : forall s1 : State,
             stdout s1 = stdout s ->
             requests s1 = requests s
             \/ requests s1 = requests s ++ [GET pageNum onlyParticipating includeAll] ->
             exists pages,
               requests s1
               = requests s ++ map (fun p => GET p onlyParticipating includeAll) pages
               /\ sublist pages (pageNum :: seqZ (pageNum + 1) (Z.of_nat fuel))
               /\ stdout s1 = stdout s).
  { intros s1 Hout [Hreq | Hreq].
    - exists []. cbn. rewrite app_nil_r. repeat split; auto. apply sublist_nil_l.
    - exists [pageNum]. repeat split; auto.
      apply sublist_skip, sublist_nil_l. }
  specialize (Hfetch pageNum s). destruct Hfetch as [Hout Hreq].
  cbn [getNotifications_loop]. go_unfold.
  destruct (fetch pageNum onlyParticipating includeAll s) as [[[notifs | e] | | |] s1];
    cbn [fst snd] in *; try (now apply Hone).
  destruct (getNotifications_round numNotifications exclusion filter notifs
              fetchedCount allNotifs) as [[broke | count next] | | |];
    cbn [fst snd]; try (now apply Hone).
  destruct (IH (pageNum + 1) count next s1) as (pages & Hpages & Hsub & Hout').
  rewrite Hpages, Hout'. destruct Hreq as [-> | ->].
  - exists pages. repeat split; auto. now apply sublist_cons.
  - exists (pageNum :: pages). rewrite <- app_assoc. repeat split; auto.
    now apply sublist_skip.
Qed.

End LoopBounds.

(** X14: Whatever the remote serves and the cache holds, [getNotifications]
    with a limit that is not negative returns, when it returns a list,
    at most that many records, every one of which passes the filter;
    so does the [getNotifications] of [main.go]. *)
Theorem getNotifications_within_limit (cfg : Config) (env : Env)
  (numNotifications : Z) (participating all : bool) (exclusion filter : string)
  (s : State) (result : list Notification) :
  0 <= numNotifications ->
  fst (getNotifications cfg env numNotifications participating all exclusion filter s)
  = Ret (Ok result)
  \/ fst (getNotifications_direct env numNotifications participating all
            exclusion filter s)
     = Ret (Ok result) ->
  llen result <= numNotifications
  /\ Forall (fun n => kept exclusion filter n = true) result.
Proof.
  intros Hlimit Hresult. split.
  - destruct Hresult as [Hresult | Hresult];
      eapply getNotifications_loop_length; try exact Hresult;
      unfold llen; cbn; lia.
  - destruct Hresult as [Hresult | Hresult].
    + unfold getNotifications in Hresult.
      change (@nil Notification) with (List.filter (kept exclusion filter) []) in Hresult.
      rewrite getNotifications_loop_filter in Hresult. cbn [fst] in Hresult.
      destruct (fst (getNotifications_loop _ _ _ _ _ "" "" _ _ _ _))
        as [[l | e] | | |]; try discriminate.
      injection Hresult as <-. apply Forall_filter_kept.
    + unfold getNotifications_direct in Hresult.
      change (@nil Notification) with (List.filter (kept exclusion filter) []) in Hresult.
      rewrite getNotifications_loop_filter in Hresult. cbn [fst] in Hresult.
      destruct (fst (getNotifications_loop _ _ _ _ _ "" "" _ _ _ _))
        as [[l | e] | | |]; try discriminate.
      injection Hresult as <-. apply Forall_filter_kept.
Qed.

(** A feed of three with a limit of two and a pattern to drop. *)
Lemma getNotifications_within_limit_witness :
  llen [sample "2" "Add feature"] <= 2
  /\ Forall (fun n => kept "Fix" "" n = true) [sample "2" "Add feature"].
Proof.
  apply (getNotifications_within_limit (sample_cfg true)
           (sample_env true sample_titles) 2 false false "Fix" "" empty_state).
  - evaluate.
  - left. reflexivity.
Defined.



(** X16: An error on a later page discards the pages before it.  When the
    remote answers the pages before page [k] in full and the request
    for page [k], which the limit still asks for, with an error, the
    [getNotifications] of [main.go] returns that error alone, after
    the requests for the pages 1 to [k]. *)
Theorem getNotifications_direct_error_discards (env : Env)
  (numNotifications : Z) (participating all : bool) (exclusion filter : string)
  (k : Z) (e : error) (s : State) :
  rest_client env = None ->
  1 <= k ->
  ghNotifyPerPageLimit * (k - 1) < numNotifications ->
  (forall p, 1 <= p < k ->
     exists page, remote_Get env p participating all = Ok page
                  /\ llen page = ghNotifyPerPageLimit) ->
  remote_Get env k participating all = Err e ->
  let got := getNotifications_direct env numNotifications participating all
               exclusion filter s in
  fst got = Ret (Err e)
  /\ requests (snd got)
     = requests s ++ map (fun p => GET p participating all) (seqZ 1 k).
Proof.
  intros Hclient Hk Hlimit Hfull Herr.
  assert (Hloop : forall (j fuel : nat) (allNotifs : list Notification) (s : State),
             (j < fuel)%nat ->
             Z.of_nat j < k ->
             let p := k - Z.of_nat j in
             let got := getNotifications_loop (getNotifs_direct env) fuel
                          numNotifications participating all exclusion filter
                          p (ghNotifyPerPageLimit * (p - 1)) allNotifs s in
             fst got = Ret (Err e)
             /\ requests (snd got)
                = requests s ++ map (fun p => GET p participating all)
                                  (seqZ p (Z.of_nat j + 1))).
  { assert (Hstep : forall fuel p allNotifs s0,
               getNotifications_loop (getNotifs_direct env) (S fuel)
                 numNotifications participating all exclusion filter
                 p (ghNotifyPerPageLimit * (p - 1)) allNotifs s0
               = match remote_Get env p participating all with
                 | Err e => (Ret (Err e),
                     {| fs := fs s0; clock_reads := clock_reads s0; stdout := stdout s0;
                        stderr := stderr s0;
                        requests := requests s0 ++ [GET p participating all] |})
                 | Ok notifs =>
                     match getNotifications_round numNotifications exclusion filter
                             notifs (ghNotifyPerPageLimit * (p - 1)) allNotifs with
                     | Ret (Break l) => (Ret (Ok l),
                         {| fs := fs s0; clock_reads := clock_reads s0;
                            stdout := stdout s0; stderr := stderr s0;
                            requests := requests s0 ++ [GET p participating all] |})
                     | Ret (Next count next) =>
                         getNotifications_loop (getNotifs_direct env) fuel
                           numNotifications participating all exclusion filter
                           (p + 1) count next
                           {| fs := fs s0; clock_reads := clock_reads s0;
                              stdout := stdout s0; stderr := stderr s0;
                              requests := requests s0 ++ [GET p participating all] |}
                     | Exited code => (Exited code,
                         {| fs := fs s0; clock_reads := clock_reads s0;
                            stdout := stdout s0; stderr := stderr s0;
                            requests := requests s0 ++ [GET p participating all] |})
                     | Panicked what => (Panicked what,
                         {| fs := fs s0; clock_reads := clock_reads s0;
                            stdout := stdout s0; stderr := stderr s0;
                            requests := requests s0 ++ [GET p participating all] |})
                     | Unfinished => (Unfinished,
                         {| fs := fs s0; clock_reads := clock_reads s0;
                            stdout := stdout s0; stderr := stderr s0;
                            requests := requests s0 ++ [GET p participating all] |})
                     end
                 end).
    { intros fuel p allNotifs s0. cbn [getNotifications_loop]. go_unfold.
      unfold getNotifs_direct, ghRestApiClient, client_Get, record_request.
      rewrite Hclient. go_unfold.
      destruct (remote_Get env p participating all) as [notifs | e0]; [| reflexivity].
      destruct (getNotifications_round _ _ _ _ _ _) as [[l | count next] | | |];
        reflexivity. }
    induction j as [| j IH]; intros fuel allNotifs s0 Hfuel Hj;
      (destruct fuel as [| fuel]; [lia |]); cbv zeta; rewrite Hstep.
    - replace (k - Z.of_nat 0) with k by lia. rewrite Herr. cbn.
      split; reflexivity.
    - set (p := k - Z.of_nat (S j)).
      destruct (Hfull p ltac:(lia)) as (page & Hpage & Hlen).
      rewrite Hpage.
      assert (Hround :
                getNotifications_round numNotifications exclusion filter page
                  (ghNotifyPerPageLimit * (p - 1)) allNotifs
                = Ret (Next (ghNotifyPerPageLimit * (p + 1 - 1))
                         (appendKept exclusion filter page allNotifs))).
      { unfold getNotifications_round. go_unfold. rewrite Hlen.
        unfold ghNotifyPerPageLimit in *. cbn [Z.eqb].
        unfold min.
        destruct (Z.ltb_spec (numNotifications - 50 * (p - 1)) 50); [lia |].
        cbn [Z.ltb Z.compare Pos.compare Pos.compare_cont]. rewrite Hlen.
        destruct (Z.eqb_spec (50 * (p - 1) + 50) numNotifications); [lia |].
        cbn. do 2 f_equal. lia. }
      rewrite Hround.
      replace (p + 1) with (k - Z.of_nat j) by lia.
      destruct (IH fuel (appendKept exclusion filter page allNotifs)
                  {| fs := fs s0; clock_reads := clock_reads s0; stdout := stdout s0;
                     stderr := stderr s0;
                     requests := requests s0 ++ [GET p participating all] |})
        as [Hval Hreq]; [lia | lia |].
      split; [exact Hval |]. rewrite Hreq. cbn [requests].
      rewrite <- app_assoc. f_equal.
      rewrite (seqZ_cons p) by lia. cbn [map app]. f_equal. f_equal.
      f_equal; lia. }
  cbv zeta. unfold getNotifications_direct.
  destruct (Hloop (Z.to_nat (k - 1)) (rounds numNotifications) [] s) as [Hval Hreq].
  - unfold rounds, ghNotifyPerPageLimit in *.
    assert (k - 1 <= numNotifications / 50) by (apply Z.div_le_lower_bound; lia).
    lia.
  - lia.
  - replace (k - Z.of_nat (Z.to_nat (k - 1))) with 1 in Hval, Hreq by lia.
    change (ghNotifyPerPageLimit * (1 - 1)) with 0 in Hval, Hreq.
    split; [exact Hval |]. rewrite Hreq. do 3 f_equal. lia.
Qed.

(** Fifty records, then an error at page 2, with a limit of 70. *)
Lemma getNotifications_direct_error_discards_witness :
  let env := {| clock := fun n => (1000 + Z.of_nat n) * second;
                gh_on_path := true; rest_client := None;
                remote_Get := fun p _ _ =>
                  if p =? 1 then Ok (replicate 50 (sample "1" "Fix bug"))
                  else Err "HTTP 502";
                remote_Put := fun _ => None;
                time_Parse := fun _ => None;
                time_Format := fun layout _ => layout |} in
  let got := getNotifications_direct env 70 false false "" "" empty_state in
  fst got = Ret (Err "HTTP 502")
  /\ requests (snd got) = [GET 1 false false; GET 2 false false].
Proof.
  cbv zeta.
  match goal with
  | |- fst (getNotifications_direct ?env _ _ _ _ _ _) = _ /\ _ =>
      apply (getNotifications_direct_error_discards env 70 false false "" "" 2
               "HTTP 502" empty_state)
  end.
  - reflexivity.
  - evaluate.
  - evaluate.
  - intros p Hp. assert (p = 1) as -> by lia.
    eexists. split; reflexivity.
  - reflexivity.
Defined.

(* ===================================================================== *)
(** * Further properties: the command *)
(* ===================================================================== *)

Lemma staticRow_spec (env : Env) (n : Notification) (s : State) :
  staticRow env n s
  = (Ret (static_line env n (time_Format env RFC3339 (clock env (clock_reads s)))),
     {| fs := fs s; clock_reads := S (clock_reads s); stdout := stdout s;
        stderr := stderr s; requests := requests s |}).
Proof. reflexivity. Qed.

(** The static listing: a line for every record, in order, each with
    the time of its own reading of the clock. *)
Lemma printRows_spec (env : Env) (notifs : list Notification) (s : State) :
  exists s',
    printRows env notifs s = (Ret tt, s')
    /\ stdout s' = stdout s ++ static_lines env notifs (clock_reads s)
    /\ requests s' = requests s /\ fs s' = fs s /\ stderr s' = stderr s.
Proof.
  revert s. induction notifs as [| n rest IH]; intros s.
  - exists s. cbn. rewrite app_nil_r. auto.
  - cbn [printRows static_lines]. go_unfold. rewrite staticRow_spec.
    unfold print_stdout.
    match goal with
    | |- context [printRows env rest ?st] => destruct (IH st) as (s' & -> & Hout & Hrest)
    end.
    exists s'. split; [reflexivity |]. cbn in Hout, Hrest.
    split; [| exact Hrest]. rewrite Hout, <- app_assoc. reflexivity.
Qed.

(** X18: [Run] without the mark-read flag, from the end of the fetch.  It
    issues no request of its own.  An error of the fetch is the one
    line of standard error, with exit status 1; an empty result prints
    the final message and exits with status 0; with [--static] the
    records are printed, a line each, and the process exits with
    status 0; and [Run] returns a model, the one the interactive
    program starts with, exactly when the fetch returned a list that is
    not empty and [--static] is not set: the model of that list, with
    the cursor on its first row. *)
Theorem Run_after_fetch (cfg : Config) (env : Env) (flags : Flags) (s : State) :
  gh_on_path env = true ->
  markRead flags = false ->
  let fetched := getNotifications cfg env (numNotifications flags)
                   (onlyParticipating flags) (includeAll flags)
                   (exclusion flags) (filter flags) s in
  let end_ := Run cfg env flags s in
  requests (snd end_) = requests (snd fetched)
  /\ (forall e, fst fetched = Ret (Err e) ->
        fst end_ = Exited 1
        /\ stderr (snd end_) = stderr (snd fetched) ++ [ErrText ("ERROR: " +:+ e)]
        /\ stdout (snd end_) = stdout (snd fetched))
  /\ (fst fetched = Ret (Ok []) ->
        fst end_ = Exited 0
        /\ stdout (snd end_) = stdout (snd fetched) ++ [finalMsg])
  /\ (forall notifs, fst fetched = Ret (Ok notifs) -> notifs <> [] ->
        printStatic flags = true ->
        fst end_ = Exited 0
        /\ stdout (snd end_)
           = stdout (snd fetched)
             ++ static_lines env notifs (clock_reads (snd fetched)))
  /\ (forall m, fst end_ = Ret m
                <-> printStatic flags = false
                    /\ exists notifs, fst fetched = Ret (Ok notifs)
                                      /\ notifs <> [] /\ m = NewModel notifs)
  /\ (forall m, fst end_ = Ret m -> navigation_state m /\ snd end_ = snd fetched).
Proof.
  intros Hgh Hmark fetched end_. subst end_. unfold Run.
  rewrite Hgh, Hmark. cbn [negb]. go_unfold. fold fetched.
  destruct fetched as [[[notifs | e] | code | what |] s1]; cbn [fst snd].
  - (* the fetch returned a list *)
    destruct notifs as [| n rest].
    + cbn. split; [reflexivity |]. split; [intros e0 He; discriminate He |].
      split; [intros _; split; reflexivity |].
      split; [intros l0 [= <-] Hne; now contradiction Hne |].
      split; [| intros m Hm; discriminate Hm].
      intros m. split; [intros Hm; discriminate Hm |].
      intros (_ & l0 & [= <-] & Hne & _). now contradiction Hne.
    + change (llen (n :: rest) =? 0) with false. cbv iota.
      destruct (printStatic flags) eqn:Hstatic.
      * destruct (printRows_spec env (n :: rest) s1)
          as (s2 & Hrows & Hout & Hreq & _).
        rewrite Hrows. cbn [fst snd].
        split; [exact Hreq |]. split; [intros e0 He; discriminate He |].
        split; [intros He; discriminate He |].
        split; [intros l0 [= <-] _ _; split; [reflexivity | exact Hout] |].
        split; [| intros m Hm; discriminate Hm].
        intros m. split; [intros Hm; discriminate Hm |].
        intros (Hno & _). discriminate Hno.
      * cbn [fst snd].
        split; [reflexivity |]. split; [intros e0 He; discriminate He |].
        split; [intros He; discriminate He |].
        split; [intros l0 _ _ Hyes; discriminate Hyes |].
        split.
        -- intros m. split.
           ++ intros [= <-]. split; [reflexivity |].
              exists (n :: rest). repeat split. discriminate.
           ++ intros (_ & l0 & [= <-] & _ & ->). reflexivity.
        -- intros m [= <-]. split; [| reflexivity].
           unfold navigation_state, NewModel, llen. cbn. lia.
  - (* the fetch returned an error *)
    cbn. split; [reflexivity |].
    split; [intros e0 [= <-]; repeat split |].
    split; [intros He; discriminate He |].
    split; [intros l0 He; discriminate He |].
    split; [| intros m Hm; discriminate Hm].
    intros m. split; [intros Hm; discriminate Hm |].
    intros (_ & l0 & Hok & _). discriminate Hok.
  - cbn. split; [reflexivity |].
    split; [intros e0 He; discriminate He |].
    split; [intros He; discriminate He |].
    split; [intros l0 He; discriminate He |].
    split; [| intros m Hm; discriminate Hm].
    intros m. split; [intros Hm; discriminate Hm |].
    intros (_ & l0 & Hok & _). discriminate Hok.
  - cbn. split; [reflexivity |].
    split; [intros e0 He; discriminate He |].
    split; [intros He; discriminate He |].
    split; [intros l0 He; discriminate He |].
    split; [| intros m Hm; discriminate Hm].
    intros m. split; [intros Hm; discriminate Hm |].
    intros (_ & l0 & Hok & _). discriminate Hok.
  - cbn. split; [reflexivity |].
    split; [intros e0 He; discriminate He |].
    split; [intros He; discriminate He |].
    split; [intros l0 He; discriminate He |].
    split; [| intros m Hm; discriminate Hm].
    intros m. split; [intros Hm; discriminate Hm |].
    intros (_ & l0 & Hok & _). discriminate Hok.
Qed.

(** The static listing of the three sample records. *)
Lemma Run_after_fetch_witness :
  let env := sample_env true sample_titles in
  let flags := {| exclusion := ""; filter := ""; updateSubscriptionURL := "";
                  numNotifications := 10; onlyParticipating := false;
                  includeAll := false; printStatic := true; markRead := false |} in
  let end_ := Run (sample_cfg false) env flags empty_state in
  fst end_ = Exited 0
  /\ stdout (snd end_) = static_lines env sample_titles 0.
Proof.
  cbv zeta.
  match goal with
  | |- fst (Run ?cfg ?env ?flags ?s) = _ /\ _ =>
      destruct (Run_after_fetch cfg env flags s eq_refl eq_refl)
        as (_ & _ & _ & Hstatic & _)
  end.
  apply (Hstatic sample_titles); [reflexivity | discriminate | reflexivity].
Defined.

(** X19: [Run] with the mark-read flag and no pattern, with [gh] installed.
    No page is fetched and no file is touched; the clock is read once,
    for the time [markAllRead] is called with.  Without a REST client
    the process exits with status 1 and no request; otherwise the one
    request is a PUT of [notifications] that carries no body, the time
    and the read flag being handed to the client as the place for the
    response: the process exits with status 0 after the line that says
    so when the client reports no error, with status 1 after the line
    of the failure when it reports one.  No model is returned. *)
Theorem Run_marks_all_read (cfg : Config) (env : Env) (flags : Flags) (s : State) :
  gh_on_path env = true ->
  markRead flags = true ->
  exclusion flags = "" ->
  filter flags = "" ->
  let end_ := Run cfg env flags s in
  fs (snd end_) = fs s
  /\ clock_reads (snd end_) = S (clock_reads s)
  /\ (forall err, rest_client env = Some err ->
        fst end_ = Exited 1
        /\ requests (snd end_) = requests s
        /\ stdout (snd end_) = stdout s
        /\ stderr (snd end_)
           = stderr s ++ [ErrText ("ERROR: failed to create REST client: " +:+ err)])
  /\ (rest_client env = None ->
        requests (snd end_) = requests s ++ [PUT "notifications" None]
        /\ (remote_Put env "notifications" = None ->
              fst end_ = Exited 0
              /\ stdout (snd end_)
                 = stdout s ++ ["All notifications have been marked as read."]
              /\ stderr (snd end_) = stderr s)
        /\ (remote_Put env "notifications" <> None ->
              fst end_ = Exited 1
              /\ stdout (snd end_) = stdout s
              /\ stderr (snd end_)
                 = stderr s ++ [ErrText "ERROR: Failed to mark notifications as read."])).
Proof.
  intros Hgh Hmark Hex Hfi end_. subst end_. unfold Run.
  rewrite Hgh, Hmark, Hex, Hfi. cbn [negb nonempty String.eqb orb].
  unfold isoTime, markAllRead, ghRestApiClient, client_Put, record_request, die,
    print_stderr, print_stdout, os_Exit, time_Now.
  go_unfold.
  destruct (rest_client env) as [err |]; cbn.
  - split; [reflexivity |]. split; [reflexivity |].
    split; [intros err0 [= <-]; repeat split | intros Hnone; discriminate Hnone].
  - destruct (remote_Put env "notifications") as [err |] eqn:Hput; cbn.
    + split; [reflexivity |]. split; [reflexivity |].
      split; [intros err0 Hsome; discriminate Hsome |].
      intros _. split; [reflexivity |].
      split; [intros Hnone; discriminate Hnone | intros _; repeat split].
    + split; [reflexivity |]. split; [reflexivity |].
      split; [intros err0 Hsome; discriminate Hsome |].
      intros _. split; [reflexivity |].
      split; [intros _; repeat split | intros Hsome; now contradiction Hsome].
Qed.

(** The mark-read run of the sample surroundings. *)
Lemma Run_marks_all_read_witness :
  let end_ := Run (sample_cfg true) (sample_env true sample_titles)
                  (sample_flags "" true) empty_state in
  requests (snd end_) = [PUT "notifications" None]
  /\ fst end_ = Exited 0
  /\ stdout (snd end_) = ["All notifications have been marked as read."].
Proof.
  cbv zeta.
  destruct (Run_marks_all_read (sample_cfg true) (sample_env true sample_titles)
              (sample_flags "" true) empty_state eq_refl eq_refl eq_refl eq_refl)
    as (_ & _ & _ & Hput).
  destruct (Hput eq_refl) as (Hreq & Hok & _).
  destruct (Hok eq_refl) as (Hexit & Hout & _).
  split; [exact Hreq |]. split; [exact Hexit | exact Hout].
Defined.

(* ===================================================================== *)
(** * Further properties: the earlier stages *)
(* ===================================================================== *)

Lemma abbreviate_early_above_one (s : string) (max : Z) :
  1 < max -> abbreviate_early s max = Ret (abbreviate s max).
Proof.
  intros Hmax. unfold abbreviate_early, abbreviate.
  destruct (Z.leb_spec max 1); [lia |]. cbn [orb].
  destruct (Z.gtb_spec (len s) max), (Z.leb_spec (len s) max); try lia;
    [| reflexivity].
  destruct (Z.leb_spec 0 (max - 1)); [reflexivity | lia].
Qed.

(** X20: The limit test that [abbreviate] got later, by what it changed.
    Above a limit of 1 the [abbreviate] of the stage before returns
    what the later one returns.  At the limit 1 it cuts a longer string
    down to the ellipsis alone, where the later one returns the string
    whole; below 1 it panics on every string longer than the limit,
    which is every string when the limit is negative, where the later
    one returns the string. *)
Theorem abbreviate_early_spec (s : string) (max : Z) :
  (1 < max -> abbreviate_early s max = Ret (abbreviate s max))
  /\ (max = 1 -> 1 < len s ->
      abbreviate_early s max = Ret ellipsis /\ abbreviate s max = s)
  /\ (max < 1 -> max < len s ->
      abbreviate_early s max = Panicked "slice bounds out of range"
      /\ abbreviate s max = s)
  /\ (len s <= max -> abbreviate_early s max = Ret s /\ abbreviate s max = s).
Proof.
  split; [| split; [| split]]; [| unfold abbreviate_early, abbreviate ..].
  - apply abbreviate_early_above_one.
  - intros -> Hlen. destruct (Z.gtb_spec (len s) 1); [| lia].
    split; [| reflexivity]. cbn. destruct s; reflexivity.
  - intros Hmax Hlen. destruct (Z.gtb_spec (len s) max); [| lia].
    destruct (Z.leb_spec 0 (max - 1)); [lia |].
    destruct (Z.leb_spec max 1); [| lia]. split; reflexivity.
  - intros Hlen. destruct (Z.gtb_spec (len s) max); [lia |].
    destruct (Z.leb_spec (len s) max); [| lia].
    rewrite orb_true_r. split; reflexivity.
Qed.

(** The owner column of the static listing, and the two stages apart. *)
Lemma abbreviate_early_spec_witness :
  abbreviate_early "kubernetes-sigs" 10 = Ret (abbreviate "kubernetes-sigs" 10)
  /\ abbreviate_early "ab" 1 = Ret ellipsis
  /\ abbreviate_early "ab" 0 = Panicked "slice bounds out of range".
Proof.
  destruct (abbreviate_early_spec "kubernetes-sigs" 10) as (Hsame & _).
  destruct (abbreviate_early_spec "ab" 1) as (_ & Hone & _).
  destruct (abbreviate_early_spec "ab" 0) as (_ & _ & Hzero & _).
  split; [apply Hsame; evaluate |].
  split; [apply Hone; [reflexivity | evaluate] | apply Hzero; evaluate].
Defined.

(** With the limits 10 and 13 of the listing, the line of the stage
    before is the line of the static listing. *)
Lemma staticRow_early_spec (env : Env) (n : Notification) (s : State) :
  staticRow_early env n s = staticRow env n s.
Proof.
  unfold staticRow_early, staticRow. cbv zeta. go_unfold.
  rewrite !abbreviate_early_above_one by lia.
  destruct (isoTime env s) as [[iso | | |] s1]; reflexivity.
Qed.

(** The fetch loop of the stage before is the loop of [getNotifications]
    with no pattern. *)
Lemma printNotifs_loop_is_getNotifications_loop (env : Env) (fuel : nat)
  (numNotifications : Z) (participating all : bool)
  (pageNum fetchedCount : Z) (allNotifs : list Notification) (s : State) :
  printNotifs_loop env fuel numNotifications participating all
    pageNum fetchedCount allNotifs s
  = getNotifications_loop (getNotifs_direct env) fuel numNotifications
      participating all "" "" pageNum fetchedCount allNotifs s.
Proof.
  revert pageNum fetchedCount allNotifs s.
  induction fuel as [| fuel IH]; intros pageNum fetchedCount allNotifs s;
    [reflexivity |].
  cbn [printNotifs_loop getNotifications_loop]. go_unfold.
  destruct (getNotifs_direct env pageNum participating all s)
    as [[[notifs | e] | | |] s1]; try reflexivity.
  unfold getNotifications_round. go_unfold.
  destruct (llen notifs =? 0); [reflexivity |].
  destruct (_ <? llen notifs).
  - destruct (slice_prefix notifs _) as [cut | | |]; try reflexivity.
    rewrite appendKept_spec, filter_kept_no_pattern.
    destruct (_ || _); [reflexivity | apply IH].
  - rewrite appendKept_spec, filter_kept_no_pattern.
    destruct (_ || _); [reflexivity | apply IH].
Qed.

(** The buffer after the lines of the records, no pattern given. *)
Lemma printNotifs_lines_all (env : Env) (allNotifs : list Notification)
  (buf : string) (s : State) :
  exists s',
    printNotifs_lines env "" "" allNotifs buf s
    = (Ret (foldl (fun buf line => buf +:+ line +:+ newline) buf
              (static_lines env allNotifs (clock_reads s))), s')
    /\ requests s' = requests s /\ stdout s' = stdout s /\ fs s' = fs s.
Proof.
  revert buf s. induction allNotifs as [| n rest IH]; intros buf s.
  - exists s. cbn. auto.
  - cbn [printNotifs_lines static_lines foldl nonempty String.eqb negb andb].
    go_unfold. rewrite staticRow_early_spec, staticRow_spec.
    match goal with
    | |- context [printNotifs_lines env "" "" rest ?b ?st] =>
        destruct (IH b st) as (s' & -> & Hrest)
    end.
    exists s'. split; [reflexivity | exact Hrest].
Qed.

(** The records that get a line are the records that pass the filter. *)
Lemma printNotifs_lines_kept (env : Env) (exclusion filter : string)
  (allNotifs : list Notification) (buf : string) (s : State) :
  printNotifs_lines env exclusion filter allNotifs buf s
  = printNotifs_lines env "" "" (List.filter (kept exclusion filter) allNotifs) buf s.
Proof.
  revert buf s. induction allNotifs as [| n rest IH]; intros buf s; [reflexivity |].
  cbn [printNotifs_lines List.filter]. unfold kept at 1.
  destruct (nonempty exclusion && strings_Contains (Title (Subj n)) exclusion);
    [apply IH |].
  destruct (String.eqb_spec filter "") as [-> | Hne].
  - cbn [nonempty String.eqb negb andb orb].
    cbn [printNotifs_lines nonempty String.eqb negb andb]. go_unfold.
    rewrite !staticRow_early_spec, !staticRow_spec. apply IH.
  - assert (Hfilter : nonempty filter = true) by now apply nonempty_true.
    rewrite Hfilter. cbn [andb orb].
    destruct (strings_Contains (Title (Subj n)) filter); cbn [negb]; [| apply IH].
    cbn [printNotifs_lines nonempty String.eqb negb andb]. go_unfold.
    rewrite !staticRow_early_spec, !staticRow_spec. apply IH.
Qed.

(** X21: The two stages show the same records.  The [printNotifs] of the
    stage before, which fetches every record and tests the titles when
    it writes the lines, returns the lines, a newline after each, of
    exactly the records that the [getNotifications] of [main.go], which
    tests the titles while it fetches, returns for the same arguments;
    it makes the same requests, and returns the same error. *)
Theorem printNotifs_shows_fetched (env : Env) (numNotifications : Z)
  (participating all : bool) (exclusion filter : string) (s : State) :
  let fetched := getNotifications_direct env numNotifications participating all
                   exclusion filter s in
  let printed := printNotifs env numNotifications participating all
                   exclusion filter s in
  requests (snd printed) = requests (snd fetched)
  /\ (forall notifs, fst fetched = Ret (Ok notifs) ->
        fst printed
        = Ret (Ok (foldl (fun buf line => buf +:+ line +:+ newline) ""
                     (static_lines env notifs (clock_reads (snd fetched))))))
  /\ (forall e, fst fetched = Ret (Err e) <-> fst printed = Ret (Err e)).
Proof.
  cbv zeta. unfold getNotifications_direct, printNotifs. go_unfold.
  rewrite printNotifs_loop_is_getNotifications_loop.
  change (@nil Notification) with (List.filter (kept exclusion filter) []) at 2 3 5 6.
  rewrite getNotifications_loop_filter. cbn [fst snd].
  destruct (getNotifications_loop (getNotifs_direct env) _ _ _ _ "" "" _ _ _ _)
    as [[[notifs | e] | code | what |] s1]; cbn [fst snd map_outcome map_result].
  - rewrite printNotifs_lines_kept.
    destruct (printNotifs_lines_all env (List.filter (kept exclusion filter) notifs)
                "" s1) as (s2 & -> & Hreq & _).
    cbn [fst snd]. split; [exact Hreq |]. split.
    + intros l0 [= <-]. reflexivity.
    + intros e0. split; intros He; discriminate He.
  - split; [reflexivity |]. split; [intros l0 He; discriminate He |].
    intros e0. split; intros [= <-]; reflexivity.
  - split; [reflexivity |]. split; [intros l0 He; discriminate He |].
    intros e0. split; intros He; discriminate He.
  - split; [reflexivity |]. split; [intros l0 He; discriminate He |].
    intros e0. split; intros He; discriminate He.
  - split; [reflexivity |]. split; [intros l0 He; discriminate He |].
    intros e0. split; intros He; discriminate He.
Qed.

(** Two of the three sample records. *)
Lemma printNotifs_shows_fetched_witness :
  let env := sample_env true sample_titles in
  fst (printNotifs env 2 false false "" "" empty_state)
  = Ret (Ok (foldl (fun buf line => buf +:+ line +:+ newline) ""
               (static_lines env (take 2 sample_titles) 0))).
Proof.
  destruct (printNotifs_shows_fetched (sample_env true sample_titles)
              2 false false "" "" empty_state) as (_ & Hlines & _).
  exact (Hlines (take 2 sample_titles) eq_refl).
Defined.

Lemma getOrDefault_returns (parts : list string) (i : Z) (def : string) :
  0 <= i -> exists part, getOrDefault parts i def = Ret part.
Proof.
  intros Hi. unfold getOrDefault.
  destruct (Z.ltb_spec i (llen parts)); [| eexists; reflexivity].
  destruct (index_in_bounds parts i ltac:(lia)) as (part & -> & _). eauto.
Qed.

(** The loop of [checkVersion] stops the process exactly when the
    version is below the threshold on the places it visits. *)
Lemma checkVersion_loop_spec (tool threshold userVersion : string)
  (verParts threshParts : list string) (indices : list Z) (s : State) :
  Forall (fun i => 0 <= i) indices ->
  checkVersion_loop tool threshold userVersion verParts threshParts indices s
  = if version_below verParts threshParts indices
    then die ("Your '" +:+ tool +:+ "' version '" +:+ userVersion
              +:+ "' is insufficient. The minimum required version is '"
              +:+ threshold +:+ "'.") s
    else (Ret tt, s).
Proof.
  induction 1 as [| i indices Hi _ IH]; [reflexivity |].
  cbn [checkVersion_loop version_below]. unfold version_number. go_unfold.
  destruct (getOrDefault_returns verParts i "0" Hi) as (userPart & ->).
  destruct (getOrDefault_returns threshParts i "0" Hi) as (threshPart & ->).
  destruct (_ <? _); [reflexivity |].
  destruct (_ >? _); [reflexivity | exact IH].
Qed.

(** [version_below] on a run of places: there is a first place where
    the numbers differ, and there the user's is the smaller. *)
Lemma version_below_spec (user thresh : list string) (n : nat) (a : Z) :
  version_below user thresh (seqZ a (Z.of_nat n)) = true
  <-> exists i, a <= i < a + Z.of_nat n
                /\ version_number user i < version_number thresh i
                /\ forall j, a <= j < i -> version_number user j = version_number thresh j.
Proof.
  revert a. induction n as [| n IH]; intros a.
  - cbn. split; [discriminate | intros (i & Hi & _); lia].
  - assert (Hseq : seqZ a (Z.of_nat (S n)) = a :: seqZ (a + 1) (Z.of_nat n)).
    { rewrite seqZ_cons by lia. f_equal. f_equal; lia. }
    rewrite Hseq. cbn [version_below].
    destruct (Z.ltb_spec (version_number user a) (version_number thresh a)) as [Hlt | Hge].
    { split; [intros _ | reflexivity]. exists a. repeat split; try lia. }
    destruct (Z.gtb_spec (version_number user a) (version_number thresh a)) as [Hgt | Hle].
    { split; [discriminate |]. intros (i & Hi & Hlt & Heq).
      destruct (Z.eq_dec i a) as [-> | Hne]; [lia |].
      specialize (Heq a ltac:(lia)). lia. }
    rewrite IH. split; intros (i & Hi & Hlt & Heq).
    + exists i. split; [lia |]. split; [exact Hlt |].
      intros j Hj. destruct (Z.eq_dec j a) as [-> | Hne]; [lia |].
      apply Heq. lia.
    + destruct (Z.eq_dec i a) as [-> | Hne]; [lia |].
      exists i. split; [lia |]. split; [exact Hlt |].
      intros j Hj. apply Heq. lia.
Qed.

(** X22: What [checkVersion] accepts.  When the tool cannot be run the
    process exits with status 1.  Otherwise the dotted number found in
    its output is compared with the threshold place by place, over the
    places of the threshold only, a missing or malformed place counting
    as 0: the process exits with status 1, after one line naming both
    versions, exactly when at the first place where the two numbers
    differ the tool's is the smaller; in every other case, so with equal
    numbers, [checkVersion] returns and changes nothing. *)
Theorem checkVersion_spec (command_Output : string -> result string)
  (version_FindString : string -> string) (tool threshold : string) (s : State) :
  let run := checkVersion command_Output version_FindString tool threshold s in
  (forall err, command_Output tool = Err err ->
     fst run = Exited 1
     /\ stderr (snd run)
        = stderr s
          ++ [ErrText ("ERROR: Your '" +:+ tool
                       +:+ "' version is insufficient. The minimum required version is '"
                       +:+ threshold +:+ "'.")])
  /\ (forall out, command_Output tool = Ok out ->
        let userVersion := version_FindString out in
        let user := strings_Split userVersion "." in
        let thresh := strings_Split threshold "." in
        let below :=
          exists i, 0 <= i < llen thresh
                    /\ version_number user i < version_number thresh i
                    /\ forall j, 0 <= j < i ->
                                 version_number user j = version_number thresh j in
        (below ->
           fst run = Exited 1
           /\ stderr (snd run)
              = stderr s
                ++ [ErrText ("ERROR: Your '" +:+ tool +:+ "' version '" +:+ userVersion
                             +:+ "' is insufficient. The minimum required version is '"
                             +:+ threshold +:+ "'.")])
        /\ (~ below -> run = (Ret tt, s)))
  /\ stdout (snd run) = stdout s
  /\ requests (snd run) = requests s.
Proof.
  cbv zeta. unfold checkVersion.
  destruct (command_Output tool) as [out | err].
  - rewrite checkVersion_loop_spec
      by (apply Forall_forall; intros i Hi; apply elem_of_seqZ in Hi; lia).
    pose proof (version_below_spec
                  (strings_Split (version_FindString out) ".")
                  (strings_Split threshold ".")
                  (length (strings_Split threshold ".")) 0) as Hspec.
    fold (llen (strings_Split threshold ".")) in Hspec.
    destruct (version_below _ _ _).
    + split; [intros err Herr; discriminate Herr |].
      split; [| split; reflexivity].
      intros out0 [= <-]. split; [intros _; split; reflexivity |].
      intros Hnot. exfalso. apply Hnot.
      destruct Hspec as [Hspec _]. destruct (Hspec eq_refl) as (i & Hi & Hrest).
      exists i. split; [lia | exact Hrest].
    + split; [intros err Herr; discriminate Herr |].
      split; [| split; reflexivity].
      intros out0 [= <-]. split; [| intros _; reflexivity].
      intros (i & Hi & Hrest). exfalso.
      destruct Hspec as [_ Hspec]. enough (false = true) by discriminate.
      apply Hspec. exists i. split; [lia | exact Hrest].
  - split; [intros err0 _; split; reflexivity |].
    split; [intros out Hout; discriminate Hout | split; reflexivity].
Qed.

(** fzf 0.28.1 against the threshold 0.29.0, and 0.30 against it. *)
Lemma checkVersion_spec_witness :
  fst (checkVersion (fun _ => Ok "0.28.1 (brew)") (fun _ => "0.28.1")
         "fzf" "0.29.0" empty_state) = Exited 1
  /\ checkVersion (fun _ => Ok "0.30 (brew)") (fun _ => "0.30")
       "fzf" "0.29.0" empty_state = (Ret tt, empty_state).
Proof.
  split.
  - destruct (checkVersion_spec (fun _ => Ok "0.28.1 (brew)") (fun _ => "0.28.1")
                "fzf" "0.29.0" empty_state) as (_ & Hrun & _).
    destruct (Hrun "0.28.1 (brew)" eq_refl) as (Hbelow & _).
    apply Hbelow. exists 1. split; [evaluate |]. split; [evaluate |].
    intros j Hj. assert (j = 0) as -> by lia. reflexivity.
  - destruct (checkVersion_spec (fun _ => Ok "0.30 (brew)") (fun _ => "0.30")
                "fzf" "0.29.0" empty_state) as (_ & Hrun & _).
    destruct (Hrun "0.30 (brew)" eq_refl) as (_ & Hpass).
    apply Hpass. intros (i & Hi & Hlt & Heq).
    assert (Hcases : i = 0 \/ i = 1 \/ i = 2).
    { change (llen (strings_Split "0.29.0" ".")) with 3 in Hi. lia. }
    destruct Hcases as [-> | [-> | ->]].
    + vm_compute in Hlt. discriminate Hlt.
    + vm_compute in Hlt. discriminate Hlt.
    + specialize (Heq 1 ltac:(lia)). vm_compute in Heq. discriminate Heq.
Defined.

(* ===================================================================== *)
(** * Further properties: moves, and the program without its cache *)
(* ===================================================================== *)

(** X5: A move can be taken back.  In a navigation state, [down] followed
    by [up] restores the model unless the cursor was on the last row,
    and [up] followed by [down] restores it unless the cursor was on
    the first; on the last row [down], and on the first row [up],
    change nothing. *)
Theorem Update_moves_undo (m : Model) :
  navigation_state m ->
  let press := fun m key => fst (Update m (KeyMsg key)) in
  (cursor m < llen (notifications m) - 1 -> press (press m "down") "up" = m)
  /\ (0 < cursor m -> press (press m "up") "down" = m)
  /\ (cursor m = llen (notifications m) - 1 -> press m "down" = m)
  /\ (cursor m = 0 -> press m "up" = m).
Proof.
  unfold navigation_state. intros Hnav. cbv zeta.
  destruct m as [ns c w h p hp]. cbn [cursor notifications] in *.
  unfold Update. cbn [is_case existsb String.eqb Ascii.eqb Bool.eqb orb fst
                      cursor notifications].
  split; [| split; [| split]].
  - intros Hlast. destruct (Z.ltb_spec c (llen ns - 1)); [| lia].
    cbn [set_cursor cursor notifications width height showPreview showHelp].
    destruct (Z.gtb_spec (c + 1) 0); [| lia].
    unfold set_cursor; cbn. f_equal. lia.
  - intros Hfirst. destruct (Z.gtb_spec c 0); [| lia].
    cbn [set_cursor cursor notifications width height showPreview showHelp].
    destruct (Z.ltb_spec (c - 1) (llen ns - 1)); [| lia].
    unfold set_cursor; cbn. f_equal. lia.
  - intros ->. destruct (Z.ltb_spec (llen ns - 1) (llen ns - 1)); [lia | reflexivity].
  - intros ->. reflexivity.
Qed.

(** [down] and [up] from the second of five rows. *)
Lemma Update_moves_undo_witness :
  fst (Update (fst (Update (sample_model 5 1 24) (KeyMsg "down"))) (KeyMsg "up"))
  = sample_model 5 1 24.
Proof.
  destruct (Update_moves_undo (sample_model 5 1 24)) as (Hback & _).
  - evaluate.
  - apply Hback. evaluate.
Defined.

(** X17: With the cache off and no diagnostics asked for, the program with
    the cache fetches as [main.go] does: [getNotifications] returns
    what the [getNotifications] of [main.go] returns and leaves the
    same state, requests and files included. *)
Theorem getNotifications_cache_off (cfg : Config) (env : Env)
  (numNotifications : Z) (participating all : bool) (exclusion filter : string)
  (s : State) :
  cacheEnabled cfg = false ->
  ghNotifyVerbose cfg = false ->
  getNotifications cfg env numNotifications participating all exclusion filter s
  = getNotifications_direct env numNotifications participating all exclusion filter s
  /\ fs (snd (getNotifications cfg env numNotifications participating all
                exclusion filter s)) = fs s.
Proof.
  intros Hoff Hquiet. unfold getNotifications, getNotifications_direct.
  generalize (rounds numNotifications) as fuel.
  generalize 1 as pageNum. generalize 0 as fetchedCount.
  generalize (@nil Notification) as allNotifs. intros allNotifs fetchedCount pageNum fuel.
  revert allNotifs fetchedCount pageNum s.
  induction fuel as [| fuel IH]; intros allNotifs fetchedCount pageNum s;
    [split; reflexivity |].
  cbn [getNotifications_loop]. go_unfold.
  rewrite (getNotifs_cache_off cfg env pageNum participating all s Hoff Hquiet).
  assert (Hfs : fs (snd (getNotifs_direct env pageNum participating all s)) = fs s).
  { unfold getNotifs_direct, ghRestApiClient, die, client_Get, record_request,
      print_stderr, os_Exit.
    go_unfold. destruct (rest_client env); reflexivity. }
  destruct (getNotifs_direct env pageNum participating all s)
    as [[[notifs | e] | | |] s1]; cbn [fst snd] in Hfs |- *;
    try (split; [reflexivity | exact Hfs]).
  destruct (getNotifications_round numNotifications exclusion filter notifs
              fetchedCount allNotifs) as [[broke | count next] | | |];
    try (split; [reflexivity | exact Hfs]).
  destruct (IH next count (pageNum + 1) s1) as [Hsame Hfs1].
  split; [exact Hsame | now rewrite Hfs1].
Qed.

(** The sample feed through both fetchers. *)
Lemma getNotifications_cache_off_witness :
  getNotifications (sample_cfg false) (sample_env true sample_titles)
    2 false false "" "" empty_state
  = getNotifications_direct (sample_env true sample_titles)
      2 false false "" "" empty_state.
Proof.
  apply (getNotifications_cache_off (sample_cfg false)
           (sample_env true sample_titles) 2 false false "" "" empty_state);
    reflexivity.
Defined.
